(** * Entity reconciliation and relational ingestion (database.py)

    A shallow embedding of the [DatabaseInitialiser] class of
    [src/database.py]: the season partitioner ([collectClubs]), the
    surrogate key assigner ([assignClubIDs], [insertPlayers]), the club
    resolver ([findClubLevenshtein]), the lineup name resolver
    ([insertLineups], [generateBigrams], [compareBigrams]), the date to
    season mapping ([dateToSeason]) and the writer ([insertMatches]);
    and of the code that reads the store back: the queries of
    [DatabaseSelector], the club and player entry of [src/gui_appjar.py]
    and the feature vectors of [src/player.py] ([buildSets],
    [splitTrainingTesting]).

    Conventions.
    - Python [str] is [string]; a character is an [ascii].
    - Python [int] counters (keys, scores, lengths) are [nat]: every one
      of them starts at 0 or 1 and only grows.
    - A CSV row is a [list string], indexed as the source indexes it; an
      index out of range raises [IndexError].
    - A [dict] is an insertion-ordered association list with unique keys:
      assigning to a present key keeps its position, assigning to an
      absent key appends.
    - Exceptions are an explicit result type.  Code that talks to SQLite
      threads a connection holding the committed store and the working
      copy that [commit] publishes.
    - The three third-party calls ([jellyfish.levenshtein_distance],
      [nltk.word_tokenize], [datetime.strptime]) are parameters of the
      development; module [Lib] holds executable stand-ins used to run
      the definitions on concrete rows.  On the reading side the date
      query [getRecentMatches], NumPy's mean and shuffle and the float
      rounding of [splitTrainingTesting] are parameters of the
      definitions that call them. *)

From Stdlib Require Import List String Ascii Arith PeanoNat ZArith Bool Lia.
From Stdlib Require DecimalString.
Import ListNotations.
Local Open Scope string_scope.
Local Open Scope nat_scope.
Local Open Scope list_scope.

Set Implicit Arguments.

(* ------------------------------------------------------------------ *)
(** ** Exceptions *)

Inductive exn : Type :=
| IndexError      (* row[i] with i out of range *)
| KeyError        (* dict[k] with k absent *)
| ValueError      (* strptime on an unparseable string, short unpacking *)
| AssertionError  (* a failed assert *)
| BindingError.   (* sqlite3: wrong number of bindings or unsupported type *)

Inductive result (A : Type) : Type :=
| Ok (a : A)
| Raise (e : exn).

Arguments Ok {A} a.
Arguments Raise {A} e.

Definition bind {A B : Type} (r : result A) (k : A -> result B) : result B :=
  match r with
  | Ok a => k a
  | Raise e => Raise e
  end.

Notation "x <- c ;; k" := (bind c (fun x => k))
  (at level 61, c at next level, right associativity).

(** [row[i]] *)
Definition getitem {A : Type} (row : list A) (i : nat) : result A :=
  match nth_error row i with
  | Some x => Ok x
  | None => Raise IndexError
  end.

(* ------------------------------------------------------------------ *)
(** ** Insertion-ordered dictionaries *)

Module PyDict.
Section Dict.
Variables K V : Type.
Variable eqb : K -> K -> bool.

Definition t : Type := list (K * V).

(** [d.get(k)]: [None] when the key is absent *)
Fixpoint get (k : K) (d : t) : option V :=
  match d with
  | [] => None
  | (k', v) :: d' => if eqb k k' then Some v else get k d'
  end.

(** [d[k] = v] *)
Fixpoint set (k : K) (v : V) (d : t) : t :=
  match d with
  | [] => [(k, v)]
  | (k', v') :: d' =>
      if eqb k k' then (k', v) :: d' else (k', v') :: set k v d'
  end.

(** [d[k]] *)
Definition getitem (k : K) (d : t) : result V :=
  match get k d with
  | Some v => Ok v
  | None => Raise KeyError
  end.

(** [d.items()] and [d.keys()], in insertion order *)
Definition items (d : t) : list (K * V) := d.
Definition keys (d : t) : list K := map fst d.
End Dict.
End PyDict.

(** Keys used by the engine: a season, or a pair of strings. *)
Definition pair_eqb (a b : string * string) : bool :=
  String.eqb (fst a) (fst b) && String.eqb (snd a) (snd b).

(** [x in xs] for a list of strings *)
Definition str_in (x : string) (xs : list string) : bool :=
  existsb (String.eqb x) xs.

(* ------------------------------------------------------------------ *)
(** ** Calendar dates *)

Record date : Type := mkDate { year : nat; month : nat; day : nat }.

(** [d1 < d2] on [datetime.date] *)
Definition date_ltb (d1 d2 : date) : bool :=
  (year d1 <? year d2)
  || ((year d1 =? year d2)
      && ((month d1 <? month d2)
          || ((month d1 =? month d2) && (day d1 <? day d2)))).

(* ------------------------------------------------------------------ *)
(** ** Executable stand-ins for the third-party calls *)

Module Lib.

Fixpoint chars (s : string) : list ascii :=
  match s with
  | EmptyString => []
  | String c s' => c :: chars s'
  end.

(** *** Levenshtein distance, row by row *)

Fixpoint next_row (c : ascii) (t : list ascii) (diag : nat)
         (up_rest : list nat) (left : nat) : list nat :=
  match t, up_rest with
  | d :: t', up :: rest =>
      let cost := if Ascii.eqb c d then 0 else 1 in
      let v := Nat.min (Nat.min (S up) (S left)) (diag + cost) in
      v :: next_row c t' up rest v
  | _, _ => []
  end.

Definition lev_step (t : list ascii) (row : list nat) (c : ascii) : list nat :=
  match row with
  | [] => []
  | d0 :: rest => S d0 :: next_row c t d0 rest (S d0)
  end.

Definition levenshtein_distance (s t : string) : nat :=
  let t' := chars t in
  last (fold_left (lev_step t') (chars s) (seq 0 (S (List.length t')))) 0.

(** *** Tokenizer: split on blanks *)

Definition is_blank (c : ascii) : bool :=
  Ascii.eqb c " "%char || Ascii.eqb c "009"%char.

Fixpoint split_blank (s : string) (cur : string) : list string :=
  match s with
  | EmptyString =>
      match cur with EmptyString => [] | _ => [cur] end
  | String c s' =>
      if is_blank c
      then match cur with
           | EmptyString => split_blank s' EmptyString
           | _ => cur :: split_blank s' EmptyString
           end
      else split_blank s' (cur ++ String c EmptyString)%string
  end.

Definition word_tokenize (s : string) : list string :=
  split_blank s EmptyString.

(** *** Dates written "DD Month YYYY" *)

Definition digit_of (c : ascii) : option nat :=
  let n := nat_of_ascii c in
  if (48 <=? n) && (n <=? 57) then Some (n - 48) else None.

Fixpoint number_of (cs : list ascii) (acc : nat) : option nat :=
  match cs with
  | [] => Some acc
  | c :: cs' =>
      match digit_of c with
      | Some d => number_of cs' (10 * acc + d)
      | None => None
      end
  end.

Definition month_names : list string :=
  ["January"; "February"; "March"; "April"; "May"; "June"; "July";
   "August"; "September"; "October"; "November"; "December"].

Fixpoint index_of (x : string) (xs : list string) (i : nat) : option nat :=
  match xs with
  | [] => None
  | y :: ys => if String.eqb x y then Some i else index_of x ys (S i)
  end.

Definition leap (y : nat) : bool :=
  ((y mod 4 =? 0) && negb (y mod 100 =? 0)) || (y mod 400 =? 0).

Definition days_in_month (y m : nat) : nat :=
  match m with
  | 2 => if leap y then 29 else 28
  | 4 | 6 | 9 | 11 => 30
  | _ => 31
  end.

Definition strptime (s : string) : option date :=
  match split_blank s EmptyString with
  | [d; m; y] =>
      match number_of (chars d) 0, index_of m month_names 1,
            number_of (chars y) 0 with
      | Some dd, Some mm, Some yy =>
          if (1 <=? String.length d) && (String.length d <=? 2)
             && (String.length y =? 4)
             && (1 <=? yy) && (1 <=? dd) && (dd <=? days_in_month yy mm)
          then Some (mkDate yy mm dd)
          else None
      | _, _, _ => None
      end
  | _ => None
  end.

End Lib.

(* ------------------------------------------------------------------ *)
(** ** The persisted store *)

Record PlayerRow : Type := mkPlayerRow {
  playerID : nat;
  player_name : string;
  player_name_long : string;
  player_position : string;
  player_rating : string;
  player_clubID : nat;
  player_season : string
}.

Record ClubRow : Type := mkClubRow {
  clubID : nat;
  club_name : string;
  club_season : string
}.

Record MatchRow : Type := mkMatchRow {
  matchID : nat;
  match_season : option string;
  home_clubID : nat;
  away_clubID : nat;
  score : string;
  lineupID : nat;
  match_date : string
}.

(** The five tables, each a list of rows in insertion order.  A
    [Lineups] row is the bound value list: the lineup key followed by
    the home and the away slot columns.  The key constraints of the
    schema are not part of the model: ingestion starts from a new file
    and numbers its rows itself. *)
Record Store : Type := mkStore {
  Players : list PlayerRow;
  Clubs : list ClubRow;
  Matches : list MatchRow;
  ClubMatch : list (nat * nat);
  Lineups : list (list nat)
}.

Definition empty_store : Store := mkStore [] [] [] [] [].

(** The connection: what has been committed, and the working copy that
    the next [commit] publishes.  When the run aborts, the persisted store
    is [committed]. *)
Record Conn : Type := mkConn { committed : Store; working : Store }.

Definition fresh_conn : Conn := mkConn empty_store empty_store.

(** Code running against the connection: a result (or an exception) and
    the connection as it then stands. *)
Definition M (A : Type) : Type := Conn -> result A * Conn.

Definition ret {A : Type} (a : A) : M A := fun conn => (Ok a, conn).

Definition bindM {A B : Type} (m : M A) (k : A -> M B) : M B :=
  fun conn =>
    match m conn with
    | (Ok a, conn') => k a conn'
    | (Raise e, conn') => (Raise e, conn')
    end.

Definition lift {A : Type} (r : result A) : M A := fun conn => (r, conn).

Notation "x <~ c ;; k" := (bindM c (fun x => k))
  (at level 61, c at next level, right associativity).
Notation "c ;;; k" := (bindM c (fun _ => k))
  (at level 61, right associativity).

(** [cursor.execute("INSERT ...")]: the row joins the working copy. *)
Definition execute (f : Store -> Store) : M unit :=
  fun conn => (Ok tt, mkConn (committed conn) (f (working conn))).

(** [commitChanges] *)
Definition commitChanges : M unit :=
  fun conn => (Ok tt, mkConn (working conn) (working conn)).

Definition add_player (r : PlayerRow) (s : Store) : Store :=
  mkStore (Players s ++ [r]) (Clubs s) (Matches s) (ClubMatch s) (Lineups s).
Definition add_club (r : ClubRow) (s : Store) : Store :=
  mkStore (Players s) (Clubs s ++ [r]) (Matches s) (ClubMatch s) (Lineups s).
Definition add_match (r : MatchRow) (s : Store) : Store :=
  mkStore (Players s) (Clubs s) (Matches s ++ [r]) (ClubMatch s) (Lineups s).
Definition add_clubmatch (r : nat * nat) (s : Store) : Store :=
  mkStore (Players s) (Clubs s) (Matches s) (ClubMatch s ++ [r]) (Lineups s).
Definition add_lineup (r : list nat) (s : Store) : Store :=
  mkStore (Players s) (Clubs s) (Matches s) (ClubMatch s) (Lineups s ++ [r]).

(* ------------------------------------------------------------------ *)
(** ** Values of mixed type *)

(** What [findClubLevenshtein] can return: a key, a club name, or one of
    the type objects [int] / [str] that the initial
    [greatest_similarity] tuple holds. *)
Inductive pyval : Type :=
| PInt (n : nat)
| PStr (s : string)
| PType.

(** A roster candidate [(ID, shortname, longname)] *)
Definition candidate : Type := (nat * string * string)%type.
Definition pool : Type := list candidate.

Definition id_of (c : candidate) : nat := fst (fst c).
Definition short_of (c : candidate) : string := snd (fst c).
Definition long_of (c : candidate) : string := snd c.

Definition row : Type := list string.
Definition existing_clubs : Type := PyDict.t string (list string).
Definition club_ids_t : Type := PyDict.t (string * string) nat.
Definition name_ids_t : Type := PyDict.t (string * string) pool.

(** State of one side of a lineup during [insertLineups]:
    [home_values], [home_team_ids], [home_lineup] (or the away three). *)
Record side : Type := mkSide {
  values : list nat;
  team_ids : pool;
  lineup : list string
}.

(* ------------------------------------------------------------------ *)
(** ** DatabaseInitialiser *)

Section Engine.

(** [jellyfish.levenshtein_distance] *)
Variable levenshtein_distance : string -> string -> nat.
(** [nltk.word_tokenize] *)
Variable word_tokenize : string -> list string.
(** [datetime.strptime(_, "%d %B %Y").date()]; [None] is [ValueError] *)
Variable strptime : string -> option date.

(** *** collectClubs *)

(** One row of the loop.  The first branch of the source tests
    [season in keys and not (club_name in existing[season])], the second
    [not (season in keys)]: a season already present with the club
    already listed changes nothing. *)
Definition collectClubs_row (existing : existing_clubs) (player : row)
  : result existing_clubs :=
  club_name <- getitem player 4 ;;
  season <- getitem player 5 ;;
  match PyDict.get String.eqb season existing with
  | Some clubs =>
      if negb (str_in club_name clubs)
      then Ok (PyDict.set String.eqb season (clubs ++ [club_name]) existing)
      else Ok existing
  | None => Ok (PyDict.set String.eqb season [club_name] existing)
  end.

Fixpoint collectClubs (player_values : list row) (existing : existing_clubs)
  : result existing_clubs :=
  match player_values with
  | [] => Ok existing
  | player :: rest =>
      existing' <- collectClubs_row existing player ;;
      collectClubs rest existing'
  end.

(** *** assignClubIDs *)

Definition assign_club (season : string) (st : club_ids_t * nat) (club : string)
  : club_ids_t * nat :=
  let (club_ids, current_id) := st in
  (PyDict.set pair_eqb (season, club) current_id club_ids, current_id + 1).

Definition assign_season (st : club_ids_t * nat)
           (entry : string * list string) : club_ids_t * nat :=
  let (season, clubs) := entry in
  fold_left (assign_club season) clubs st.

Definition assignClubIDs (existing : existing_clubs) : club_ids_t :=
  fst (fold_left assign_season (PyDict.items existing) ([], 1)).

(** *** insertPlayers *)

(** The body of the loop: bind the seven columns (evaluated left to
    right), insert, then record the key under [(club, season)]. *)
Definition insertPlayers_row (club_ids : club_ids_t) (player_id : nat)
           (name_ids : name_ids_t) (player : row) : M name_ids_t :=
  p0 <~ lift (getitem player 0) ;;
  p1 <~ lift (getitem player 1) ;;
  p2 <~ lift (getitem player 2) ;;
  p3 <~ lift (getitem player 3) ;;
  p5 <~ lift (getitem player 5) ;;
  p4 <~ lift (getitem player 4) ;;
  club <~ lift (PyDict.getitem pair_eqb (p5, p4) club_ids) ;;
  execute (add_player (mkPlayerRow player_id p0 p1 p2 p3 club p5)) ;;;
  match PyDict.get pair_eqb (p4, p5) name_ids with
  | Some known =>
      ret (PyDict.set pair_eqb (p4, p5) (known ++ [(player_id, p0, p1)]) name_ids)
  | None =>
      ret (PyDict.set pair_eqb (p4, p5) [(player_id, p0, p1)] name_ids)
  end.

Fixpoint insertPlayers_loop (club_ids : club_ids_t) (players : list row)
         (player_id : nat) (name_ids : name_ids_t) : M name_ids_t :=
  match players with
  | [] => ret name_ids
  | player :: rest =>
      name_ids' <~ insertPlayers_row club_ids player_id name_ids player ;;
      insertPlayers_loop club_ids rest (player_id + 1) name_ids'
  end.

Definition insertPlayers (club_ids : club_ids_t) (player_values : list row)
  : M name_ids_t :=
  name_ids <~ insertPlayers_loop club_ids player_values 1 [] ;;
  commitChanges ;;;
  ret name_ids.

(** *** insertClubs *)

Fixpoint insertClubs_loop (items : list (string * string * nat)) : M unit :=
  match items with
  | [] => ret tt
  | (club, id) :: rest =>
      execute (add_club (mkClubRow id (snd club) (fst club))) ;;;
      insertClubs_loop rest
  end.

Definition insertClubs (club_ids : club_ids_t) : M unit :=
  insertClubs_loop (PyDict.items club_ids) ;;;
  commitChanges.

(** *** dateToSeason *)

Definition season_names : list string :=
  ["2012/2013"; "2013/2014"; "2014/2015"; "2015/2016";
   "2016/2017"; "2017/2018"; "2018/2019"; "2019/2020"].

(** [(date_object(year, 5, 30), season_years)] for [year] in
    [range(2013, 2021)] zipped with the names *)
Definition season_boundaries : list (date * string) :=
  map (fun ys : nat * string => (mkDate (fst ys) 5 30, snd ys))
      (combine (seq 2013 8) season_names).

(** The [for] loop: the first boundary the date is strictly before;
    falling off the end returns [None]. *)
Fixpoint first_boundary (date_formatted : date)
         (boundaries : list (date * string)) : option string :=
  match boundaries with
  | [] => None
  | (date, years) :: rest =>
      if date_ltb date_formatted date then Some years
      else first_boundary date_formatted rest
  end.

Definition dateToSeason (match_date : string) : result (option string) :=
  match strptime match_date with
  | Some date_formatted => Ok (first_boundary date_formatted season_boundaries)
  | None => Raise ValueError
  end.

(** *** findClubLevenshtein *)

(** [entered_season == season] where [entered_season] may be [None] *)
Definition season_eqb (entered_season : option string) (season : string) : bool :=
  match entered_season with
  | Some s => String.eqb s season
  | None => false
  end.

(** One entry of the scan.  [greatest_similarity] is [None] while it is
    still the initial [(inf, int, str)]: every distance is below [inf]. *)
Definition closer (entered_season : option string) (entered_club : string)
           (greatest_similarity : option (nat * nat * string))
           (item : string * string * nat) : option (nat * nat * string) :=
  let '((season, clubname), id) := item in
  if season_eqb entered_season season then
    let distance := levenshtein_distance clubname entered_club in
    match greatest_similarity with
    | None => Some (distance, id, clubname)
    | Some (best, _, _) =>
        if distance <? best then Some (distance, id, clubname)
        else greatest_similarity
    end
  else greatest_similarity.

Definition findClubLevenshtein (find_id : bool) (entered_season : option string)
           (entered_club : string) (club_ids : club_ids_t) : pyval :=
  match fold_left (closer entered_season entered_club)
                  (PyDict.items club_ids) None with
  | Some (_, id, clubname) => if find_id then PInt id else PStr clubname
  | None => PType
  end.

(** [self._club_ids[(season, club)]] with a season that may be [None] *)
Definition club_ids_getitem (season : option string) (club : string)
           (club_ids : club_ids_t) : result nat :=
  match season with
  | Some s => PyDict.getitem pair_eqb (s, club) club_ids
  | None => Raise KeyError
  end.

(** The [try] / [except KeyError] of [insertMatches] (lines 279-286) *)
Definition resolve_club_id (club_ids : club_ids_t) (season : option string)
           (club : string) : result pyval :=
  match club_ids_getitem season club club_ids with
  | Ok id => Ok (PInt id)
  | Raise KeyError => Ok (findClubLevenshtein true season club club_ids)
  | Raise e => Raise e
  end.

(** [self._name_ids[club, season]]: only a pair of strings can be a key *)
Definition name_ids_getitem (club : pyval) (season : option string)
           (name_ids : name_ids_t) : result pool :=
  match club, season with
  | PStr c, Some s => PyDict.getitem pair_eqb (c, s) name_ids
  | _, _ => Raise KeyError
  end.

(** The [try] / [except KeyError] of [insertLineups] (lines 306-315);
    the lookup in the handler is not guarded. *)
Definition roster (name_ids : name_ids_t) (club_ids : club_ids_t)
           (club : string) (date_season : option string) : result pool :=
  match name_ids_getitem (PStr club) date_season name_ids with
  | Ok ids => Ok ids
  | Raise KeyError =>
      name_ids_getitem (findClubLevenshtein false date_season club club_ids)
                       date_season name_ids
  | Raise e => Raise e
  end.

(** *** generateBigrams *)

(** ["".join(char for char in player if char != '.')] *)
Fixpoint remove_stops (player : string) : string :=
  match player with
  | EmptyString => EmptyString
  | String char rest =>
      if Ascii.eqb char "."%char then remove_stops rest
      else String char (remove_stops rest)
  end.

(** [[first + second for first, second in zip(n[:], n[1:])]] *)
Fixpoint word_bigrams (n : string) : list string :=
  match n with
  | String first ((String second _) as tail) =>
      String first (String second EmptyString) :: word_bigrams tail
  | _ => []
  end.

Definition generateBigrams (player : string) : list string :=
  let formatted_player := remove_stops player in
  let player_names := word_tokenize formatted_player in
  let significant_names :=
    filter (fun name => 1 <? String.length name) player_names in
  flat_map word_bigrams significant_names.

(** *** compareBigrams *)

(** [len([bigram for bigram in theirs if bigram in player_bigram])] *)
Definition common_bigrams (theirs player_bigram : list string) : nat :=
  List.length (filter (fun bigram => str_in bigram player_bigram) theirs).

(** One candidate of the inner loop; [greatest_similarity] is the pair
    (score, id). *)
Definition compare_candidate (player_bigram : list string)
           (greatest_similarity : nat * nat) (club_player : candidate)
  : nat * nat :=
  let '(id, shortname, longname) := club_player in
  let short_club_player_bigrams := generateBigrams shortname in
  let long_club_player_bigrams := generateBigrams longname in
  let common_short_bigrams :=
    common_bigrams short_club_player_bigrams player_bigram in
  let common_long_bigrams :=
    common_bigrams long_club_player_bigrams player_bigram in
  if (common_short_bigrams <=? common_long_bigrams)
     && (fst greatest_similarity <? common_long_bigrams)
  then (common_long_bigrams, id)
  else if (common_long_bigrams <? common_short_bigrams)
          && (fst greatest_similarity <? common_short_bigrams)
  then (common_short_bigrams, id)
  else greatest_similarity.

Definition most_similar (player : string) (team_ids : pool) : nat * nat :=
  fold_left (compare_candidate (generateBigrams player)) team_ids (0, 0).

(** The outer loop, carrying [similar_players] and the shrinking
    [team_ids]. *)
Fixpoint compareBigrams_loop (players : list string) (team_ids : pool)
         (similar_players : list nat) : list nat * pool :=
  match players with
  | [] => (similar_players, team_ids)
  | player :: rest =>
      let greatest_similarity := most_similar player team_ids in
      compareBigrams_loop rest
        (filter (fun p => negb (id_of p =? snd greatest_similarity)) team_ids)
        (similar_players ++ [snd greatest_similarity])
  end.

Definition compareBigrams (players : list string) (team_ids : pool) : list nat :=
  fst (compareBigrams_loop players team_ids []).

(** *** insertLineups *)

(** [h_player in home_id]: membership in the tuple
    [(ID, shortname, longname)].  The name is a [str] and the first
    component an [int], so only the two names can compare equal. *)
Definition name_in_tuple (player : string) (home_id : candidate) : bool :=
  let '(_, shortname, longname) := home_id in
  String.eqb player shortname || String.eqb player longname.

(** [player != home_id] on tuples is the negation of this. *)
Definition tuple_eqb (a b : candidate) : bool :=
  (id_of a =? id_of b)
  && String.eqb (short_of a) (short_of b)
  && String.eqb (long_of a) (long_of b).

(** The inner [for home_id in home_team_ids: ... break].  The iterator
    runs over the list as it was when the loop started; on the first
    hit the three variables are rebound and the loop left. *)
Fixpoint scan_roster (h_player : string) (iter : pool) (st : side) : side :=
  match iter with
  | [] => st
  | home_id :: rest =>
      if name_in_tuple h_player home_id
      then mkSide (values st ++ [id_of home_id])
                  (filter (fun player => negb (tuple_eqb player home_id))
                          (team_ids st))
                  (filter (fun player => negb (String.eqb player h_player))
                          (lineup st))
      else scan_roster h_player rest st
  end.

Definition contain_slot (h_player : string) (st : side) : side :=
  scan_roster h_player (team_ids st) st.

(** The [for h_player, a_player in zip(home_lineup, away_lineup)] loop.
    [zip] iterates over the two original lists, whatever the variables
    are rebound to meanwhile. *)
Fixpoint containment_pass (slots : list (string * string)) (home away : side)
  : side * side :=
  match slots with
  | [] => (home, away)
  | (h_player, a_player) :: rest =>
      containment_pass rest (contain_slot h_player home)
                       (contain_slot a_player away)
  end.

(** [if len(home_lineup) > 0: home_values += compareBigrams(...)] *)
Definition similarity_pass (st : side) : list nat :=
  if 0 <? List.length (lineup st)
  then values st ++ compareBigrams (lineup st) (team_ids st)
  else values st.

(** Everything of [insertLineups] up to the bound value list. *)
Definition lineup_values (club_ids : club_ids_t) (name_ids : name_ids_t)
           (current_id : nat) (match_ : row) : result (list nat) :=
  let home_lineup := firstn 11 (skipn 4 match_) in
  m3 <- getitem match_ 3 ;;
  date_season <- dateToSeason m3 ;;
  m0 <- getitem match_ 0 ;;
  home_team_ids <- roster name_ids club_ids m0 date_season ;;
  let away_lineup := skipn 15 match_ in
  m1 <- getitem match_ 1 ;;
  away_team_ids <- roster name_ids club_ids m1 date_season ;;
  if negb (List.length home_lineup =? List.length away_lineup)
  then Raise AssertionError
  else
    let (home, away) :=
      containment_pass (combine home_lineup away_lineup)
                       (mkSide [] home_team_ids home_lineup)
                       (mkSide [] away_team_ids away_lineup) in
    Ok ([current_id] ++ similarity_pass home ++ similarity_pass away).

(** The [INSERT INTO Lineups] statement has 23 placeholders. *)
Definition insert_lineup (vals : list nat) : M unit :=
  if List.length vals =? 23
  then execute (add_lineup vals)
  else lift (Raise BindingError).

Definition insertLineups (club_ids : club_ids_t) (name_ids : name_ids_t)
           (current_id : nat) (match_ : row) : M unit :=
  vals <~ lift (lineup_values club_ids name_ids current_id match_) ;;
  insert_lineup vals ;;;
  commitChanges.

(** *** insertClubMatch *)

Definition insertClubMatch (clubID matchID : nat) : M unit :=
  execute (add_clubmatch (clubID, matchID)).

(** *** insertMatches *)

Definition two_digits (n : nat) : string :=
  let s := DecimalString.NilZero.string_of_uint (Nat.to_uint n) in
  if n <? 10 then String "0"%char s else s.

Definition four_digits (n : nat) : string :=
  let s := DecimalString.NilZero.string_of_uint (Nat.to_uint n) in
  if n <? 10 then ("000" ++ s)%string
  else if n <? 100 then ("00" ++ s)%string
  else if n <? 1000 then String "0"%char s
  else s.

(** The year as [%Y] prints it in [strftime]: CPython 3.11 hands the
    format to the C library, and glibc writes the year without padding
    (999, not 0999). *)
Definition year_digits (n : nat) : string :=
  DecimalString.NilZero.string_of_uint (Nat.to_uint n).

(** [strftime('%Y-%m-%d')] *)
Definition strftime_iso (d : date) : string :=
  (year_digits (year d) ++ "-" ++ two_digits (month d)
     ++ "-" ++ two_digits (day d))%string.

(** The body of the loop for one match.  A club key that is a type
    object cannot be bound: the [INSERT INTO Matches] raises.  The
    [commitChanges] after that statement is line 291 of the source. *)
Definition insertMatches_row (club_ids : club_ids_t) (name_ids : name_ids_t)
           (current_id : nat) (match_ : row) : M unit :=
  (* home_name, away_name, score, date_unformatted, *_ = match *)
  _ <~ lift (if List.length match_ <? 4 then Raise ValueError else Ok tt) ;;
  m3 <~ lift (getitem match_ 3) ;;
  season <~ lift (dateToSeason m3) ;;
  ISO_date <~ lift (match strptime m3 with
                    | Some d => Ok (strftime_iso d)
                    | None => Raise ValueError
                    end) ;;
  m0 <~ lift (getitem match_ 0) ;;
  home_team_id <~ lift (resolve_club_id club_ids season m0) ;;
  m1 <~ lift (getitem match_ 1) ;;
  away_team_id <~ lift (resolve_club_id club_ids season m1) ;;
  m2 <~ lift (getitem match_ 2) ;;
  match home_team_id, away_team_id with
  | PInt home, PInt away =>
      execute (add_match (mkMatchRow current_id season home away m2
                                     current_id ISO_date)) ;;;
      commitChanges ;;;
      insertClubMatch home current_id ;;;
      insertClubMatch away current_id ;;;
      insertLineups club_ids name_ids current_id match_
  | _, _ => lift (Raise BindingError)
  end.

Fixpoint insertMatches_loop (club_ids : club_ids_t) (name_ids : name_ids_t)
         (lineup_values_ : list row) (current_id : nat) : M unit :=
  match lineup_values_ with
  | [] => ret tt
  | match_ :: rest =>
      insertMatches_row club_ids name_ids current_id match_ ;;;
      insertMatches_loop club_ids name_ids rest (current_id + 1)
  end.

Definition insertMatches (club_ids : club_ids_t) (name_ids : name_ids_t)
           (lineup_values_ : list row) : M unit :=
  insertMatches_loop club_ids name_ids lineup_values_ 1.

(** *** The main block *)

(** [collectClubs], [assignClubIDs], [insertPlayers], [insertClubs],
    [insertMatches], in the order of the script's entry point. *)
Definition ingest (player_values lineup_values_ : list row) : M unit :=
  existing <~ lift (collectClubs player_values []) ;;
  name_ids <~ insertPlayers (assignClubIDs existing) player_values ;;
  insertClubs (assignClubIDs existing) ;;;
  insertMatches (assignClubIDs existing) name_ids lineup_values_.

(* ---------------------------------------------------------------- *)
(** *** Vocabulary of the statements *)

(** Columns of a player row
    [short_name, long_name, position, rating, club_name, season] *)
Definition club_of (player : row) : string := nth 4 player EmptyString.
Definition season_of (player : row) : string := nth 5 player EmptyString.
Definition well_formed_player (player : row) : Prop := 6 <= List.length player.

(** The distinct elements of a list, in order of first appearance. *)
Fixpoint first_seen (xs : list string) : list string :=
  match xs with
  | [] => []
  | x :: rest =>
      x :: filter (fun y => negb (String.eqb y x)) (first_seen rest)
  end.

(** [l] with [c] appended unless present *)
Definition add_once (l : list string) (c : string) : list string :=
  if str_in c l then l else l ++ [c].

(** Club names of the rows of one season, in row order *)
Definition clubs_of_season (season : string) (rows : list row) : list string :=
  map club_of (filter (fun r => String.eqb (season_of r) season) rows).

(** The (season, club) pairs of a season partition, season by season *)
Definition season_club_pairs (existing : existing_clubs)
  : list (string * string) :=
  flat_map (fun e : string * list string => map (pair (fst e)) (snd e))
           existing.

(** The [Players] rows written for [rows] when the first key is
    [player_id]: row [i] gets key [player_id + i]. *)
Definition player_rows (club_ids : club_ids_t) (player_id : nat)
           (rows : list row) : list PlayerRow :=
  map (fun ip : nat * row =>
         let p := snd ip in
         mkPlayerRow (fst ip)
                     (nth 0 p EmptyString) (nth 1 p EmptyString)
                     (nth 2 p EmptyString) (nth 3 p EmptyString)
                     match PyDict.get pair_eqb (season_of p, club_of p)
                                      club_ids with
                     | Some id => id
                     | None => 0
                     end
                     (season_of p))
      (combine (seq player_id (List.length rows)) rows).

(** The candidates [(key, short name, long name)] of the rows of one
    [(club, season)], in row order, keys counted from [player_id]. *)
Definition roster_from (player_id : nat) (key : string * string)
           (rows : list row) : pool :=
  map (fun ip : nat * row =>
         (fst ip, nth 0 (snd ip) EmptyString, nth 1 (snd ip) EmptyString))
      (filter (fun ip : nat * row =>
                 pair_eqb (club_of (snd ip), season_of (snd ip)) key)
              (combine (seq player_id (List.length rows)) rows)).

(** A dictionary entry exists only for a non-empty list. *)
Definition nonempty {A : Type} (l : list A) : option (list A) :=
  match l with
  | [] => None
  | _ => Some l
  end.

(** A store with [rs] appended to its [Players] table *)
Definition add_players (rs : list PlayerRow) (s : Store) : Store :=
  mkStore (Players s ++ rs) (Clubs s) (Matches s) (ClubMatch s) (Lineups s).

(** The label "(Y-1)/Y" of the season ending in year [Y] *)
Definition season_label (Y : nat) : string :=
  (four_digits (Y - 1) ++ "/" ++ four_digits Y)%string.

(** May 30 of year [Y] *)
Definition season_end (Y : nat) : date := mkDate Y 5 30.

(* ---------------------------------------------------------------- *)
(** *** Sample rows *)

Definition sample_players : list row :=
  [ ["L. Messi"; "Lionel Messi"; "ST"; "93"; "Barcelona"; "2017/2018"];
    ["G. Pique"; "Gerard Pique"; "CB"; "87"; "Barcelona"; "2017/2018"];
    ["S. Ramos"; "Sergio Ramos"; "CB"; "90"; "Real Madrid"; "2017/2018"];
    ["L. Messi"; "Lionel Messi"; "ST"; "94"; "Barcelona"; "2018/2019"] ].

Definition sample_club_ids : club_ids_t :=
  [ (("2017/2018", "Barcelona"), 1);
    (("2017/2018", "Real Madrid"), 2);
    (("2018/2019", "Barcelona"), 3) ].

(** The similarity of a candidate to a slot name: the larger of the two
    common-bigram counts. *)
Definition long_score (player_bigram : list string) (c : candidate) : nat :=
  common_bigrams (generateBigrams (long_of c)) player_bigram.

Definition short_score (player_bigram : list string) (c : candidate) : nat :=
  common_bigrams (generateBigrams (short_of c)) player_bigram.

Definition candidate_score (player_bigram : list string) (c : candidate) : nat :=
  Nat.max (short_score player_bigram c) (long_score player_bigram c).



(** One side of the containment loop on its own: the slots of that side
    in input order. *)
Definition side_pass (names : list string) (st : side) : side :=
  fold_left (fun st' player => contain_slot player st') names st.

(** What the containment pass does with each slot of a side, in input
    order: the name, and the key it resolved to if any.  A slot resolves
    to the first candidate of the pool, as it then is, one of whose two
    names equals the slot name; that candidate then leaves the pool. *)
Fixpoint slot_outcomes (names : list string) (team : pool)
  : list (string * option nat) :=
  match names with
  | [] => []
  | player :: rest =>
      match find (name_in_tuple player) team with
      | Some c =>
          (player, Some (id_of c))
            :: slot_outcomes rest
                 (filter (fun p => negb (tuple_eqb p c)) team)
      | None => (player, None) :: slot_outcomes rest team
      end
  end.

Definition resolved_keys (outcomes : list (string * option nat)) : list nat :=
  flat_map (fun o : string * option nat =>
              match snd o with Some k => [k] | None => [] end) outcomes.

Definition resolved_names (outcomes : list (string * option nat))
  : list string :=
  flat_map (fun o : string * option nat =>
              match snd o with Some _ => [fst o] | None => [] end) outcomes.

Definition unresolved_names (outcomes : list (string * option nat))
  : list string :=
  flat_map (fun o : string * option nat =>
              match snd o with Some _ => [] | None => [fst o] end) outcomes.

(** The pool a side is left with after the containment pass over [names] *)
Fixpoint pool_after (names : list string) (team : pool) : pool :=
  match names with
  | [] => team
  | player :: rest =>
      match find (name_in_tuple player) team with
      | Some c => pool_after rest (filter (fun p => negb (tuple_eqb p c)) team)
      | None => pool_after rest team
      end
  end.

(** [needle] occurs in [hay] as a substring (the reading of line 321
    that C1 states). *)
Fixpoint is_substring (needle hay : string) : bool :=
  String.prefix needle hay
  || match hay with
     | EmptyString => false
     | String _ hay' => is_substring needle hay'
     end.

(** C1 as the specification words it: a slot whose name is a substring
    of a name of a remaining candidate gets that candidate's key in the
    containment pass. *)
Definition containment_by_substring : Prop :=
  forall (player : string) (st : side) (c : candidate),
    In c (team_ids st) ->
    is_substring player (short_of c) || is_substring player (long_of c) = true ->
    values (contain_slot player st) = values st ++ [id_of c].

(** The key [k] is that of a candidate of [team] one of whose names is
    exactly [player]. *)
Definition resolves (team : pool) (player : string) (k : nat) : Prop :=
  exists c, In c team
            /\ (player = short_of c \/ player = long_of c)
            /\ k = id_of c.

(** Every name is, letter for letter, a name of some candidate, and no
    candidate carries two of the names. *)
Definition exactly_spelled (names : list string) (team : pool) : Prop :=
  (forall n, In n names -> exists c, In c team /\ name_in_tuple n c = true)
  /\ (forall c n n', In c team -> In n names -> In n' names ->
        name_in_tuple n c = true -> name_in_tuple n' c = true -> n = n').





(** Decision procedures used to check the side conditions on concrete
    rows *)
Fixpoint distinctb (xs : list string) : bool :=
  match xs with
  | [] => true
  | x :: rest => negb (str_in x rest) && distinctb rest
  end.

Definition exactly_spelledb (names : list string) (team : pool) : bool :=
  forallb (fun n => existsb (name_in_tuple n) team) names
  && forallb (fun c =>
                forallb (fun n =>
                           forallb (fun n' =>
                                      negb (name_in_tuple n c
                                            && name_in_tuple n' c)
                                      || String.eqb n n')
                                   names)
                        names)
             team.

Definition sample_home_pool : pool :=
  [ (1, "M. ter Stegen", "Marc-Andre ter Stegen");
    (2, "N. Semedo", "Nelson Semedo");
    (3, "G. Pique", "Gerard Pique");
    (4, "S. Umtiti", "Samuel Umtiti");
    (5, "J. Alba", "Jordi Alba");
    (6, "S. Busquets", "Sergio Busquets");
    (7, "I. Rakitic", "Ivan Rakitic");
    (8, "A. Iniesta", "Andres Iniesta");
    (9, "L. Messi", "Lionel Messi");
    (10, "L. Suarez", "Luis Suarez");
    (11, "P. Coutinho", "Philippe Coutinho") ].

Definition sample_away_pool : pool :=
  [ (12, "K. Navas", "Keylor Navas");
    (13, "D. Carvajal", "Daniel Carvajal");
    (14, "S. Ramos", "Sergio Ramos");
    (15, "R. Varane", "Raphael Varane");
    (16, "Marcelo", "Marcelo Vieira");
    (17, "Casemiro", "Carlos Casimiro");
    (18, "T. Kroos", "Toni Kroos");
    (19, "L. Modric", "Luka Modric");
    (20, "G. Bale", "Gareth Bale");
    (21, "K. Benzema", "Karim Benzema");
    (22, "C. Ronaldo", "Cristiano Ronaldo") ].

Definition sample_name_ids : name_ids_t :=
  [ (("Barcelona", "2017/2018"), sample_home_pool);
    (("Real Madrid", "2017/2018"), sample_away_pool) ].

(** Names spelled exactly as the short or the long roster name *)
Definition sample_exact_home : list string :=
  ["Marc-Andre ter Stegen"; "N. Semedo"; "Gerard Pique"; "S. Umtiti";
   "Jordi Alba"; "Sergio Busquets"; "I. Rakitic"; "Andres Iniesta";
   "L. Messi"; "Luis Suarez"; "P. Coutinho"].

Definition sample_exact_away : list string :=
  ["Keylor Navas"; "D. Carvajal"; "Sergio Ramos"; "R. Varane"; "Marcelo";
   "Casemiro"; "Toni Kroos"; "L. Modric"; "Gareth Bale"; "Karim Benzema";
   "C. Ronaldo"].

(** A lineup row in which "Pique" and "Modric" are not spelled as any
    roster name *)
Definition sample_match : row :=
  ["Barcelona"; "Real Madrid"; "3-1"; "12 May 2018";
   "Marc-Andre ter Stegen"; "N. Semedo"; "Pique"; "S. Umtiti";
   "Jordi Alba"; "Sergio Busquets"; "I. Rakitic"; "Andres Iniesta";
   "L. Messi"; "Luis Suarez"; "P. Coutinho";
   "Keylor Navas"; "D. Carvajal"; "Sergio Ramos"; "R. Varane"; "Marcelo";
   "Casemiro"; "Toni Kroos"; "Modric"; "Gareth Bale"; "Karim Benzema";
   "C. Ronaldo"].

(** The same row with the last away name missing: 11 home names, 10 away
    names *)
Definition sample_short_match : row :=
  ["Barcelona"; "Real Madrid"; "3-1"; "12 May 2018";
   "Marc-Andre ter Stegen"; "N. Semedo"; "Pique"; "S. Umtiti";
   "Jordi Alba"; "Sergio Busquets"; "I. Rakitic"; "Andres Iniesta";
   "L. Messi"; "Luis Suarez"; "P. Coutinho";
   "Keylor Navas"; "D. Carvajal"; "Sergio Ramos"; "R. Varane"; "Marcelo";
   "Casemiro"; "Toni Kroos"; "Modric"; "Gareth Bale"; "Karim Benzema"].

(** The rows of the end-to-end scenario: one player, one match *)
Definition scenario_players : list row :=
  [ ["L.Messi"; "Lionel Messi"; "ST"; "93"; "Barcelona"; "2017/2018"] ].

Definition scenario_lineups : list row :=
  [ ["Barcelona"; "Real Madrid"; "3-1"; "12 May 2018";
     "L.Messi"; "H2"; "H3"; "H4"; "H5"; "H6"; "H7"; "H8"; "H9"; "H10"; "H11";
     "A1"; "A2"; "A3"; "A4"; "A5"; "A6"; "A7"; "A8"; "A9"; "A10"; "A11"] ].

(* ---------------------------------------------------------------- *)
(** *** readCSV, collectPlayers, collectLineups *)

Definition newline : ascii := "010"%char.

(** [re.sub("\n", "", row)] *)
Fixpoint remove_newlines (row : string) : string :=
  match row with
  | EmptyString => EmptyString
  | String c rest =>
      if Ascii.eqb c newline then remove_newlines rest
      else String c (remove_newlines rest)
  end.

(** [formatted_row.split(",")]: the fields between the commas; a string
    without comma, the empty one included, is one field. *)
Fixpoint split_commas (s : string) : list string :=
  match s with
  | EmptyString => [EmptyString]
  | String c rest =>
      if Ascii.eqb c ","%char then EmptyString :: split_commas rest
      else match split_commas rest with
           | [] => [String c EmptyString]
           | field :: fields => String c field :: fields
           end
  end.

(** The loop of [readCSV] over the lines the opened file yields.  The
    two string operations of the body cannot raise, so every line adds
    an entry. *)
Definition readCSV (lines : list string) : list row :=
  map (fun row => split_commas (remove_newlines row)) lines.

(** [collectPlayers] and [collectLineups]: the rows of the datasets, one
    after the other. *)
Definition collectPlayers (datasets : list (list string)) : list row :=
  fold_left (fun player_values dataset => player_values ++ readCSV dataset)
            datasets [].

Definition collectLineups (datasets : list (list string)) : list row :=
  fold_left (fun lineup_values_ dataset => lineup_values_ ++ readCSV dataset)
            datasets [].

(** [",".join(fields)] *)
Fixpoint join_commas (fields : list string) : string :=
  match fields with
  | [] => EmptyString
  | [field] => field
  | field :: rest => (field ++ "," ++ join_commas rest)%string
  end.

(** A field holds neither a comma nor a newline. *)
Fixpoint plain_field (field : string) : bool :=
  match field with
  | EmptyString => true
  | String c rest =>
      negb (Ascii.eqb c ","%char) && negb (Ascii.eqb c newline)
      && plain_field rest
  end.

(** Number of commas of a line *)
Fixpoint count_commas (s : string) : nat :=
  match s with
  | EmptyString => 0
  | String c rest =>
      (if Ascii.eqb c ","%char then 1 else 0) + count_commas rest
  end.

(** Slots the containment pass leaves unresolved although their name
    was resolved in another slot of the side: the name is dropped from
    the left-over list with the resolved copy, so these slots get no
    value at all. *)
Definition dropped_slots (names : list string) (team : pool) : list string :=
  filter (fun n => str_in n (resolved_names (slot_outcomes names team)))
         (unresolved_names (slot_outcomes names team)).

(** The [Clubs] rows of a key table, in its iteration order *)
Definition club_rows (club_ids : club_ids_t) : list ClubRow :=
  map (fun item : string * string * nat =>
         mkClubRow (snd item) (snd (fst item)) (fst (fst item)))
      (PyDict.items club_ids).

(** A store with [rs] appended to its [Clubs] table *)
Definition add_clubs (rs : list ClubRow) (s : Store) : Store :=
  mkStore (Players s) (Clubs s ++ rs) (Matches s) (ClubMatch s) (Lineups s).

(** The season partition of a list of player rows ([collectClubs] from
    the empty map) and the key table [assignClubIDs] makes of it *)
Definition partition_of (rows : list row) : existing_clubs :=
  map (fun s => (s, first_seen (clubs_of_season s rows)))
      (first_seen (map season_of rows)).

Definition club_ids_of (rows : list row) : club_ids_t :=
  assignClubIDs (partition_of rows).




(** The rows of one fully ingested match: the match row, its two
    club-match rows and its lineup row *)
Definition add_unit (u : MatchRow * list nat) (s : Store) : Store :=
  add_lineup (snd u)
    (add_clubmatch (away_clubID (fst u), matchID (fst u))
       (add_clubmatch (home_clubID (fst u), matchID (fst u))
          (add_match (fst u) s))).

Definition add_units (us : list (MatchRow * list nat)) (s : Store) : Store :=
  fold_left (fun s' u => add_unit u s') us s.

(** The rows of a unit carry the key [id]; the lineup row has its 23
    values. *)
Definition unit_of (id : nat) (u : MatchRow * list nat) : Prop :=
  matchID (fst u) = id /\ lineupID (fst u) = id
  /\ hd_error (snd u) = Some id /\ List.length (snd u) = 23.


(** A lineup row written with the short names of the sample players *)
Definition scenario_lineups_row : row :=
  ["Barcelona"; "Real Madrid"; "3-1"; "12 May 2018";
   "L. Messi"; "H2"; "H3"; "H4"; "H5"; "H6"; "H7"; "H8"; "H9"; "H10"; "H11";
   "S. Ramos"; "A2"; "A3"; "A4"; "A5"; "A6"; "A7"; "A8"; "A9"; "A10"; "A11"].

(* ---------------------------------------------------------------- *)
(** ** DatabaseSelector *)

(** The queries read the persisted store.  [fetchSelection] returns
    every selected row. *)
Definition fetchSelection (A : Type) (selection : list A) : list A :=
  selection.

(** [fetchFirstSelection] iterates [cursor.fetchone()], which is [None]
    when the query selected nothing: the call then raises [TypeError],
    here [None]. *)
Definition fetchFirstSelection (A : Type) (selection : list A) : option A :=
  hd_error selection.

(** [SELECT club_name, clubID FROM Clubs WHERE club_season = ?] *)
Definition selectClubNames (db : Store) (season : string)
  : list (string * nat) :=
  fetchSelection
    (map (fun c => (club_name c, clubID c))
         (filter (fun c => String.eqb (club_season c) season) (Clubs db))).

(** [SELECT player_name FROM Players WHERE clubID = ?]: rows of one
    column. *)
Definition selectPlayersFromClub (db : Store) (clubID_ : nat) : list string :=
  fetchSelection
    (map player_name
         (filter (fun p => player_clubID p =? clubID_) (Players db))).

(** [SELECT * FROM Players WHERE player_name = ? AND player_season = ?].
    The GUI passes [None] for a box left unselected; the comparison with
    NULL selects no row. *)
Definition selectPlayerData (db : Store) (player_name_ : option string)
           (player_season_ : string) : list PlayerRow :=
  fetchSelection
    (filter (fun p =>
               match player_name_ with
               | Some n => String.eqb (player_name p) n
                           && String.eqb (player_season p) player_season_
               | None => false
               end)
            (Players db)).

(** [SELECT * FROM Players WHERE playerID = ?] *)
Definition selectPlayer (db : Store) (playerID_ : nat) : option PlayerRow :=
  fetchFirstSelection
    (filter (fun p => playerID p =? playerID_) (Players db)).

(** The home and the away columns of a [Lineups] row: the eleven values
    after the key, and the eleven after those. *)
Definition home_columns (l : list nat) : list nat := firstn 11 (skipn 1 l).
Definition away_columns (l : list nat) : list nat := firstn 11 (skipn 12 l).

Definition lineups_with (db : Store) (lineupid : nat) : list (list nat) :=
  filter (fun l => nth 0 l 0 =? lineupid) (Lineups db).

(** [selectLineup]: two queries for the same key, each read with
    [fetchFirstSelection]. *)
Definition selectLineup (db : Store) (lineupid : nat)
  : option (list nat * list nat) :=
  match fetchFirstSelection (map home_columns (lineups_with db lineupid)) with
  | None => None
  | Some home_lineup =>
      match fetchFirstSelection
              (map away_columns (lineups_with db lineupid)) with
      | None => None
      | Some away_lineup => Some (home_lineup, away_lineup)
      end
  end.

(** [SELECT * FROM Matches] *)
Definition getMatches (db : Store) : list MatchRow :=
  fetchSelection (Matches db).

(** *** buildSets: the players of a stored lineup *)

(** One side's step of the loop over [zip(home_ids, away_ids)]: the key
    0 is skipped, any other key is looked up with [selectPlayer] and the
    player added to the team. *)
Definition compose_player (db : Store) (id : nat) (team : list PlayerRow)
  : option (list PlayerRow) :=
  if negb (id =? 0)
  then match selectPlayer db id with
       | Some player => Some (team ++ [player])
       | None => None
       end
  else Some team.

Fixpoint compose_teams (db : Store) (ids : list (nat * nat))
         (home_team away_team : list PlayerRow)
  : option (list PlayerRow * list PlayerRow) :=
  match ids with
  | [] => Some (home_team, away_team)
  | (h_id, a_id) :: rest =>
      match compose_player db h_id home_team with
      | None => None
      | Some home_team' =>
          match compose_player db a_id away_team with
          | None => None
          | Some away_team' => compose_teams db rest home_team' away_team'
          end
      end
  end.

(** Lines 245 to 255 of [buildSets] for one row of [getMatches]: the
    lineup [match[5]] is selected and the two teams are composed. *)
Definition match_teams (db : Store) (match_ : MatchRow)
  : option (list PlayerRow * list PlayerRow) :=
  match selectLineup db (lineupID match_) with
  | None => None
  | Some (home_ids, away_ids) =>
      compose_teams db (combine home_ids away_ids) [] []
  end.

(** The keys of a lineup side that stand for a player *)
Definition known_ids (ids : list nat) : list nat :=
  filter (fun id => negb (id =? 0)) ids.


(* ---------------------------------------------------------------- *)
(** ** The club and player entry of the GUI *)

(** What [clubButton] does with the two club boxes: a warning box, or
    the next frame with the two club keys and the player names offered
    for either club (before sorting). *)
Inductive club_entry : Type :=
| ClubWarning (message : string)
| ClubsChosen (homeID awayID : nat) (home_team away_team : list string).

(** [[club[1] for club in self._clubs if club[0] == name][0]] *)
Definition first_club_key (clubs : list (string * nat)) (name : string)
  : result nat :=
  getitem (map snd (filter (fun club => String.eqb (fst club) name) clubs)) 0.

(** [clubButton].  A box left on its title line reads [None]. *)
Definition clubButton (db : Store) (clubs : list (string * nat))
           (home_name away_name : option string) : result club_entry :=
  match home_name, away_name with
  | Some home, Some away =>
      if String.eqb home away
      then Ok (ClubWarning "Ensure the Home and Away Team are different!")
      else
        homeID <- first_club_key clubs home ;;
        awayID <- first_club_key clubs away ;;
        Ok (ClubsChosen homeID awayID
                        (selectPlayersFromClub db homeID)
                        (selectPlayersFromClub db awayID))
  | _, _ =>
      Ok (ClubWarning
            "Ensure both a Home Team and an Away Team has been entered!")
  end.

(** Short names of the player rows of one club and season, in row order *)
Definition short_names_of (club season : string) (rows : list row)
  : list string :=
  map (fun player => nth 0 player EmptyString)
      (filter (fun player => pair_eqb (season_of player, club_of player)
                                      (season, club))
              rows).

(** The eleven player boxes of a side, read in order *)
Definition player_boxes (box : nat -> option string) : list (option string) :=
  map box (seq 1 11).

(** [[player for player in players if player != "unlisted player"]] *)
Definition listed (players : list (option string)) : list (option string) :=
  filter (fun player =>
            match player with
            | Some name => negb (String.eqb name "unlisted player")
            | None => true
            end)
         players.

Definition entry_eq_dec (a b : option string) : {a = b} + {a <> b}.
Proof. decide equality. apply string_dec. Defined.

(** [len(set(players))] *)
Definition len_set (players : list (option string)) : nat :=
  List.length (nodup entry_eq_dec players).

Definition duplication_flag (home_players away_players : list (option string))
  : bool :=
  (len_set (listed home_players) <? List.length (listed home_players))
  || (len_set (listed away_players) <? List.length (listed away_players)).

Definition not_enough_flag (home_players away_players : list (option string))
  : bool :=
  (List.length home_players <? 11) || (List.length away_players <? 11).

(** [playerButton] up to its branch: [true] when the warning box is
    shown, [false] when the entries go on to the controller. *)
Definition playerButton_warns (home_box away_box : nat -> option string)
  : bool :=
  let home_players := player_boxes home_box in
  let away_players := player_boxes away_box in
  duplication_flag home_players away_players
  || not_enough_flag home_players away_players.


(* ---------------------------------------------------------------- *)
(** ** player.py: teams, metrics and feature vectors *)









(** The value of a decimal digit.  Among the characters of this model
    (code points below 256) the class [\d] holds "0" to "9" only. *)
Definition digit_value (c : ascii) : option nat :=
  let n := nat_of_ascii c in
  if (48 <=? n) && (n <=? 57) then Some (n - 48) else None.


(** [int(re.search('\A\d', score).group(0))]: the first character, if a
    digit.  Without match [re.search] returns [None] and [.group]
    raises [AttributeError]: [None] here. *)
Definition home_score_of (score_ : string) : option nat :=
  match score_ with
  | String c _ => digit_value c
  | EmptyString => None
  end.

(** [int(re.search('\d\Z', score).group(0))]: the last character, if a
    digit. *)
Fixpoint away_score_of (score_ : string) : option nat :=
  match score_ with
  | EmptyString => None
  | String c EmptyString => digit_value c
  | String _ rest => away_score_of rest
  end.

(** The points one recent match adds to [total_points] *)
Definition points_of (teamID_ : nat) (r_match : nat * string * nat)
  : option nat :=
  match home_score_of (snd (fst r_match)) with
  | None => None
  | Some home_score =>
      match away_score_of (snd (fst r_match)) with
      | None => None
      | Some away_score =>
          if home_score =? away_score then Some 1
          else if (away_score <? home_score) && (fst (fst r_match) =? teamID_)
               then Some 3
          else if (home_score <? away_score) && (snd r_match =? teamID_)
               then Some 3
          else Some 0
      end
  end.

Fixpoint total_points_loop (teamID_ : nat)
         (recent_matches : list (nat * string * nat)) (total_points : nat)
  : option nat :=
  match recent_matches with
  | [] => Some total_points
  | r_match :: rest =>
      match points_of teamID_ r_match with
      | None => None
      | Some points => total_points_loop teamID_ rest (total_points + points)
      end
  end.









(** The position of a slice bound [k] in a list of length [len]:
    a negative bound counts from the end, and bounds are clipped. *)
Definition slice_bound (len : nat) (k : Z) : nat :=
  if (k <? 0)%Z then Z.to_nat (Z.of_nat len + k)
  else Nat.min (Z.to_nat k) len.

(** [splitTrainingTesting].  [round_product len ratio] stands for
    [round(len * ratio)] on floats; it is [None] when [round] raises
    (a product that is not finite). *)
Definition splitTrainingTesting (A ratio : Type)
           (round_product : nat -> ratio -> option Z)
           (dataset : list A) (partition_ratio : ratio)
  : option (list (list A)) :=
  match round_product (List.length dataset) partition_ratio with
  | None => None
  | Some training_size =>
      let training_set :=
        firstn (slice_bound (List.length dataset) training_size) dataset in
      let testing_set :=
        skipn (slice_bound (List.length dataset) training_size) dataset in
      Some [training_set; testing_set]
  end.





(* ------------------------------------------------------------------ *)
(** * Properties *)

Set Default Proof Using "Type".

(** ** Dictionaries *)

Section DictFacts.
Variables K V : Type.
Variable eqb : K -> K -> bool.
Hypothesis eqb_eq : forall a b, eqb a b = true <-> a = b.

Lemma eqb_refl' (k : K) : eqb k k = true.
Proof using eqb_eq. now apply eqb_eq. Qed.

Lemma eqb_neq' (a b : K) : a <> b -> eqb a b = false.
Proof using eqb_eq.
  intro H. destruct (eqb a b) eqn:E; [|reflexivity].
  apply eqb_eq in E. contradiction.
Qed.

Lemma get_set_same (k : K) (v : V) (d : PyDict.t K V) :
  PyDict.get eqb k (PyDict.set eqb k v d) = Some v.
Proof using eqb_eq.
  induction d as [|[k' v'] d IH]; simpl.
  - now rewrite eqb_refl'.
  - destruct (eqb k k') eqn:E; simpl; rewrite E; auto.
Qed.

Lemma get_set_other (k k' : K) (v : V) (d : PyDict.t K V) :
  k <> k' -> PyDict.get eqb k' (PyDict.set eqb k v d) = PyDict.get eqb k' d.
Proof using eqb_eq.
  intro Hne. induction d as [|[k0 v0] d IH]; simpl.
  - rewrite eqb_neq'; auto.
  - destruct (eqb k k0) eqn:E; simpl.
    + apply eqb_eq in E. subst k0. rewrite eqb_neq'; auto.
    + now rewrite IH.
Qed.

Lemma get_None_keys (k : K) (d : PyDict.t K V) :
  PyDict.get eqb k d = None <-> ~ In k (PyDict.keys d).
Proof using eqb_eq.
  induction d as [|[k' v'] d IH]; simpl.
  - tauto.
  - destruct (eqb k k') eqn:E.
    + apply eqb_eq in E. subst. split; [discriminate | tauto].
    + rewrite IH. split.
      * intros H [H1 | H1]; [|tauto].
        subst. rewrite eqb_refl' in E. discriminate.
      * tauto.
Qed.

Lemma get_Some_keys (k : K) (v : V) (d : PyDict.t K V) :
  PyDict.get eqb k d = Some v -> In k (PyDict.keys d).
Proof using eqb_eq.
  induction d as [|[k' v'] d IH]; simpl; [discriminate|].
  destruct (eqb k k') eqn:E.
  - apply eqb_eq in E. auto.
  - intro H. right. now apply IH.
Qed.

Lemma set_absent (k : K) (v : V) (d : PyDict.t K V) :
  PyDict.get eqb k d = None -> PyDict.set eqb k v d = d ++ [(k, v)].
Proof.
  induction d as [|[k' v'] d IH]; simpl; auto.
  destruct (eqb k k'); [discriminate|].
  intro H. now rewrite IH.
Qed.

Lemma keys_set_present (k : K) (v v0 : V) (d : PyDict.t K V) :
  PyDict.get eqb k d = Some v0 ->
  PyDict.keys (PyDict.set eqb k v d) = PyDict.keys d.
Proof.
  unfold PyDict.keys.
  induction d as [|[k' v'] d IH]; simpl; [discriminate|].
  destruct (eqb k k') eqn:E; simpl; auto.
  intro H. now rewrite IH.
Qed.
End DictFacts.

(** ** Lists of strings *)

Lemma str_in_In (x : string) (xs : list string) :
  str_in x xs = true <-> In x xs.
Proof.
  unfold str_in. rewrite existsb_exists. split.
  - intros [y [Hy E]]. apply String.eqb_eq in E. now subst.
  - intro H. exists x. split; [assumption | apply String.eqb_refl].
Qed.

Lemma str_in_false (x : string) (xs : list string) :
  str_in x xs = false <-> ~ In x xs.
Proof.
  rewrite <- str_in_In. destruct (str_in x xs); split; intro H;
    try reflexivity; try discriminate; try congruence.
Qed.

Lemma filter_swap (A : Type) (p q : A -> bool) (l : list A) :
  filter p (filter q l) = filter q (filter p l).
Proof.
  induction l as [|a l IH]; simpl; auto.
  destruct (p a) eqn:Hp, (q a) eqn:Hq; simpl;
    rewrite ?Hp, ?Hq, IH; reflexivity.
Qed.

Lemma filter_both (A : Type) (p q : A -> bool) (l : list A) :
  filter (fun x => p x && q x) l = filter q (filter p l).
Proof.
  induction l as [|a l IH]; simpl; auto.
  destruct (p a) eqn:Hp; simpl; [destruct (q a) eqn:Hq|];
    rewrite ?IH; reflexivity.
Qed.

Lemma filter_id (A : Type) (p : A -> bool) (l : list A) :
  (forall x, In x l -> p x = true) -> filter p l = l.
Proof.
  induction l as [|a l IH]; simpl; intro H; auto.
  rewrite (H a (or_introl eq_refl)), IH; auto.
Qed.

Lemma filter_differs_id (x : string) (l : list string) :
  ~ In x l -> filter (fun y => negb (String.eqb y x)) l = l.
Proof.
  intro H. apply filter_id. intros y Hy.
  destruct (String.eqb_spec y x); [subst; contradiction | reflexivity].
Qed.

Lemma first_seen_In (x : string) (xs : list string) :
  In x (first_seen xs) <-> In x xs.
Proof.
  clear levenshtein_distance strptime word_tokenize.
  induction xs as [|a xs IH]; simpl; [tauto|].
  rewrite filter_In, IH.
  destruct (String.eqb_spec x a); subst; simpl; intuition congruence.
Qed.

Lemma first_seen_NoDup (xs : list string) : NoDup (first_seen xs).
Proof.
  induction xs as [|a xs IH]; simpl; constructor.
  - rewrite filter_In, String.eqb_refl. simpl. intros [_ H]. discriminate.
  - now apply NoDup_filter.
Qed.

Lemma first_seen_filter (p : string -> bool) (xs : list string) :
  filter p (first_seen xs) = first_seen (filter p xs).
Proof.
  induction xs as [|a xs IH]; simpl; auto.
  destruct (p a) eqn:Hp; simpl.
  - now rewrite filter_swap, IH.
  - rewrite filter_swap, IH. apply filter_differs_id.
    rewrite first_seen_In, filter_In. intros [_ H]. congruence.
Qed.

Lemma fold_add_once (cs l : list string) :
  fold_left add_once cs l
  = l ++ first_seen (filter (fun c => negb (str_in c l)) cs).
Proof.
  revert l. induction cs as [|c cs IH]; intro l; simpl.
  - now rewrite app_nil_r.
  - unfold add_once at 2. destruct (str_in c l) eqn:E; simpl.
    + apply IH.
    + rewrite IH, <- app_assoc. simpl. do 2 f_equal.
      rewrite first_seen_filter, <- filter_both. f_equal.
      apply filter_ext. intro y. unfold str_in.
      rewrite existsb_app. simpl.
      now rewrite orb_false_r, negb_orb.
Qed.

Lemma fold_add_once_nil (cs : list string) :
  fold_left add_once cs [] = first_seen cs.
Proof.
  rewrite fold_add_once. simpl. f_equal. now apply filter_id.
Qed.

Lemma getitem_nth (A : Type) (l : list A) (i : nat) (d : A) :
  i < List.length l -> getitem l i = Ok (nth i l d).
Proof.
  intro H. unfold getitem.
  destruct (nth_error l i) eqn:E.
  - now rewrite (nth_error_nth l i d E).
  - apply nth_error_None in E. lia.
Qed.

(** ** Season partitioner *)

Lemma collectClubs_row_ok (existing : existing_clubs) (player : row) :
  well_formed_player player ->
  exists existing',
    collectClubs_row existing player = Ok existing'
    /\ PyDict.keys existing'
       = add_once (PyDict.keys existing) (season_of player)
    /\ PyDict.get String.eqb (season_of player) existing'
       = Some (add_once
                 match PyDict.get String.eqb (season_of player) existing with
                 | Some l => l
                 | None => []
                 end (club_of player))
    /\ (forall s, s <> season_of player ->
          PyDict.get String.eqb s existing'
          = PyDict.get String.eqb s existing).
Proof.
  intro Hwf. unfold well_formed_player in Hwf. unfold collectClubs_row.
  rewrite (getitem_nth player EmptyString) by lia.
  rewrite (getitem_nth player EmptyString) by lia.
  simpl. fold (club_of player). fold (season_of player).
  set (c := club_of player). set (s0 := season_of player).
  destruct (PyDict.get String.eqb s0 existing) as [clubs|] eqn:G.
  - assert (Hk : add_once (PyDict.keys existing) s0 = PyDict.keys existing).
    { unfold add_once.
      apply (get_Some_keys _ String.eqb_eq) in G.
      apply str_in_In in G. now rewrite G. }
    unfold add_once at 2. destruct (str_in c clubs) eqn:E; simpl.
    + exists existing. repeat split; auto.
    + eexists. split; [reflexivity|]. repeat split.
      * rewrite Hk. now apply keys_set_present with (v0 := clubs).
      * apply (get_set_same _ String.eqb_eq).
      * intros s Hs. apply (get_set_other _ String.eqb_eq). congruence.
  - eexists. split; [reflexivity|]. repeat split.
    + rewrite (set_absent _ _ _ _ G).
      apply (get_None_keys _ String.eqb_eq) in G.
      apply str_in_false in G. unfold add_once. rewrite G.
      unfold PyDict.keys. now rewrite map_app.
    + apply (get_set_same _ String.eqb_eq).
    + intros s Hs. apply (get_set_other _ String.eqb_eq). congruence.
Qed.

Lemma collectClubs_from (rows : list row) :
  Forall well_formed_player rows ->
  forall existing : existing_clubs,
  exists existing',
    collectClubs rows existing = Ok existing'
    /\ PyDict.keys existing'
       = fold_left add_once (map season_of rows) (PyDict.keys existing)
    /\ (forall s,
          PyDict.get String.eqb s existing'
          = match PyDict.get String.eqb s existing with
            | Some l => Some (fold_left add_once (clubs_of_season s rows) l)
            | None =>
                if str_in s (map season_of rows)
                then Some (fold_left add_once (clubs_of_season s rows) [])
                else None
            end).
Proof.
  induction 1 as [|r rows Hr Hrows IH]; intro existing.
  - exists existing. simpl. repeat split; auto.
    intro s. now destruct (PyDict.get String.eqb s existing).
  - destruct (collectClubs_row_ok existing Hr) as (e1 & E1 & K1 & G1 & O1).
    destruct (IH e1) as (e2 & E2 & K2 & G2).
    exists e2. simpl. rewrite E1. simpl. split; [exact E2|].
    split; [now rewrite K2, K1|].
    intro s. rewrite G2. unfold clubs_of_season. simpl.
    destruct (String.eqb_spec (season_of r) s) as [Heq | Hne].
    + subst s. rewrite G1, String.eqb_refl. simpl.
      now destruct (PyDict.get String.eqb (season_of r) existing).
    + rewrite O1 by congruence.
      destruct (String.eqb_spec s (season_of r)); [congruence|].
      reflexivity.
Qed.

(** ** C10 *)

(** C10. On well-formed player rows [collectClubs] returns a map whose
    seasons are the seasons of the rows in first-seen order; a season of
    the rows is mapped to the distinct club names of its rows in
    first-seen order, without duplicates; a season not in the rows has
    no entry; and the club of every row is listed under that row's
    season, whatever other seasons the same name occurs in. *)
Theorem collectClubs_first_seen (rows : list row)
        (Hwf : Forall well_formed_player rows) :
  exists existing,
    collectClubs rows [] = Ok existing
    /\ PyDict.keys existing = first_seen (map season_of rows)
    /\ (forall season, In season (map season_of rows) ->
          PyDict.get String.eqb season existing
          = Some (first_seen (clubs_of_season season rows))
          /\ NoDup (first_seen (clubs_of_season season rows)))
    /\ (forall season, ~ In season (map season_of rows) ->
          PyDict.get String.eqb season existing = None)
    /\ (forall player, In player rows ->
          exists clubs,
            PyDict.get String.eqb (season_of player) existing = Some clubs
            /\ In (club_of player) clubs).
Proof.
  destruct (collectClubs_from Hwf []) as (e & E & K & G).
  exists e. split; [exact E|]. split.
  { rewrite K. apply fold_add_once_nil. }
  assert (Hin : forall season, In season (map season_of rows) ->
            PyDict.get String.eqb season e
            = Some (first_seen (clubs_of_season season rows))).
  { intros s Hs. rewrite G. simpl.
    apply str_in_In in Hs. rewrite Hs. now rewrite fold_add_once_nil. }
  split; [|split].
  - intros s Hs. split; [now apply Hin | apply first_seen_NoDup].
  - intros s Hs. rewrite G. simpl.
    apply str_in_false in Hs. now rewrite Hs.
  - intros player Hp. eexists. split.
    + apply Hin. now apply in_map.
    + apply first_seen_In. unfold clubs_of_season.
      apply in_map. apply filter_In. split; [assumption|].
      apply String.eqb_refl.
Qed.

(** ** Surrogate key assigner *)

Lemma pair_eqb_eq (a b : string * string) : pair_eqb a b = true <-> a = b.
Proof.
  destruct a as [a1 a2], b as [b1 b2]. unfold pair_eqb. simpl.
  rewrite andb_true_iff, !String.eqb_eq. split.
  - intros [-> ->]. reflexivity.
  - intro H. inversion H. auto.
Qed.

Lemma get_In_NoDup (K V : Type) (eqb : K -> K -> bool)
      (eqb_eq : forall a b, eqb a b = true <-> a = b)
      (d : PyDict.t K V) (k : K) (v : V) :
  NoDup (PyDict.keys d) -> In (k, v) d -> PyDict.get eqb k d = Some v.
Proof.
  induction d as [|[k' v'] d IH]; simpl; intros Hnd Hin; [contradiction|].
  inversion Hnd as [|? ? Hnotin Hnd']; subst.
  destruct Hin as [Heq | Hin].
  - inversion Heq; subst. now rewrite (proj2 (eqb_eq k k) eq_refl).
  - destruct (eqb k k') eqn:E.
    + apply eqb_eq in E. subst k'. exfalso. apply Hnotin.
      change k with (fst (k, v)). now apply in_map.
    + now apply IH.
Qed.

Lemma get_Some_In (K V : Type) (eqb : K -> K -> bool)
      (eqb_eq : forall a b, eqb a b = true <-> a = b)
      (d : PyDict.t K V) (k : K) (v : V) :
  PyDict.get eqb k d = Some v -> In (k, v) d.
Proof.
  induction d as [|[k' v'] d IH]; simpl; [discriminate|].
  destruct (eqb k k') eqn:E.
  - apply eqb_eq in E. intro H. inversion H. subst. now left.
  - intro H. right. now apply IH.
Qed.

Lemma dict_by_keys (V : Type) (d : PyDict.t string V) (f : string -> V) :
  NoDup (PyDict.keys d) ->
  (forall k, In k (PyDict.keys d) -> PyDict.get String.eqb k d = Some (f k)) ->
  d = map (fun k => (k, f k)) (PyDict.keys d).
Proof.
  induction d as [|[k v] d IH]; simpl; intros Hnd Hget; [reflexivity|].
  inversion Hnd as [|? ? Hnotin Hnd']; subst.
  assert (Hk := Hget k (or_introl eq_refl)). simpl in Hk.
  rewrite String.eqb_refl in Hk. inversion Hk; subst. f_equal.
  apply IH; [assumption|].
  intros k' Hk'. specialize (Hget k' (or_intror Hk')). simpl in Hget.
  destruct (String.eqb_spec k' k); [subst; contradiction | assumption].
Qed.

(** The nested loops of [assignClubIDs] visit the (season, club) pairs
    in the order of [season_club_pairs]. *)
Lemma assign_season_pairs (existing : existing_clubs) (st : club_ids_t * nat) :
  fold_left assign_season existing st
  = fold_left (fun st' (sc : string * string) =>
                 assign_club (fst sc) st' (snd sc))
              (season_club_pairs existing) st.
Proof.
  revert st. induction existing as [|[season clubs] existing IH]; intro st.
  - reflexivity.
  - simpl. rewrite fold_left_app, IH. f_equal.
    clear IH. revert st. induction clubs as [|c clubs IHc]; intro st; simpl.
    + reflexivity.
    + apply IHc.
Qed.

Lemma assign_fresh (pairs : list (string * string)) :
  forall (club_ids : club_ids_t) (current_id : nat),
    NoDup (PyDict.keys club_ids ++ pairs) ->
    fold_left (fun st' (sc : string * string) =>
                 assign_club (fst sc) st' (snd sc))
              pairs (club_ids, current_id)
    = (club_ids ++ combine pairs (seq current_id (List.length pairs)),
       current_id + List.length pairs).
Proof.
  induction pairs as [|[s c] pairs IH]; intros club_ids current_id Hnd; simpl.
  - now rewrite app_nil_r, Nat.add_0_r.
  - assert (Hfresh : PyDict.get pair_eqb (s, c) club_ids = None).
    { apply (get_None_keys _ pair_eqb_eq).
      intro Hin. apply NoDup_remove_2 in Hnd. apply Hnd.
      apply in_or_app. now left. }
    rewrite (set_absent _ _ _ _ Hfresh), IH.
    + rewrite <- app_assoc. simpl. rewrite Nat.add_1_r. f_equal. lia.
    + unfold PyDict.keys. rewrite map_app. simpl.
      rewrite <- app_assoc. exact Hnd.
Qed.

Lemma NoDup_map_pair (s : string) (l : list string) :
  NoDup l -> NoDup (map (pair s) l).
Proof.
  induction 1 as [|c l Hc Hl IH]; simpl; constructor; auto.
  rewrite in_map_iff. intros [c' [E Hin]]. inversion E. now subst.
Qed.

Lemma season_club_pairs_NoDup (existing : existing_clubs) :
  NoDup (PyDict.keys existing) ->
  (forall s l, In (s, l) existing -> NoDup l) ->
  NoDup (season_club_pairs existing).
Proof.
  induction existing as [|[s l] existing IH]; simpl; intros Hk Hl.
  - constructor.
  - inversion Hk as [|? ? Hnotin Hk']; subst.
    apply NoDup_app.
    + apply NoDup_map_pair. apply (Hl s l). now left.
    + apply IH; [assumption|]. intros s' l' Hin. apply (Hl s' l'). now right.
    + intros [s' c'] H1 H2. apply in_map_iff in H1.
      destruct H1 as [c [E _]]. inversion E; subst.
      apply in_flat_map in H2. destruct H2 as [[s2 l2] [Hin2 H2]].
      simpl in H2. apply in_map_iff in H2. destruct H2 as [c2 [E2 _]].
      inversion E2; subst. apply Hnotin.
      change s' with (fst (s', l2)). now apply in_map.
Qed.

Lemma assignClubIDs_consecutive (existing : existing_clubs) :
  NoDup (season_club_pairs existing) ->
  PyDict.items (assignClubIDs existing)
  = combine (season_club_pairs existing)
            (seq 1 (List.length (season_club_pairs existing))).
Proof.
  intro Hnd. unfold assignClubIDs, PyDict.items.
  rewrite assign_season_pairs, assign_fresh; [reflexivity | exact Hnd].
Qed.

(** Closed form of the season partition of well-formed rows. *)
Lemma collectClubs_closed_form (rows : list row) :
  Forall well_formed_player rows ->
  collectClubs rows []
  = Ok (map (fun s => (s, first_seen (clubs_of_season s rows)))
            (first_seen (map season_of rows))).
Proof.
  intro Hwf.
  destruct (collectClubs_from Hwf []) as (e & E & K & G).
  rewrite E. f_equal. simpl in K. rewrite fold_add_once_nil in K.
  rewrite <- K. apply dict_by_keys.
  - rewrite K. apply first_seen_NoDup.
  - intros k Hk. rewrite G. simpl. rewrite K, first_seen_In in Hk.
    apply str_in_In in Hk. now rewrite Hk, fold_add_once_nil.
Qed.

Lemma partition_pairs_NoDup (rows : list row) :
  NoDup (season_club_pairs
           (map (fun s => (s, first_seen (clubs_of_season s rows)))
                (first_seen (map season_of rows)))).
Proof.
  apply season_club_pairs_NoDup.
  - unfold PyDict.keys. rewrite map_map. simpl. rewrite map_id.
    apply first_seen_NoDup.
  - intros s l Hin. apply in_map_iff in Hin.
    destruct Hin as [s' [E _]]. inversion E; subst.
    apply first_seen_NoDup.
Qed.

Lemma partition_pairs_In (rows : list row) (player : row) :
  In player rows ->
  In (season_of player, club_of player)
     (season_club_pairs
        (map (fun s => (s, first_seen (clubs_of_season s rows)))
             (first_seen (map season_of rows)))).
Proof.
  intro Hin. unfold season_club_pairs. apply in_flat_map.
  exists (season_of player,
          first_seen (clubs_of_season (season_of player) rows)).
  split.
  - apply in_map_iff. exists (season_of player). split; [reflexivity|].
    apply first_seen_In. now apply in_map.
  - simpl. apply in_map. apply first_seen_In. unfold clubs_of_season.
    apply in_map. apply filter_In. split; [assumption|].
    apply String.eqb_refl.
Qed.

Lemma insertPlayers_row_ok (club_ids : club_ids_t) (player_id id : nat)
      (name_ids : name_ids_t) (player : row) (conn : Conn) :
  well_formed_player player ->
  PyDict.get pair_eqb (season_of player, club_of player) club_ids = Some id ->
  insertPlayers_row club_ids player_id name_ids player conn
  = (Ok (PyDict.set pair_eqb (club_of player, season_of player)
           (match PyDict.get pair_eqb (club_of player, season_of player)
                             name_ids with
            | Some known => known
            | None => []
            end ++ [(player_id, nth 0 player EmptyString,
                     nth 1 player EmptyString)])
           name_ids),
     mkConn (committed conn)
            (add_player
               (mkPlayerRow player_id
                  (nth 0 player EmptyString) (nth 1 player EmptyString)
                  (nth 2 player EmptyString) (nth 3 player EmptyString)
                  id (season_of player))
               (working conn))).
Proof.
  intros Hwf Hid. unfold well_formed_player in Hwf.
  unfold insertPlayers_row, bindM, lift, PyDict.getitem.
  rewrite !(getitem_nth player EmptyString) by lia.
  fold (club_of player). fold (season_of player). rewrite Hid.
  unfold execute, ret.
  now destruct (PyDict.get pair_eqb (club_of player, season_of player) name_ids).
Qed.

Lemma roster_from_cons (player_id : nat) (key : string * string)
      (player : row) (rows : list row) :
  roster_from player_id key (player :: rows)
  = (if pair_eqb (club_of player, season_of player) key
     then [(player_id, nth 0 player EmptyString, nth 1 player EmptyString)]
     else [])
      ++ roster_from (S player_id) key rows.
Proof.
  unfold roster_from. simpl.
  now destruct (pair_eqb (club_of player, season_of player) key).
Qed.

Lemma insertPlayers_loop_ok (club_ids : club_ids_t) (rows : list row) :
  Forall well_formed_player rows ->
  (forall p, In p rows ->
     PyDict.get pair_eqb (season_of p, club_of p) club_ids <> None) ->
  forall (player_id : nat) (name_ids : name_ids_t) (conn : Conn),
  exists name_ids',
    insertPlayers_loop club_ids rows player_id name_ids conn
    = (Ok name_ids',
       mkConn (committed conn)
              (add_players (player_rows club_ids player_id rows)
                           (working conn)))
    /\ forall key,
        PyDict.get pair_eqb key name_ids'
        = match PyDict.get pair_eqb key name_ids with
          | Some l => Some (l ++ roster_from player_id key rows)
          | None => nonempty (roster_from player_id key rows)
          end.
Proof.
  induction 1 as [|r rows Hr Hrows IH]; intros Hids player_id name_ids conn.
  - exists name_ids. simpl. unfold ret, add_players. simpl. split.
    + rewrite app_nil_r. now destruct conn as [c [? ? ? ? ?]].
    + intro key. destruct (PyDict.get pair_eqb key name_ids); simpl;
        [now rewrite app_nil_r | reflexivity].
  - destruct (PyDict.get pair_eqb (season_of r, club_of r) club_ids)
      as [id|] eqn:Hid; [|now elim (Hids r (or_introl eq_refl))].
    simpl. unfold bindM at 1.
    rewrite (insertPlayers_row_ok _ _ _ _ Hr Hid).
    match goal with
    | |- context [insertPlayers_loop _ _ _ ?n ?c] =>
        destruct (IH (fun p Hp => Hids p (or_intror Hp)) (player_id + 1) n c)
          as (n' & E & G)
    end.
    exists n'. split.
    + rewrite E. f_equal. f_equal. unfold add_players, add_player. simpl.
      unfold player_rows. simpl. rewrite Hid, <- app_assoc, Nat.add_1_r.
      reflexivity.
    + intro key. rewrite G, roster_from_cons, Nat.add_1_r.
      destruct (pair_eqb (club_of r, season_of r) key) eqn:Ek.
      * apply pair_eqb_eq in Ek. subst key.
        rewrite (get_set_same _ pair_eqb_eq).
        destruct (PyDict.get pair_eqb (club_of r, season_of r) name_ids);
          simpl; now rewrite <- ?app_assoc.
      * rewrite (get_set_other _ pair_eqb_eq).
        -- reflexivity.
        -- intro Heq. rewrite Heq in Ek.
           rewrite (proj2 (pair_eqb_eq key key) eq_refl) in Ek. discriminate.
Qed.

Lemma keys_combine (A B : Type) (l : list A) (l' : list B) :
  List.length l = List.length l' -> map fst (combine l l') = l.
Proof.
  revert l'. induction l as [|a l IH]; intros [|b l'] H; simpl in *;
    try discriminate; auto.
  f_equal. apply IH. lia.
Qed.

Lemma player_rows_keys (club_ids : club_ids_t) (player_id : nat)
      (rows : list row) :
  map playerID (player_rows club_ids player_id rows)
  = seq player_id (List.length rows).
Proof.
  unfold player_rows. rewrite map_map. simpl.
  apply keys_combine. now rewrite length_seq.
Qed.

(** ** C5 *)

(** C5. On well-formed player rows, [assignClubIDs] numbers the
    (season, club) pairs of the season partition 1, 2, 3, ... in
    season-then-club first-seen order, and [insertPlayers] (run on a
    fresh store) numbers the players 1, 2, 3, ... in row order: both
    mappings, and the [Players] table, are explicit functions of the row
    list, so any two runs on the same rows in the same order agree. *)
Theorem key_assignment_in_first_seen_order (rows : list row)
        (Hwf : Forall well_formed_player rows) :
  let existing :=
    map (fun s => (s, first_seen (clubs_of_season s rows)))
        (first_seen (map season_of rows)) in
  let club_ids := assignClubIDs existing in
  collectClubs rows [] = Ok existing
  /\ PyDict.items club_ids
     = combine (season_club_pairs existing)
               (seq 1 (List.length (season_club_pairs existing)))
  /\ exists name_ids,
      insertPlayers club_ids rows fresh_conn
      = (Ok name_ids,
         mkConn (add_players (player_rows club_ids 1 rows) empty_store)
                (add_players (player_rows club_ids 1 rows) empty_store))
      /\ map playerID (player_rows club_ids 1 rows)
         = seq 1 (List.length rows)
      /\ forall key,
          PyDict.get pair_eqb key name_ids
          = nonempty (roster_from 1 key rows).
Proof.
  intros existing club_ids.
  assert (Hitems : PyDict.items club_ids
                   = combine (season_club_pairs existing)
                       (seq 1 (List.length (season_club_pairs existing)))).
  { apply assignClubIDs_consecutive, partition_pairs_NoDup. }
  split; [now apply collectClubs_closed_form|].
  split; [exact Hitems|].
  assert (Hids : forall p, In p rows ->
            PyDict.get pair_eqb (season_of p, club_of p) club_ids <> None).
  { intros p Hp Hnone. apply (get_None_keys _ pair_eqb_eq) in Hnone.
    apply Hnone. unfold PyDict.keys. unfold PyDict.items in Hitems.
    rewrite Hitems, keys_combine by now rewrite length_seq.
    now apply partition_pairs_In. }
  destruct (insertPlayers_loop_ok club_ids Hwf Hids 1 [] fresh_conn)
    as (n & E & G).
  exists n. unfold insertPlayers, bindM. rewrite E. simpl.
  split; [reflexivity|]. split; [apply player_rows_keys|].
  intro key. now rewrite G.
Qed.

(** ** Dates and seasons *)

Lemma date_ltb_spec (d1 d2 : date) :
  date_ltb d1 d2 = true
  <-> year d1 < year d2
      \/ (year d1 = year d2
          /\ (month d1 < month d2
              \/ (month d1 = month d2 /\ day d1 < day d2))).
Proof.
  unfold date_ltb.
  rewrite !orb_true_iff, !andb_true_iff, !orb_true_iff, !andb_true_iff,
    !Nat.ltb_lt, !Nat.eqb_eq.
  reflexivity.
Qed.

Lemma date_ltb_false (d1 d2 : date) :
  date_ltb d1 d2 = false
  <-> year d2 < year d1
      \/ (year d1 = year d2
          /\ (month d2 < month d1
              \/ (month d1 = month d2 /\ day d2 <= day d1))).
Proof.
  rewrite <- not_true_iff_false, date_ltb_spec. lia.
Qed.

Lemma season_boundaries_eq :
  season_boundaries
  = map (fun Y => (season_end Y, season_label Y)) (seq 2013 8).
Proof. vm_compute. reflexivity. Qed.

Lemma first_boundary_Some (d : date) (bs : list (date * string))
      (label : string) :
  first_boundary d bs = Some label ->
  exists i b,
    nth_error bs i = Some (b, label)
    /\ date_ltb d b = true
    /\ forall j b' l', j < i -> nth_error bs j = Some (b', l') ->
                       date_ltb d b' = false.
Proof.
  induction bs as [|[b0 l0] bs IH]; simpl; [discriminate|].
  destruct (date_ltb d b0) eqn:E.
  - intro H. inversion H; subst. exists 0, b0. repeat split; auto.
    intros j b' l' Hj. lia.
  - intro H. destruct (IH H) as (i & b & Hn & Hb & Hprev).
    exists (S i), b. repeat split; auto.
    intros [|j] b' l' Hj Hn'; simpl in Hn'.
    + now inversion Hn'; subst.
    + apply (Hprev j b' l'); [lia | assumption].
Qed.

Lemma first_boundary_years (d : date) (Ys : list nat) :
  first_boundary d (map (fun Y => (season_end Y, season_label Y)) Ys)
  = option_map season_label
               (find (fun Y => date_ltb d (season_end Y)) Ys).
Proof.
  induction Ys as [|Y Ys IH]; simpl; [reflexivity|].
  destruct (date_ltb d (season_end Y)); [reflexivity | exact IH].
Qed.

Lemma find_first_year (d : date) (len start Y : nat) :
  start <= Y < start + len ->
  (Y = start \/ date_ltb d (season_end (Y - 1)) = false) ->
  date_ltb d (season_end Y) = true ->
  find (fun Y' => date_ltb d (season_end Y')) (seq start len) = Some Y.
Proof.
  revert start. induction len as [|len IH]; intros start Hr Hprev Hlt.
  - lia.
  - simpl. destruct (date_ltb d (season_end start)) eqn:E.
    + f_equal. destruct Hprev as [-> | Hprev]; [reflexivity|].
      apply date_ltb_false in Hprev. apply date_ltb_spec in E.
      unfold season_end in *. simpl in *.
      destruct (Nat.eq_dec start Y); [assumption | lia].
    + apply IH; auto.
      * apply date_ltb_false in E. apply date_ltb_spec in Hlt.
        unfold season_end in *. simpl in *. lia.
      * destruct (Nat.eq_dec Y (S start)); [now left | right].
        destruct Hprev as [-> | Hprev]; [|assumption].
        congruence.
Qed.

Lemma find_no_year (d : date) (len start : nat) :
  date_ltb d (season_end (start + len - 1)) = false ->
  find (fun Y' => date_ltb d (season_end Y')) (seq start len) = None.
Proof.
  revert start. induction len as [|len IH]; intros start Hlast.
  - reflexivity.
  - simpl. destruct (date_ltb d (season_end start)) eqn:E.
    + apply date_ltb_false in Hlast. apply date_ltb_spec in E.
      unfold season_end in *. simpl in *. lia.
    + apply IH. now replace (S start + len - 1) with (start + S len - 1) by lia.
Qed.

(** ** C9 *)

(** C9. The boundaries are May 30 of 2013..2020 labelled "2012/2013" ..
    "2019/2020".  For a date string that parses to [d], [dateToSeason]
    returns the label of the first boundary strictly after [d]: a date
    before 2013-05-30 gives "2012/2013"; for 2014 <= Y <= 2020 a date on
    or after May 30 of Y-1 and before May 30 of Y gives "(Y-1)/Y"; a
    date on or after 2020-05-30 gives no label ([None]). *)
Theorem dateToSeason_first_boundary_after (match_date : string) (d : date)
        (Hparse : strptime match_date = Some d) :
  season_boundaries
  = map (fun Y => (season_end Y, season_label Y)) (seq 2013 8)
  /\ map snd season_boundaries = season_names
  /\ (forall label,
        dateToSeason match_date = Ok (Some label) ->
        exists i b,
          nth_error season_boundaries i = Some (b, label)
          /\ date_ltb d b = true
          /\ forall j b' l', j < i ->
               nth_error season_boundaries j = Some (b', l') ->
               date_ltb d b' = false)
  /\ (date_ltb d (season_end 2013) = true ->
      dateToSeason match_date = Ok (Some "2012/2013"))
  /\ (forall Y, 2014 <= Y <= 2020 ->
        date_ltb d (season_end (Y - 1)) = false ->
        date_ltb d (season_end Y) = true ->
        dateToSeason match_date = Ok (Some (season_label Y)))
  /\ (date_ltb d (season_end 2020) = false ->
      dateToSeason match_date = Ok None).
Proof.
  split; [exact season_boundaries_eq|].
  split; [vm_compute; reflexivity|].
  unfold dateToSeason. rewrite Hparse.
  split; [|split; [|split]].
  - intros label H. inversion H as [H']. now apply first_boundary_Some.
  - intro H. rewrite season_boundaries_eq, first_boundary_years.
    rewrite (@find_first_year d 8 2013 2013); auto. lia.
  - intros Y HY Hge Hlt.
    rewrite season_boundaries_eq, first_boundary_years.
    rewrite (@find_first_year d 8 2013 Y); auto. lia.
  - intro H. rewrite season_boundaries_eq, first_boundary_years.
    rewrite find_no_year; [reflexivity|].
    now replace (2013 + 8 - 1) with 2020 by reflexivity.
Qed.

(** ** Club resolver *)

Section Scan.
Variables (season entered_club : string).

(** What the scan holds after a list of entries, from any starting
    [greatest_similarity]. *)
Lemma closer_scan (items : list (string * string * nat)) :
  forall acc : option (nat * nat * string),
    match fold_left (closer (Some season) entered_club) items acc with
    | None =>
        acc = None
        /\ forall c id, ~ In ((season, c), id) items
    | Some (best, id, c) =>
        (forall j c' id', nth_error items j = Some ((season, c'), id') ->
                          best <= levenshtein_distance c' entered_club)
        /\ match acc with
           | Some (b0, _, _) => best <= b0
           | None => True
           end
        /\ (acc = Some (best, id, c)
            \/ exists i,
                nth_error items i = Some ((season, c), id)
                /\ best = levenshtein_distance c entered_club
                /\ (forall j c' id', j < i ->
                      nth_error items j = Some ((season, c'), id') ->
                      best < levenshtein_distance c' entered_club)
                /\ match acc with
                   | Some (b0, _, _) => best < b0
                   | None => True
                   end)
    end.
Proof.
  induction items as [|[[s1 c1] id1] items IH]; intro acc.
  - simpl. destruct acc as [[[b0 i0] n0]|].
    + split; [intros [|j] c' id' H; discriminate|]. split; [lia | now left].
    + split; [reflexivity | intros c id H; exact H].
  - simpl. unfold season_eqb.
    destruct (String.eqb_spec season s1) as [Hs | Hs].
    + subst s1.
      set (acc' := match acc with
                   | Some (best, _, _) =>
                       if levenshtein_distance c1 entered_club <? best
                       then Some (levenshtein_distance c1 entered_club, id1, c1)
                       else acc
                   | None => Some (levenshtein_distance c1 entered_club, id1, c1)
                   end).
      specialize (IH acc').
      destruct (fold_left (closer (Some season) entered_club) items acc')
        as [[[best id] c]|] eqn:F.
      * destruct IH as (Hall & Hle & Hwho).
        destruct acc as [[[b0 i0] n0]|]; simpl in acc'.
        -- destruct (Nat.ltb_spec (levenshtein_distance c1 entered_club) b0)
             as [Hlt | Hge];
             subst acc'; simpl in *.
           ++ split; [|split; [lia|]].
              ** intros [|j] c' id' H; simpl in H.
                 --- inversion H; subst. exact Hle.
                 --- now apply (Hall j c' id').
              ** right. destruct Hwho as [Heq | (i & Hi & Hb & Hprev & Hs)].
                 --- inversion Heq; subst. exists 0.
                     repeat split; auto. intros j c' id' Hj. lia.
                 --- exists (S i). repeat split; auto; [|lia].
                     intros [|j] c' id' Hj H; simpl in H.
                     +++ inversion H; subst. exact Hs.
                     +++ apply (Hprev j c' id'); [lia | assumption].
           ++ split; [|split; [exact Hle|]].
              ** intros [|j] c' id' H; simpl in H.
                 --- inversion H; subst. lia.
                 --- now apply (Hall j c' id').
              ** destruct Hwho as [Heq | (i & Hi & Hb & Hprev & Hs)];
                   [now left | right].
                 exists (S i). repeat split; auto.
                 intros [|j] c' id' Hj H; simpl in H.
                 --- inversion H; subst. lia.
                 --- apply (Hprev j c' id'); [lia | assumption].
        -- subst acc'. simpl in *. split; [|split; [exact I|]].
           ++ intros [|j] c' id' H; simpl in H.
              ** inversion H; subst. exact Hle.
              ** now apply (Hall j c' id').
           ++ right. destruct Hwho as [Heq | (i & Hi & Hb & Hprev & Hs)].
              ** inversion Heq; subst. exists 0.
                 repeat split; auto. intros j c' id' Hj. lia.
              ** exists (S i). repeat split; auto.
                 intros [|j] c' id' Hj H; simpl in H.
                 --- inversion H; subst. exact Hs.
                 --- apply (Hprev j c' id'); [lia | assumption].
      * destruct IH as (Hacc & _). exfalso. subst acc'.
        destruct acc as [[[b0 i0] n0]|]; [|discriminate].
        destruct (levenshtein_distance c1 entered_club <? b0); discriminate.
    + specialize (IH acc).
      destruct (fold_left (closer (Some season) entered_club) items acc)
        as [[[best id] c]|] eqn:F.
      * destruct IH as (Hall & Hle & Hwho). split; [|split; [exact Hle|]].
        -- intros [|j] c' id' H; simpl in H.
           ++ inversion H; subst. contradiction.
           ++ now apply (Hall j c' id').
        -- destruct Hwho as [Heq | (i & Hi & Hb & Hprev & Hs')];
             [now left | right].
           exists (S i). repeat split; auto.
           intros [|j] c' id' Hj H; simpl in H.
           ++ inversion H; subst. contradiction.
           ++ apply (Hprev j c' id'); [lia | assumption].
      * destruct IH as (Hacc & Hnone). split; [exact Hacc|].
        intros c id [H | H]; [inversion H; subst; contradiction|].
        now apply (Hnone c id).
Qed.
End Scan.

Lemma closer_same_season (season entered_club : string)
      (items : list (string * string * nat)) :
  forall acc,
    fold_left (closer (Some season) entered_club) items acc
    = fold_left (closer (Some season) entered_club)
                (filter (fun item => String.eqb season (fst (fst item))) items)
                acc.
Proof.
  induction items as [|[[s1 c1] id1] items IH]; intro acc; simpl.
  - reflexivity.
  - destruct (String.eqb season s1) eqn:E; simpl; rewrite ?E; apply IH.
Qed.

(** ** C4 *)

(** C4. Let the season have at least one entry in the club key table.
    If (season, club) is a key, the resolver of [insertMatches] returns
    its value, whatever the distance function is (the fallback is not
    consulted).  Otherwise it returns the key of an entry of that
    season whose distance to the queried name is minimal among the
    entries of the season, and strictly smaller than that of every
    such entry before it in iteration order.  The fallback's result is
    unchanged when the entries of all other seasons are dropped. *)
Theorem club_resolver_exact_then_nearest
        (club_ids : club_ids_t) (season club : string)
        (Hseason : exists c id, In ((season, c), id) (PyDict.items club_ids)) :
  (forall id,
      PyDict.get pair_eqb (season, club) club_ids = Some id ->
      resolve_club_id club_ids (Some season) club = Ok (PInt id))
  /\ (PyDict.get pair_eqb (season, club) club_ids = None ->
      exists i c id,
        nth_error (PyDict.items club_ids) i = Some ((season, c), id)
        /\ resolve_club_id club_ids (Some season) club = Ok (PInt id)
        /\ forall j c' id',
            nth_error (PyDict.items club_ids) j = Some ((season, c'), id') ->
            levenshtein_distance c club <= levenshtein_distance c' club
            /\ (j < i ->
                levenshtein_distance c club < levenshtein_distance c' club))
  /\ findClubLevenshtein true (Some season) club club_ids
     = findClubLevenshtein true (Some season) club
         (filter (fun item => String.eqb season (fst (fst item)))
                 (PyDict.items club_ids)).
Proof.
  split; [|split].
  - intros id Hget. unfold resolve_club_id, club_ids_getitem, PyDict.getitem.
    now rewrite Hget.
  - intro Hget. unfold resolve_club_id, club_ids_getitem, PyDict.getitem.
    rewrite Hget. unfold findClubLevenshtein.
    pose proof (closer_scan season club (PyDict.items club_ids) None) as H.
    destruct (fold_left (closer (Some season) club) (PyDict.items club_ids) None)
      as [[[best id] c]|].
    + destruct H as (Hall & _ & [Habs | (i & Hi & Hb & Hprev & _)]);
        [discriminate|].
      exists i, c, id. repeat split; auto.
      * rewrite <- Hb. now apply (Hall j c' id').
      * intro Hj. rewrite <- Hb. now apply (Hprev j c' id').
    + destruct H as (_ & Hnone). destruct Hseason as (c & id & Hin).
      now elim (Hnone c id).
  - unfold findClubLevenshtein, PyDict.items.
    now rewrite closer_same_season.
Qed.

(** ** Bigram similarity *)

Lemma compare_candidate_score (player_bigram : list string)
      (acc : nat * nat) (c : candidate) :
  compare_candidate player_bigram acc c
  = if fst acc <? candidate_score player_bigram c
    then (candidate_score player_bigram c, id_of c)
    else acc.
Proof.
  destruct c as [[id shortname] longname].
  unfold compare_candidate, candidate_score, short_score, long_score,
    id_of, short_of, long_of. simpl.
  set (cs := common_bigrams (generateBigrams shortname) player_bigram).
  set (cl := common_bigrams (generateBigrams longname) player_bigram).
  destruct (Nat.leb_spec cs cl) as [Hle | Hgt]; simpl.
  - rewrite (Nat.max_r cs cl) by lia.
    destruct (Nat.ltb_spec (fst acc) cl); [reflexivity|].
    destruct (Nat.ltb_spec cl cs); [lia | reflexivity].
  - rewrite (Nat.max_l cs cl) by lia.
    destruct (Nat.ltb_spec cl cs); [|lia]. simpl.
    now destruct (Nat.ltb_spec (fst acc) cs).
Qed.

Lemma most_similar_scan (player_bigram : list string) (team_ids : pool) :
  forall acc : nat * nat,
    let r := fold_left (compare_candidate player_bigram) team_ids acc in
    (forall c, In c team_ids -> candidate_score player_bigram c <= fst r)
    /\ fst acc <= fst r
    /\ (r = acc
        \/ exists i c,
            nth_error team_ids i = Some c
            /\ r = (candidate_score player_bigram c, id_of c)
            /\ fst acc < candidate_score player_bigram c
            /\ forall j c', j < i -> nth_error team_ids j = Some c' ->
                 candidate_score player_bigram c'
                 < candidate_score player_bigram c).
Proof.
  induction team_ids as [|c0 team_ids IH]; intro acc; simpl.
  - split; [intros c []|]. split; [lia | now left].
  - rewrite compare_candidate_score.
    set (s0 := candidate_score player_bigram c0).
    destruct (Nat.ltb_spec (fst acc) s0) as [Hlt | Hge].
    + destruct (IH (s0, id_of c0)) as (Hall & Hle & Hwho). simpl in Hle.
      split; [|split; [lia|]].
      * intros c [<- | Hin]; [exact Hle | now apply Hall].
      * right. destruct Hwho as [Heq | (i & c & Hi & Hr & Hs & Hprev)].
        -- exists 0, c0. repeat split; auto. intros j c' Hj. lia.
        -- exists (S i), c. repeat split; auto; [simpl in Hs; lia|].
           intros [|j] c' Hj H; simpl in H.
           ++ inversion H; subst. exact Hs.
           ++ apply (Hprev j c'); [lia | assumption].
    + destruct (IH acc) as (Hall & Hle & Hwho).
      split; [|split; [exact Hle|]].
      * intros c [<- | Hin]; [fold s0; lia | now apply Hall].
      * destruct Hwho as [Heq | (i & c & Hi & Hr & Hs & Hprev)];
          [now left | right].
        exists (S i), c. repeat split; auto.
        intros [|j] c' Hj H; simpl in H.
        -- inversion H; subst. fold s0. lia.
        -- apply (Hprev j c'); [lia | assumption].
Qed.

Lemma compareBigrams_loop_acc (players : list string) :
  forall (team_ids : pool) (similar_players : list nat),
    compareBigrams_loop players team_ids similar_players
    = (similar_players ++ fst (compareBigrams_loop players team_ids []),
       snd (compareBigrams_loop players team_ids [])).
Proof.
  induction players as [|player rest IH]; intros team_ids similar_players; simpl.
  - now rewrite app_nil_r.
  - rewrite IH. rewrite (IH _ [_]). simpl. now rewrite <- app_assoc.
Qed.

Lemma compareBigrams_cons (player : string) (rest : list string)
      (team_ids : pool) :
  compareBigrams (player :: rest) team_ids
  = snd (most_similar player team_ids)
      :: compareBigrams rest
           (filter (fun p => negb (id_of p =? snd (most_similar player team_ids)))
                   team_ids).
Proof.
  unfold compareBigrams. simpl. now rewrite compareBigrams_loop_acc.
Qed.



Lemma common_bigrams_none (theirs player_bigram : list string) :
  (forall bigram, In bigram player_bigram -> ~ In bigram theirs) ->
  common_bigrams theirs player_bigram = 0.
Proof.
  intro H. unfold common_bigrams.
  induction theirs as [|b theirs IH]; simpl; [reflexivity|].
  destruct (str_in b player_bigram) eqn:E.
  - apply str_in_In in E. exfalso. apply (H b E). now left.
  - apply IH. intros b' Hb' Hin. apply (H b' Hb'). now right.
Qed.


(** ** What a bigram is *)

Lemma substring_pair (first second : ascii) (rest : string) :
  substring 0 2 (String first (String second rest))
  = String first (String second EmptyString).
Proof.
  clear levenshtein_distance strptime word_tokenize.
  simpl. now destruct rest.
Qed.

Lemma word_bigrams_adjacent (n : string) :
  word_bigrams n
  = map (fun i => substring i 2 n) (seq 0 (String.length n - 1)).
Proof.
  clear levenshtein_distance strptime word_tokenize.
  induction n as [|first tail IH]; [reflexivity|].
  destruct tail as [|second rest]; [reflexivity|].
  change (word_bigrams (String first (String second rest)))
    with (String first (String second EmptyString)
            :: word_bigrams (String second rest)).
  rewrite IH.
  replace (String.length (String first (String second rest)) - 1)
    with (S (String.length (String second rest) - 1)) by (simpl; lia).
  cbn [seq map]. rewrite substring_pair. f_equal.
  rewrite <- seq_shift, map_map. reflexivity.
Qed.

Lemma remove_stops_filter (player : string) :
  remove_stops player
  = string_of_list_ascii
      (filter (fun char => negb (Ascii.eqb char "."%char))
              (list_ascii_of_string player)).
Proof.
  clear levenshtein_distance strptime word_tokenize.
  induction player as [|char rest IH]; [reflexivity|].
  simpl. destruct (Ascii.eqb char "."%char); simpl; now rewrite IH.
Qed.

Lemma generateBigrams_adjacent (player : string) :
  generateBigrams player
  = flat_map (fun name =>
                map (fun i => substring i 2 name)
                    (seq 0 (String.length name - 1)))
             (filter (fun name => 1 <? String.length name)
                     (word_tokenize
                        (string_of_list_ascii
                           (filter (fun char => negb (Ascii.eqb char "."%char))
                                   (list_ascii_of_string player))))).
Proof.
  unfold generateBigrams. rewrite remove_stops_filter.
  apply flat_map_ext. intro name. apply word_bigrams_adjacent.
Qed.

Lemma common_bigrams_count (theirs player_bigram : list string) :
  common_bigrams theirs player_bigram
  = List.length
      (filter (fun bigram =>
                 if in_dec string_dec bigram player_bigram then true else false)
              theirs).
Proof.
  clear levenshtein_distance strptime word_tokenize.
  unfold common_bigrams. f_equal. apply filter_ext. intro bigram.
  destruct (in_dec string_dec bigram player_bigram) as [Hin | Hnot].
  - now apply str_in_In.
  - now apply str_in_false.
Qed.

(** ** C6 *)

(** C6. The bigrams of a name are the pairs of adjacent characters of
    its words: the full stops are dropped, the rest is tokenized, words
    of one character are ignored, and a word [w] gives [w[i:i+2]] for
    every [i] below [len(w) - 1], in order.  The short-name (long-name)
    count of a candidate is the number of bigrams of its short (long)
    name, repetitions counted, that occur among the bigrams of the slot
    name.  In [compareBigrams] one comparison replaces the running best
    by (score, id) exactly when the candidate's score, the larger of its
    short-name and long-name common-bigram counts, is strictly greater
    than the running best.  The value given to the slot is therefore 0
    when every remaining candidate scores 0, and otherwise the key of
    the first candidate, in pool order, that reaches the greatest score;
    the candidates with that key leave the pool before the next name.
    In particular, when the name shares bigrams with the long name of a
    candidate and every other candidate scores strictly less than that
    count, the slot gets that candidate's key. *)
Theorem compareBigrams_first_greatest
        (player : string) (rest : list string) (team_ids : pool) :
  let player_bigram := generateBigrams player in
  let g := most_similar player team_ids in
  (forall name,
      generateBigrams name
      = flat_map (fun word =>
                    map (fun i => substring i 2 word)
                        (seq 0 (String.length word - 1)))
                 (filter (fun word => 1 <? String.length word)
                         (word_tokenize
                            (string_of_list_ascii
                               (filter (fun char =>
                                          negb (Ascii.eqb char "."%char))
                                       (list_ascii_of_string name))))))
  /\ (forall c,
        short_score player_bigram c
        = List.length
            (filter (fun bigram =>
                       if in_dec string_dec bigram player_bigram
                       then true else false)
                    (generateBigrams (short_of c)))
        /\ long_score player_bigram c
           = List.length
               (filter (fun bigram =>
                          if in_dec string_dec bigram player_bigram
                          then true else false)
                       (generateBigrams (long_of c))))
  /\ (forall acc c,
      compare_candidate player_bigram acc c
      = if fst acc <? Nat.max (short_score player_bigram c)
                              (long_score player_bigram c)
        then (Nat.max (short_score player_bigram c)
                      (long_score player_bigram c), id_of c)
        else acc)
  /\ compareBigrams (player :: rest) team_ids
     = snd g :: compareBigrams rest
                  (filter (fun p => negb (id_of p =? snd g)) team_ids)
  /\ ((g = (0, 0)
       /\ forall c, In c team_ids -> candidate_score player_bigram c = 0)
      \/ exists i c,
          nth_error team_ids i = Some c
          /\ g = (candidate_score player_bigram c, id_of c)
          /\ 0 < candidate_score player_bigram c
          /\ (forall c', In c' team_ids ->
                candidate_score player_bigram c'
                <= candidate_score player_bigram c)
          /\ (forall j c', j < i -> nth_error team_ids j = Some c' ->
                candidate_score player_bigram c'
                < candidate_score player_bigram c))
  /\ (forall c,
        In c team_ids ->
        0 < long_score player_bigram c ->
        (forall c', In c' team_ids -> c' <> c ->
           candidate_score player_bigram c' < long_score player_bigram c) ->
        snd g = id_of c).
Proof.
  intros player_bigram g.
  split; [exact generateBigrams_adjacent|].
  split; [intro c; split; apply common_bigrams_count|].
  pose proof (most_similar_scan player_bigram team_ids (0, 0)) as Hscan.
  simpl in Hscan. fold (most_similar player team_ids) in Hscan. fold g in Hscan.
  destruct Hscan as (Hall & _ & Hwho).
  assert (Hcases :
            (g = (0, 0)
             /\ forall c, In c team_ids -> candidate_score player_bigram c = 0)
            \/ exists i c,
                nth_error team_ids i = Some c
                /\ g = (candidate_score player_bigram c, id_of c)
                /\ 0 < candidate_score player_bigram c
                /\ (forall c', In c' team_ids ->
                      candidate_score player_bigram c'
                      <= candidate_score player_bigram c)
                /\ (forall j c', j < i -> nth_error team_ids j = Some c' ->
                      candidate_score player_bigram c'
                      < candidate_score player_bigram c)).
  { destruct Hwho as [Heq | (i & c & Hi & Hr & Hs & Hprev)].
    - left. split; [exact Heq|]. intros c Hc.
      specialize (Hall c Hc). rewrite Heq in Hall. simpl in Hall. lia.
    - right. exists i, c. repeat split; auto.
      intros c' Hc'. specialize (Hall c' Hc'). rewrite Hr in Hall. exact Hall. }
  split; [intros acc c; apply compare_candidate_score|].
  split; [apply compareBigrams_cons|].
  split; [exact Hcases|].
  intros c Hc Hpos Hothers.
  assert (Hlong : long_score player_bigram c <= candidate_score player_bigram c).
  { unfold candidate_score. lia. }
  destruct Hcases as [[_ Hzero] | (i & c1 & Hi & Hr & _ & Hmax & _)].
  - specialize (Hzero c Hc). lia.
  - rewrite Hr. simpl.
    assert (Hin1 : In c1 team_ids) by (eapply nth_error_In; eassumption).
    destruct (candidate_score player_bigram c1 <? long_score player_bigram c)
      eqn:E.
    + apply Nat.ltb_lt in E. specialize (Hmax c Hc). lia.
    + apply Nat.ltb_ge in E.
      assert (Hdec : c1 = c \/ c1 <> c).
      { destruct c1 as [[i1 s1] l1], c as [[i2 s2] l2].
        destruct (Nat.eq_dec i1 i2), (string_dec s1 s2), (string_dec l1 l2);
          subst; auto; right; congruence. }
      destruct Hdec as [-> | Hne]; [reflexivity|].
      specialize (Hothers c1 Hin1 Hne). lia.
Qed.

(** ** C2 *)


(** ** Containment pass *)

Lemma tuple_eqb_eq (a b : candidate) : tuple_eqb a b = true <-> a = b.
Proof.
  destruct a as [[i s] l], b as [[j s'] l'].
  unfold tuple_eqb, id_of, short_of, long_of. simpl.
  rewrite !andb_true_iff, Nat.eqb_eq, !String.eqb_eq. split.
  - intros [[-> ->] ->]. reflexivity.
  - intro H. inversion H. auto.
Qed.

Lemma tuple_eqb_refl (a : candidate) : tuple_eqb a a = true.
Proof. now apply tuple_eqb_eq. Qed.

Lemma name_in_tuple_spec (player : string) (c : candidate) :
  name_in_tuple player c = true
  <-> player = short_of c \/ player = long_of c.
Proof.
  destruct c as [[i s] l]. unfold name_in_tuple, short_of, long_of. simpl.
  now rewrite orb_true_iff, !String.eqb_eq.
Qed.

Lemma scan_roster_find (player : string) (iter : pool) (st : side) :
  scan_roster player iter st
  = match find (name_in_tuple player) iter with
    | Some c =>
        mkSide (values st ++ [id_of c])
               (filter (fun p => negb (tuple_eqb p c)) (team_ids st))
               (filter (fun p => negb (String.eqb p player)) (lineup st))
    | None => st
    end.
Proof.
  induction iter as [|c iter IH]; simpl; [reflexivity|].
  now destruct (name_in_tuple player c).
Qed.

Lemma containment_pass_sides (slots : list (string * string)) :
  forall home away : side,
    containment_pass slots home away
    = (side_pass (map fst slots) home, side_pass (map snd slots) away).
Proof.
  induction slots as [|[h a] slots IH]; intros home away; simpl.
  - reflexivity.
  - apply IH.
Qed.

Lemma side_pass_outcomes (names : list string) :
  forall st : side,
    values (side_pass names st)
    = values st ++ resolved_keys (slot_outcomes names (team_ids st))
    /\ team_ids (side_pass names st) = pool_after names (team_ids st)
    /\ lineup (side_pass names st)
       = filter (fun x =>
                   negb (str_in x (resolved_names
                                     (slot_outcomes names (team_ids st)))))
                (lineup st).
Proof.
  induction names as [|player rest IH]; intro st; simpl.
  - rewrite app_nil_r. repeat split. symmetry. now apply filter_id.
  - unfold contain_slot at 1 2 3. rewrite scan_roster_find.
    destruct (find (name_in_tuple player) (team_ids st)) as [c|] eqn:F.
    + destruct (IH (mkSide (values st ++ [id_of c])
                           (filter (fun p => negb (tuple_eqb p c)) (team_ids st))
                           (filter (fun p => negb (String.eqb p player))
                                   (lineup st))))
        as (Hv & Ht & Hl).
      simpl in Hv, Ht, Hl. rewrite Hv, Ht, Hl. simpl.
      rewrite <- app_assoc. repeat split.
      rewrite <- filter_both. apply filter_ext. intro x.
      rewrite negb_orb. reflexivity.
    + destruct (IH st) as (Hv & Ht & Hl). rewrite Hv, Ht, Hl. auto.
Qed.

Lemma slot_outcomes_names (names : list string) (team : pool) :
  map fst (slot_outcomes names team) = names.
Proof.
  revert team. induction names as [|player rest IH]; intro team; simpl.
  - reflexivity.
  - destruct (find (name_in_tuple player) team); simpl; now rewrite IH.
Qed.

Lemma resolved_names_incl (outcomes : list (string * option nat)) (x : string) :
  In x (resolved_names outcomes) -> In x (map fst outcomes).
Proof.
  induction outcomes as [|[n [k|]] outcomes IH]; simpl; auto.
  intros [H | H]; auto.
Qed.

Lemma leftover_is_unresolved (outcomes : list (string * option nat)) :
  NoDup (map fst outcomes) ->
  filter (fun x => negb (str_in x (resolved_names outcomes)))
         (map fst outcomes)
  = unresolved_names outcomes.
Proof.
  induction outcomes as [|[n r] outcomes IH]; simpl; intro Hnd; [reflexivity|].
  inversion Hnd as [|? ? Hn Hnd']; subst. specialize (IH Hnd').
  destruct r as [k|]; simpl.
  - rewrite String.eqb_refl. simpl. rewrite <- IH.
    apply filter_ext_in. intros x Hx.
    destruct (String.eqb_spec x n); [subst; contradiction | reflexivity].
  - assert (Hout : str_in n (resolved_names outcomes) = false).
    { apply str_in_false. intro H. apply Hn. now apply resolved_names_incl. }
    rewrite Hout. simpl. now rewrite IH.
Qed.


Lemma values_combine (A B : Type) (l : list A) (l' : list B) :
  List.length l = List.length l' -> map snd (combine l l') = l'.
Proof.
  revert l'. induction l as [|a l IH]; intros [|b l'] H; simpl in *;
    try discriminate; auto.
  f_equal. apply IH. lia.
Qed.

Lemma similarity_pass_eq (st : side) :
  similarity_pass st
  = values st ++ compareBigrams (lineup st) (team_ids st).
Proof.
  unfold similarity_pass. destruct (lineup st) as [|n l]; simpl.
  - now rewrite app_nil_r.
  - reflexivity.
Qed.



(** ** C8 *)


Lemma exactly_spelled_outcomes (names : list string) :
  forall team : pool,
    NoDup names ->
    exactly_spelled names team ->
    unresolved_names (slot_outcomes names team) = []
    /\ Forall2 (resolves team) names (resolved_keys (slot_outcomes names team)).
Proof.
  clear levenshtein_distance strptime word_tokenize.
  induction names as [|n names IH]; intros team Hnd [Hex Huniq]; simpl.
  - split; [reflexivity | constructor].
  - inversion Hnd as [|? ? Hn Hnd']; subst.
    destruct (find (name_in_tuple n) team) as [c|] eqn:F.
    + apply find_some in F. destruct F as [Hc Hm].
      assert (Hspelled : exactly_spelled
                           names (filter (fun p => negb (tuple_eqb p c)) team)).
      { split.
        - intros n' Hn'. destruct (Hex n' (or_intror Hn')) as (c' & Hc' & Hm').
          exists c'. split; [|exact Hm']. apply filter_In. split; [exact Hc'|].
          destruct (tuple_eqb c' c) eqn:E; [|reflexivity].
          apply tuple_eqb_eq in E. subst c'. exfalso. apply Hn.
          rewrite (Huniq c n n' Hc (or_introl eq_refl) (or_intror Hn') Hm Hm').
          exact Hn'.
        - intros c' a b Hc' Ha Hb. apply filter_In in Hc'.
          apply Huniq; [tauto | now right | now right]. }
      destruct (IH _ Hnd' Hspelled) as (Hun & Hres). simpl. split; [exact Hun|].
      constructor.
      * exists c. split; [exact Hc|]. split; [|reflexivity].
        now apply name_in_tuple_spec.
      * eapply Forall2_impl; [|exact Hres].
        intros a k (c' & Hc' & Hm' & Hk). exists c'. split; [|tauto].
        apply filter_In in Hc'. tauto.
    + exfalso. destruct (Hex n (or_introl eq_refl)) as (c & Hc & Hm).
      rewrite (find_none _ _ F c Hc) in Hm. discriminate.
Qed.

Lemma side_all_resolved (names : list string) (team : pool) :
  NoDup names ->
  exactly_spelled names team ->
  let st := side_pass names (mkSide [] team names) in
  lineup st = []
  /\ List.length (values st) = List.length names
  /\ Forall2 (resolves team) names (values st)
  /\ similarity_pass st = values st.
Proof.
  intros Hnd Hsp st.
  destruct (side_pass_outcomes names (mkSide [] team names)) as (Hv & _ & Hl).
  destruct (exactly_spelled_outcomes Hnd Hsp) as (Hun & Hres).
  fold st in Hv, Hl. simpl in Hv, Hl.
  assert (Hlin : lineup st = []).
  { rewrite Hl, <- Hun.
    pose proof (leftover_is_unresolved (slot_outcomes names team)) as H.
    rewrite slot_outcomes_names in H. now apply H. }
  rewrite Hv. split; [exact Hlin|]. split; [|split; [exact Hres|]].
  - symmetry. eapply Forall2_length. exact Hres.
  - unfold similarity_pass. rewrite Hlin. simpl. now rewrite Hv.
Qed.

(** ** C1 *)

(** C1, amended.  The test of line 321 is membership of the name in the
    tuple (ID, shortname, longname): a slot is resolved by the
    containment pass when its name is equal to the short or the long
    name of a remaining candidate, and it then gets the key of the first
    such candidate in pool order, which leaves the pool together with
    the name; a name equal to no remaining name changes nothing.  In
    particular, for 11 pairwise distinct home names and 11 pairwise
    distinct away names, each equal to a name of a roster candidate and
    no candidate carrying two of them, all 22 slots are resolved by the
    containment pass, nothing is left for the bigram pass, and the
    values of each side are those keys. *)
Theorem containment_resolves_equal_names
        (home_lineup away_lineup : list string) (home_pool away_pool : pool)
        (Hlh : List.length home_lineup = 11)
        (Hla : List.length away_lineup = 11)
        (Hdh : NoDup home_lineup) (Hda : NoDup away_lineup)
        (Hsh : exactly_spelled home_lineup home_pool)
        (Hsa : exactly_spelled away_lineup away_pool) :
  (forall player st before c after,
      team_ids st = before ++ c :: after ->
      (player = short_of c \/ player = long_of c) ->
      (forall c', In c' before ->
                  player <> short_of c' /\ player <> long_of c') ->
      contain_slot player st
      = mkSide (values st ++ [id_of c])
               (filter (fun p => negb (tuple_eqb p c)) (team_ids st))
               (filter (fun p => negb (String.eqb p player)) (lineup st)))
  /\ (forall player st,
        (forall c, In c (team_ids st) ->
                   player <> short_of c /\ player <> long_of c) ->
        contain_slot player st = st)
  /\ let home := fst (containment_pass (combine home_lineup away_lineup)
                        (mkSide [] home_pool home_lineup)
                        (mkSide [] away_pool away_lineup)) in
     let away := snd (containment_pass (combine home_lineup away_lineup)
                        (mkSide [] home_pool home_lineup)
                        (mkSide [] away_pool away_lineup)) in
     lineup home = [] /\ lineup away = []
     /\ List.length (values home) = 11 /\ List.length (values away) = 11
     /\ Forall2 (resolves home_pool) home_lineup (values home)
     /\ Forall2 (resolves away_pool) away_lineup (values away)
     /\ similarity_pass home = values home
     /\ similarity_pass away = values away.
Proof.
  clear levenshtein_distance strptime.
  split; [|split].
  - intros player st before c after Hpool Hname Hbefore.
    unfold contain_slot. rewrite scan_roster_find.
    assert (F : find (name_in_tuple player) (team_ids st) = Some c).
    { rewrite Hpool. clear Hpool.
      induction before as [|c0 before IH]; simpl.
      - now rewrite (proj2 (name_in_tuple_spec player c) Hname).
      - destruct (name_in_tuple player c0) eqn:E.
        + apply name_in_tuple_spec in E.
          destruct (Hbefore c0 (or_introl eq_refl)). tauto.
        + apply IH. intros c' Hc'. apply Hbefore. now right. }
    now rewrite F.
  - intros player st Hnone. unfold contain_slot. rewrite scan_roster_find.
    destruct (find (name_in_tuple player) (team_ids st)) as [c|] eqn:F;
      [|reflexivity].
    apply find_some in F. destruct F as [Hc Hm].
    apply name_in_tuple_spec in Hm. destruct (Hnone c Hc). tauto.
  - rewrite containment_pass_sides.
    rewrite keys_combine, values_combine by lia. simpl.
    destruct (side_all_resolved Hdh Hsh) as (H1 & H2 & H3 & H4).
    destruct (side_all_resolved Hda Hsa) as (A1 & A2 & A3 & A4).
    rewrite Hlh in H2. rewrite Hla in A2. tauto.
Qed.

(** ** At most one slot per candidate *)

Lemma map_injective_on (A B : Type) (f : A -> B) (l : list A) (x y : A) :
  NoDup (map f l) -> In x l -> In y l -> f x = f y -> x = y.
Proof.
  induction l as [|a l IH]; simpl; intros Hnd Hx Hy Hf; [contradiction|].
  inversion Hnd as [|? ? Hout Hnd']; subst.
  destruct Hx as [-> | Hx], Hy as [-> | Hy]; auto.
  - exfalso. apply Hout. rewrite Hf. now apply in_map.
  - exfalso. apply Hout. rewrite <- Hf. now apply in_map.
Qed.

Lemma filter_keeps_distinct_keys (A B : Type) (key : A -> B) (l : list A)
      (keep : A -> bool) (Hkeys : NoDup (map key l)) :
  NoDup (map key (filter keep l)).
Proof.
  induction l as [|a l IH]; simpl; [constructor|].
  inversion Hkeys as [|? ? Hout Hrest]; subst.
  destruct (keep a); simpl; [constructor|]; auto.
  intro Hin. apply Hout. apply in_map_iff in Hin.
  destruct Hin as [x [E Hx]]. apply filter_In in Hx.
  rewrite <- E. apply in_map. tauto.
Qed.

Lemma matched_candidate_leaves (team : pool) (c : candidate) :
  NoDup (map id_of team) -> In c team ->
  ~ In (id_of c) (map id_of (filter (fun p => negb (tuple_eqb p c)) team)).
Proof.
  intros Hnd Hc Hin. apply in_map_iff in Hin. destruct Hin as [p [E Hp]].
  apply filter_In in Hp. destruct Hp as [Hp Hne].
  rewrite (map_injective_on id_of team p c Hnd Hp Hc E) in Hne.
  now rewrite tuple_eqb_refl in Hne.
Qed.

Lemma pool_after_incl (names : list string) :
  forall (team : pool) (c : candidate),
    In c (pool_after names team) -> In c team.
Proof.
  clear levenshtein_distance strptime word_tokenize.
  induction names as [|n names IH]; intros team c; simpl; [auto|].
  destruct (find (name_in_tuple n) team) as [c0|].
  - intro H. apply IH in H. apply filter_In in H. tauto.
  - apply IH.
Qed.

Lemma resolved_keys_once (names : list string) :
  forall team : pool,
    NoDup (map id_of team) ->
    NoDup (resolved_keys (slot_outcomes names team))
    /\ forall k, In k (resolved_keys (slot_outcomes names team)) ->
                 In k (map id_of team)
                 /\ ~ In k (map id_of (pool_after names team)).
Proof.
  clear levenshtein_distance strptime word_tokenize.
  induction names as [|n names IH]; intros team Hnd; simpl.
  - split; [constructor | intros k []].
  - destruct (find (name_in_tuple n) team) as [c|] eqn:F; simpl.
    + apply find_some in F. destruct F as [Hc _].
      pose proof (matched_candidate_leaves team c Hnd Hc) as Hgone.
      destruct (IH _ (filter_keeps_distinct_keys id_of team
                        (fun p => negb (tuple_eqb p c)) Hnd))
        as (Hnd' & Hin').
      split.
      * constructor; [|exact Hnd']. intro H. apply Hin' in H. tauto.
      * intros k [<- | Hk].
        -- split; [now apply in_map|]. intro H. apply Hgone.
           apply in_map_iff in H. destruct H as [p [E Hp]].
           rewrite <- E. apply in_map. eapply pool_after_incl. exact Hp.
        -- destruct (Hin' k Hk) as [H1 H2]. split; [|exact H2].
           apply in_map_iff in H1. destruct H1 as [p [E Hp]].
           apply filter_In in Hp. rewrite <- E. apply in_map. tauto.
    + now apply IH.
Qed.

Lemma most_similar_key (player : string) (team : pool) :
  snd (most_similar player team) = 0
  \/ In (snd (most_similar player team)) (map id_of team).
Proof.
  pose proof (most_similar_scan (generateBigrams player) team (0, 0)) as H.
  simpl in H. fold (most_similar player team) in H.
  destruct H as (_ & _ & [Heq | (i & c & Hi & Hr & _)]).
  - left. now rewrite Heq.
  - right. rewrite Hr. simpl. apply in_map. eapply nth_error_In. exact Hi.
Qed.

Lemma compareBigrams_once (players : list string) :
  forall (team : pool) (k : nat),
    k <> 0 ->
    count_occ Nat.eq_dec (compareBigrams players team) k <= 1
    /\ (In k (compareBigrams players team) -> In k (map id_of team)).
Proof.
  induction players as [|player rest IH]; intros team k Hk.
  - simpl. split; [lia | intros []].
  - rewrite compareBigrams_cons.
    set (g := snd (most_similar player team)).
    set (team' := filter (fun p => negb (id_of p =? g)) team).
    destruct (IH team' k Hk) as (Hcount & Hin).
    assert (Hsub : In k (map id_of team') -> In k (map id_of team) /\ k <> g).
    { intro H. apply in_map_iff in H. destruct H as [p [E Hp]].
      apply filter_In in Hp. destruct Hp as [Hp Hne]. split.
      - rewrite <- E. now apply in_map.
      - rewrite <- E. intro Heq. rewrite Heq, Nat.eqb_refl in Hne.
        discriminate. }
    split.
    + simpl. destruct (Nat.eq_dec g k) as [Heq | Hne]; [|exact Hcount].
      assert (Hzero : count_occ Nat.eq_dec (compareBigrams rest team') k = 0).
      { apply count_occ_not_In. intro H. apply Hin, Hsub in H.
        destruct H as [_ H]. congruence. }
      lia.
    + intros [Heq | H].
      * destruct (most_similar_key player team) as [H0 | H1].
        -- fold g in H0. congruence.
        -- fold g in H1. now rewrite <- Heq.
      * now apply Hin, Hsub in H.
Qed.

Lemma side_keys_once (names leftover : list string) (team : pool)
      (c : candidate) :
  NoDup (map id_of team) -> ~ In 0 (map id_of team) -> In c team ->
  count_occ Nat.eq_dec
            (similarity_pass (side_pass names (mkSide [] team leftover)))
            (id_of c) <= 1.
Proof.
  intros Hnd H0 Hc. rewrite similarity_pass_eq.
  destruct (side_pass_outcomes names (mkSide [] team leftover)) as (Hv & Ht & _).
  simpl in Hv, Ht. rewrite Hv, Ht, count_occ_app.
  destruct (resolved_keys_once names team Hnd) as (Hrk & Hin).
  assert (Hk : id_of c <> 0).
  { intro E. apply H0. rewrite <- E. now apply in_map. }
  destruct (compareBigrams_once
              (lineup (side_pass names (mkSide [] team leftover)))
              (pool_after names team) Hk) as (Hcb & Hcbin).
  pose proof (proj1 (NoDup_count_occ Nat.eq_dec _) Hrk (id_of c)) as Hone.
  destruct (in_dec Nat.eq_dec (id_of c) (resolved_keys (slot_outcomes names team)))
    as [Hres | Hres].
  - destruct (Hin _ Hres) as [_ Hgone].
    assert (Hzero : count_occ Nat.eq_dec
                      (compareBigrams
                         (lineup (side_pass names (mkSide [] team leftover)))
                         (pool_after names team)) (id_of c) = 0).
    { apply count_occ_not_In. intro H. now apply Hgone, Hcbin. }
    lia.
  - apply (count_occ_not_In Nat.eq_dec) in Hres. lia.
Qed.

(** The rosters that [insertPlayers] builds satisfy the two conditions:
    their keys are pairwise distinct and none is 0. *)
Lemma roster_from_keys (key : string * string) (rows : list row) :
  NoDup (map id_of (roster_from 1 key rows))
  /\ ~ In 0 (map id_of (roster_from 1 key rows)).
Proof.
  unfold roster_from. rewrite map_map. unfold id_of. simpl.
  split.
  - apply filter_keeps_distinct_keys.
    rewrite keys_combine by now rewrite length_seq.
    apply seq_NoDup.
  - intro H. apply in_map_iff in H. destruct H as [[i p] [E Hin]].
    apply filter_In in Hin. destruct Hin as [Hin _].
    apply in_combine_l in Hin. apply in_seq in Hin. simpl in E. lia.
Qed.

(** ** C7 *)

(** C7. Let the keys of each roster be pairwise distinct and different
    from 0, as they are in the rosters [insertPlayers] builds.  Then in
    the values [insertLineups] computes for a side, containment pass and
    similarity pass together, the key of a roster candidate occurs at
    most once.  The reason is the removal after each match: the
    candidate matched by containment is not in the pool afterwards, and
    no candidate with the key chosen by the similarity pass stays in
    the pool.  The rosters of any list of player rows meet the two
    conditions. *)
Theorem candidate_key_used_once
        (slots : list (string * string))
        (home_lineup away_lineup : list string) (home_pool away_pool : pool)
        (Hh : NoDup (map id_of home_pool))
        (Hh0 : ~ In 0 (map id_of home_pool))
        (Ha : NoDup (map id_of away_pool))
        (Ha0 : ~ In 0 (map id_of away_pool)) :
  let home := fst (containment_pass slots
                     (mkSide [] home_pool home_lineup)
                     (mkSide [] away_pool away_lineup)) in
  let away := snd (containment_pass slots
                     (mkSide [] home_pool home_lineup)
                     (mkSide [] away_pool away_lineup)) in
  (forall c, In c home_pool ->
     count_occ Nat.eq_dec (similarity_pass home) (id_of c) <= 1)
  /\ (forall c, In c away_pool ->
        count_occ Nat.eq_dec (similarity_pass away) (id_of c) <= 1)
  /\ (forall player st c,
        NoDup (map id_of (team_ids st)) ->
        find (name_in_tuple player) (team_ids st) = Some c ->
        values (contain_slot player st) = values st ++ [id_of c]
        /\ ~ In (id_of c) (map id_of (team_ids (contain_slot player st))))
  /\ (forall player team,
        ~ In (snd (most_similar player team))
             (map id_of
                  (filter (fun p =>
                             negb (id_of p =? snd (most_similar player team)))
                          team)))
  /\ (forall key rows,
        NoDup (map id_of (roster_from 1 key rows))
        /\ ~ In 0 (map id_of (roster_from 1 key rows))).
Proof.
  rewrite containment_pass_sides. simpl.
  split; [|split; [|split; [|split; [|intros; apply roster_from_keys]]]].
  - intros c Hc. now apply side_keys_once.
  - intros c Hc. now apply side_keys_once.
  - intros player st c Hnd F. unfold contain_slot.
    rewrite scan_roster_find, F. simpl. split; [reflexivity|].
    apply find_some in F. now apply matched_candidate_leaves.
  - intros player team H. apply in_map_iff in H. destruct H as [p [E Hp]].
    apply filter_In in Hp. destruct Hp as [_ Hne].
    now rewrite E, Nat.eqb_refl in Hne.
Qed.

(** ** Commit points of a match *)

Lemma insertLineups_cases (club_ids : club_ids_t) (name_ids : name_ids_t)
      (current_id : nat) (match_ : row) (conn : Conn) :
  (exists e,
      insertLineups club_ids name_ids current_id match_ conn = (Raise e, conn))
  \/ (exists vals,
         lineup_values club_ids name_ids current_id match_ = Ok vals
         /\ List.length vals = 23
         /\ insertLineups club_ids name_ids current_id match_ conn
            = (Ok tt, mkConn (add_lineup vals (working conn))
                             (add_lineup vals (working conn)))).
Proof.
  unfold insertLineups, bindM, lift.
  destruct (lineup_values club_ids name_ids current_id match_) as [vals|e].
  - unfold insert_lineup.
    destruct (List.length vals =? 23) eqn:E.
    + right. exists vals. apply Nat.eqb_eq in E. auto.
    + left. now exists BindingError.
  - left. now exists e.
Qed.

Lemma lineup_values_head (club_ids : club_ids_t) (name_ids : name_ids_t)
      (current_id : nat) (match_ : row) (vals : list nat) :
  lineup_values club_ids name_ids current_id match_ = Ok vals ->
  hd_error vals = Some current_id.
Proof.
  unfold lineup_values, bind.
  repeat match goal with
         | |- context [match ?x with _ => _ end] =>
             destruct x; try discriminate
         end.
  intro H. inversion H. reflexivity.
Qed.

(** ** C3 *)


(** ** Checking side conditions by computation *)

Lemma distinctb_NoDup (xs : list string) : distinctb xs = true -> NoDup xs.
Proof.
  clear levenshtein_distance strptime word_tokenize.
  induction xs as [|x xs IH]; simpl; intro H; constructor.
  - apply andb_true_iff in H. destruct H as [H _].
    apply negb_true_iff, str_in_false in H. exact H.
  - apply IH. apply andb_true_iff in H. tauto.
Qed.

Lemma exactly_spelledb_sound (names : list string) (team : pool) :
  exactly_spelledb names team = true -> exactly_spelled names team.
Proof.
  unfold exactly_spelledb, exactly_spelled.
  rewrite andb_true_iff, !forallb_forall. intros [Hex Huniq]. split.
  - intros n Hn. specialize (Hex n Hn). apply existsb_exists in Hex.
    destruct Hex as (c & Hc & Hm). now exists c.
  - intros c n n' Hc Hn Hn' Hm Hm'.
    specialize (Huniq c Hc). rewrite forallb_forall in Huniq.
    specialize (Huniq n Hn). rewrite forallb_forall in Huniq.
    specialize (Huniq n' Hn'). rewrite Hm, Hm' in Huniq. simpl in Huniq.
    now apply String.eqb_eq.
Qed.

(** ** Reading rows *)

Lemma split_commas_fields (s : string) :
  List.length (split_commas s) = S (count_commas s).
Proof.
  induction s as [|c s IH]; simpl; [reflexivity|].
  destruct (Ascii.eqb c ","%char); simpl; [now rewrite IH|].
  destruct (split_commas s); simpl in *; lia.
Qed.

Lemma remove_newlines_app (a b : string) :
  remove_newlines (a ++ b)%string
  = (remove_newlines a ++ remove_newlines b)%string.
Proof.
  induction a as [|c a IH]; simpl; [reflexivity|].
  destruct (Ascii.eqb c newline); simpl; now rewrite IH.
Qed.

Lemma remove_newlines_plain (field : string) :
  plain_field field = true -> remove_newlines field = field.
Proof.
  induction field as [|c field IH]; simpl; [reflexivity|].
  rewrite !andb_true_iff, !negb_true_iff. intros [[_ Hn] Hrest].
  now rewrite Hn, IH.
Qed.

Lemma split_commas_plain (field : string) :
  plain_field field = true -> split_commas field = [field].
Proof.
  induction field as [|c field IH]; simpl; [reflexivity|].
  rewrite !andb_true_iff, !negb_true_iff. intros [[Hc _] Hrest].
  now rewrite Hc, IH.
Qed.

Lemma split_commas_next (field rest : string) :
  plain_field field = true ->
  split_commas (field ++ "," ++ rest)%string = field :: split_commas rest.
Proof.
  induction field as [|c field IH]; simpl; [reflexivity|].
  rewrite !andb_true_iff, !negb_true_iff. intros [[Hc _] Hrest].
  rewrite Hc. simpl in IH. now rewrite IH.
Qed.

Lemma join_commas_plain_line (fields : list string) :
  Forall (fun f => plain_field f = true) fields ->
  remove_newlines (join_commas fields) = join_commas fields.
Proof.
  induction 1 as [|f fields Hf Hrest IH]; [reflexivity|].
  destruct fields as [|g fields]; simpl.
  - now apply remove_newlines_plain.
  - rewrite remove_newlines_app. simpl remove_newlines at 2.
    change (Ascii.eqb ","%char newline) with false. cbv iota.
    rewrite remove_newlines_plain by assumption.
    simpl in IH. now rewrite IH.
Qed.

Lemma split_join_commas (fields : list string) :
  fields <> [] ->
  Forall (fun f => plain_field f = true) fields ->
  split_commas (join_commas fields) = fields.
Proof.
  intros Hne Hplain. induction Hplain as [|f fields Hf Hrest IH];
    [now elim Hne|].
  destruct fields as [|g fields].
  - simpl. now apply split_commas_plain.
  - change (join_commas (f :: g :: fields))
      with (f ++ "," ++ join_commas (g :: fields))%string.
    rewrite split_commas_next by assumption.
    f_equal. apply IH. discriminate.
Qed.

(** X9. A line made of at least one field, the fields free of commas
    and newlines and joined by commas, with or without the newline that
    ends it, is read back by [readCSV] as exactly those fields. *)
Theorem readCSV_reads_back_joined_fields (fields : list string)
        (Hsome : fields <> [])
        (Hplain : Forall (fun f => plain_field f = true) fields) :
  readCSV [(join_commas fields ++ String newline EmptyString)%string] = [fields]
  /\ readCSV [join_commas fields] = [fields].
Proof.
  assert (Hnil : forall s : string, (s ++ EmptyString)%string = s).
  { induction s as [|c s IH]; simpl; [reflexivity | now rewrite IH]. }
  unfold readCSV. cbn [map]. rewrite remove_newlines_app.
  change (remove_newlines (String newline EmptyString)) with EmptyString.
  rewrite Hnil, join_commas_plain_line by assumption.
  now rewrite split_join_commas.
Qed.

Lemma collectClubs_short_row (rows : list row) :
  forall existing : existing_clubs,
    Exists (fun r => List.length r < 6) rows ->
    collectClubs rows existing = Raise IndexError.
Proof.
  induction rows as [|r rows IH]; intros existing Hex.
  - inversion Hex.
  - simpl. unfold collectClubs_row, getitem.
    destruct (nth_error r 4) as [club|] eqn:E4; [|reflexivity].
    destruct (nth_error r 5) as [season|] eqn:E5; [|reflexivity].
    assert (Hlong : ~ List.length r < 6).
    { assert (nth_error r 5 <> None) by congruence.
      apply nth_error_Some in H. lia. }
    assert (Hrest : Exists (fun r => List.length r < 6) rows).
    { inversion Hex; subst; [contradiction | assumption]. }
    simpl.
    destruct (PyDict.get String.eqb season existing) as [clubs|]; simpl;
      [destruct (negb (str_in club clubs)); simpl|]; now apply IH.
Qed.

(** X10. [readCSV] keeps every line, whatever it holds, and a line with
    [k] commas becomes a row of [k + 1] fields.  [collectClubs] run on
    the rows read raises [IndexError] exactly when some line has fewer
    than five commas (a blank line, for one), and returns a partition
    otherwise: no row is skipped. *)
Theorem collectClubs_aborts_on_short_line
        (lines : list string) (existing : existing_clubs) :
  List.length (readCSV lines) = List.length lines
  /\ map (@List.length string) (readCSV lines)
     = map (fun l => S (count_commas (remove_newlines l))) lines
  /\ (Exists (fun l => count_commas (remove_newlines l) < 5) lines ->
      collectClubs (readCSV lines) existing = Raise IndexError)
  /\ (Forall (fun l => 5 <= count_commas (remove_newlines l)) lines ->
      exists existing', collectClubs (readCSV lines) existing = Ok existing').
Proof.
  unfold readCSV. split; [apply length_map|]. split.
  { rewrite map_map. apply map_ext. intro l. apply split_commas_fields. }
  split.
  - intro Hex. apply collectClubs_short_row.
    apply Exists_exists in Hex. destruct Hex as (l & Hl & Hc).
    apply Exists_exists. exists (split_commas (remove_newlines l)).
    split; [apply in_map_iff; now exists l|].
    rewrite split_commas_fields. lia.
  - intro Hall.
    assert (Hwf : Forall well_formed_player
                    (map (fun row => split_commas (remove_newlines row)) lines)).
    { apply Forall_forall. intros r Hr. apply in_map_iff in Hr.
      destruct Hr as (l & <- & Hl). unfold well_formed_player.
      rewrite split_commas_fields.
      rewrite Forall_forall in Hall. specialize (Hall l Hl). lia. }
    destruct (collectClubs_from Hwf existing) as (e & E & _).
    now exists e.
Qed.

(** ** What insertPlayers leaves behind *)

Lemma insertPlayers_row_cases (club_ids : club_ids_t) (player_id : nat)
      (name_ids : name_ids_t) (player : row) (conn : Conn) :
  (exists e,
      insertPlayers_row club_ids player_id name_ids player conn
      = (Raise e, conn))
  \/ (exists prow cand key,
         playerID prow = player_id /\ id_of cand = player_id
         /\ insertPlayers_row club_ids player_id name_ids player conn
            = (Ok (PyDict.set pair_eqb key
                     (match PyDict.get pair_eqb key name_ids with
                      | Some known => known
                      | None => []
                      end ++ [cand]) name_ids),
               mkConn (committed conn) (add_player prow (working conn)))).
Proof.
  unfold insertPlayers_row, bindM, lift.
  destruct (getitem player 0) as [p0|e]; [|left; now exists e].
  destruct (getitem player 1) as [p1|e]; [|left; now exists e].
  destruct (getitem player 2) as [p2|e]; [|left; now exists e].
  destruct (getitem player 3) as [p3|e]; [|left; now exists e].
  destruct (getitem player 5) as [p5|e]; [|left; now exists e].
  destruct (getitem player 4) as [p4|e]; [|left; now exists e].
  destruct (PyDict.getitem pair_eqb (p5, p4) club_ids) as [club|e];
    [|left; now exists e].
  right. exists (mkPlayerRow player_id p0 p1 p2 p3 club p5),
    (player_id, p0, p1), (p4, p5).
  split; [reflexivity|]. split; [reflexivity|].
  unfold execute, ret.
  now destruct (PyDict.get pair_eqb (p4, p5) name_ids).
Qed.

Lemma add_players_nil (s : Store) : add_players [] s = s.
Proof. unfold add_players. rewrite app_nil_r. now destruct s. Qed.

Lemma insertPlayers_loop_any (club_ids : club_ids_t) (rows : list row) :
  forall (player_id : nat) (name_ids : name_ids_t) (conn : Conn),
    let outcome :=
      insertPlayers_loop club_ids rows player_id name_ids conn in
    committed (snd outcome) = committed conn
    /\ exists added,
        working (snd outcome) = add_players added (working conn)
        /\ map playerID added = seq player_id (List.length added)
        /\ match fst outcome with
           | Ok name_ids' =>
               List.length added = List.length rows
               /\ forall key team c,
                   PyDict.get pair_eqb key name_ids' = Some team ->
                   In c team ->
                   (exists team0,
                       PyDict.get pair_eqb key name_ids = Some team0
                       /\ In c team0)
                   \/ player_id <= id_of c < player_id + List.length rows
           | Raise _ => List.length added <= List.length rows
           end.
Proof.
  induction rows as [|r rows IH]; intros player_id name_ids conn outcome.
  - subst outcome. simpl. split; [reflexivity|]. exists []. split.
    + now rewrite add_players_nil.
    + split; [reflexivity|]. split; [reflexivity|].
      intros key team c Hget Hin. left. now exists team.
  - subst outcome. cbn [insertPlayers_loop]. unfold bindM.
    destruct (insertPlayers_row_cases club_ids player_id name_ids r conn)
      as [(e & E) | (prow & cand & key & Hp & Hc & E)]; rewrite E.
    + simpl. split; [reflexivity|]. exists []. split.
      * now rewrite add_players_nil.
      * split; [reflexivity | simpl; lia].
    + match goal with
      | |- context [insertPlayers_loop _ _ _ ?n ?c] =>
          destruct (IH (player_id + 1) n c) as (Hcom & added & Hw & Hk & Hres)
      end.
      split; [exact Hcom|]. exists (prow :: added). split.
      * rewrite Hw. unfold add_players, add_player. simpl.
        now rewrite <- app_assoc.
      * split.
        -- simpl. rewrite Hp, Hk. f_equal. f_equal. lia.
        -- match goal with
           | |- match fst ?o with _ => _ end =>
               destruct (fst o) as [name_ids'|e]
           end.
           ++ destruct Hres as (Hlen & Hids). split; [simpl; lia|].
              intros k team c Hget Hin.
              destruct (Hids k team c Hget Hin) as [(team0 & G0 & Hin0) | Hr];
                [|right; simpl; lia].
              destruct (pair_eqb key k) eqn:Ek.
              ** apply pair_eqb_eq in Ek. subst k.
                 rewrite (get_set_same _ pair_eqb_eq) in G0.
                 inversion G0; subst team0. apply in_app_or in Hin0.
                 destruct Hin0 as [Hold | [<- | []]].
                 --- left.
                     destruct (PyDict.get pair_eqb key name_ids) as [known|];
                       [now exists known | contradiction].
                 --- right. rewrite Hc. simpl. lia.
              ** rewrite (get_set_other _ pair_eqb_eq) in G0.
                 --- left. now exists team0.
                 --- intro Heq. rewrite Heq in Ek.
                     now rewrite (proj2 (pair_eqb_eq k k) eq_refl) in Ek.
           ++ simpl. lia.
Qed.

(** X4. [insertPlayers] commits once, after its loop.  If any row
    raises (too few fields, or a club that has no key) the persisted
    store is what it was before the call, whatever rows went before;
    if none does, the working store with one new row per input row,
    keyed 1, 2, ... in row order, is committed. *)
Theorem insertPlayers_all_or_nothing
        (club_ids : club_ids_t) (rows : list row) (conn : Conn) :
  match insertPlayers club_ids rows conn with
  | (Raise _, conn') => committed conn' = committed conn
  | (Ok _, conn') =>
      working conn' = committed conn'
      /\ exists added,
          committed conn' = add_players added (working conn)
          /\ map playerID added = seq 1 (List.length rows)
  end.
Proof.
  unfold insertPlayers, bindM.
  pose proof (insertPlayers_loop_any club_ids rows 1 [] conn) as H.
  simpl in H.
  destruct (insertPlayers_loop club_ids rows 1 [] conn) as [[name_ids|e] conn1].
  - simpl in *. destruct H as (_ & added & Hw & Hk & Hlen & _).
    split; [reflexivity|]. exists added. split; [exact Hw|].
    now rewrite Hk, Hlen.
  - simpl in *. tauto.
Qed.

(** ** Lineup values point at players *)

Lemma resolved_keys_in_pool (names : list string) :
  forall (team : pool) (k : nat),
    In k (resolved_keys (slot_outcomes names team)) -> In k (map id_of team).
Proof.
  clear levenshtein_distance strptime word_tokenize.
  induction names as [|n names IH]; intros team k; simpl; [intros []|].
  destruct (find (name_in_tuple n) team) as [c|] eqn:F; simpl.
  - intros [<- | Hk].
    + apply find_some in F. apply in_map. tauto.
    + apply IH in Hk. apply in_map_iff in Hk. destruct Hk as [p [E Hp]].
      apply filter_In in Hp. rewrite <- E. apply in_map. tauto.
  - apply IH.
Qed.

Lemma side_values_from_pool (names leftover : list string) (team : pool)
      (v : nat) :
  In v (similarity_pass (side_pass names (mkSide [] team leftover))) ->
  v = 0 \/ In v (map id_of team).
Proof.
  rewrite similarity_pass_eq.
  destruct (side_pass_outcomes names (mkSide [] team leftover)) as (Hv & Ht & _).
  simpl in Hv, Ht. rewrite Hv, Ht. intro Hin. apply in_app_or in Hin.
  destruct Hin as [Hin | Hin].
  - right. now apply resolved_keys_in_pool in Hin.
  - destruct (Nat.eq_dec v 0) as [-> | Hne]; [now left | right].
    apply (compareBigrams_once _ _ Hne) in Hin.
    apply in_map_iff in Hin. destruct Hin as [p [E Hp]].
    rewrite <- E. apply in_map. eapply pool_after_incl. exact Hp.
Qed.

Lemma roster_is_entry (name_ids : name_ids_t) (club_ids : club_ids_t)
      (club : string) (date_season : option string) (team : pool) :
  roster name_ids club_ids club date_season = Ok team ->
  exists key, PyDict.get pair_eqb key name_ids = Some team.
Proof.
  assert (Hget : forall v, name_ids_getitem v date_season name_ids = Ok team ->
                   exists key, PyDict.get pair_eqb key name_ids = Some team).
  { intros v. unfold name_ids_getitem, PyDict.getitem.
    destruct v as [n|c|]; try discriminate.
    destruct date_season as [s|]; try discriminate.
    destruct (PyDict.get pair_eqb (c, s) name_ids) as [t|] eqn:G;
      [|discriminate].
    intro H. inversion H; subst. now exists (c, s). }
  unfold roster.
  destruct (name_ids_getitem (PStr club) date_season name_ids) as [t|e] eqn:G.
  - intro H. inversion H; subst. now apply (Hget (PStr club)).
  - destruct e; try discriminate. apply Hget.
Qed.

Lemma lineup_values_sides (club_ids : club_ids_t) (name_ids : name_ids_t)
      (current_id : nat) (match_ : row) (vals : list nat) :
  lineup_values club_ids name_ids current_id match_ = Ok vals ->
  exists home_pool away_pool names_h left_h names_a left_a,
    (exists key, PyDict.get pair_eqb key name_ids = Some home_pool)
    /\ (exists key, PyDict.get pair_eqb key name_ids = Some away_pool)
    /\ vals
       = current_id
           :: similarity_pass (side_pass names_h (mkSide [] home_pool left_h))
           ++ similarity_pass (side_pass names_a (mkSide [] away_pool left_a)).
Proof.
  unfold lineup_values, bind.
  destruct (getitem match_ 3) as [m3|]; [|discriminate].
  destruct (dateToSeason m3) as [season|]; [|discriminate].
  destruct (getitem match_ 0) as [m0|]; [|discriminate].
  destruct (roster name_ids club_ids m0 season) as [hp|] eqn:Rh; [|discriminate].
  destruct (getitem match_ 1) as [m1|]; [|discriminate].
  destruct (roster name_ids club_ids m1 season) as [ap|] eqn:Ra; [|discriminate].
  destruct (negb _); [discriminate|].
  rewrite containment_pass_sides. intro H. inversion H.
  exists hp, ap. do 4 eexists.
  split; [eapply roster_is_entry; exact Rh|].
  split; [eapply roster_is_entry; exact Ra|]. reflexivity.
Qed.

Lemma lineup_values_keys
      (club_ids club_ids' : club_ids_t) (rows : list row)
      (conn conn' : Conn) (name_ids : name_ids_t)
      (current_id : nat) (match_ : row) (vals : list nat)
      (Hplayers : insertPlayers club_ids rows conn = (Ok name_ids, conn'))
      (Hvals : lineup_values club_ids' name_ids current_id match_ = Ok vals) :
  hd_error vals = Some current_id
  /\ forall v, In v (tl vals) ->
       v = 0
       \/ (1 <= v <= List.length rows
           /\ exists p, In p (Players (committed conn')) /\ playerID p = v).
Proof.
  unfold insertPlayers, bindM in Hplayers.
  pose proof (insertPlayers_loop_any club_ids rows 1 [] conn) as H.
  simpl in H.
  destruct (insertPlayers_loop club_ids rows 1 [] conn) as [[n|e] conn1];
    [|discriminate].
  simpl in H, Hplayers. inversion Hplayers; subst n conn'. clear Hplayers.
  destruct H as (_ & added & Hw & Hk & Hlen & Hids). simpl.
  assert (Hkey : forall key team c,
             PyDict.get pair_eqb key name_ids = Some team -> In c team ->
             1 <= id_of c <= List.length rows
             /\ exists p, In p (Players (working conn1)) /\ playerID p = id_of c).
  { intros key team c Hget Hin.
    destruct (Hids key team c Hget Hin) as [(t0 & G0 & _) | Hr];
      [discriminate|].
    split; [lia|]. rewrite Hw. unfold add_players. simpl.
    assert (Hin' : In (id_of c) (map playerID added)).
    { rewrite Hk, Hlen. apply in_seq. lia. }
    apply in_map_iff in Hin'. destruct Hin' as (p & Hp & Hpin).
    exists p. split; [apply in_or_app; now right | exact Hp]. }
  destruct (lineup_values_sides _ _ _ _ Hvals)
    as (hp & ap & nh & lh & na & la & (kh & Gh) & (ka & Ga) & ->).
  split; [reflexivity|]. simpl. intros v Hin. apply in_app_or in Hin.
  destruct Hin as [Hin | Hin]; apply side_values_from_pool in Hin;
    destruct Hin as [-> | Hin]; try (now left); right;
    apply in_map_iff in Hin; destruct Hin as (c & <- & Hc).
  - exact (Hkey kh hp c Gh Hc).
  - exact (Hkey ka ap c Ga Hc).
Qed.

(** X1. Let the rosters be those a successful [insertPlayers] returned.
    Whatever the lineup row, the value list [insertLineups] binds is the
    lineup key followed by values that are 0 or the key of a [Players]
    row the same [insertPlayers] committed: a reader that skips 0, like
    [buildSets], finds a player for every other value. *)
Theorem lineup_values_are_player_keys
        (club_ids club_ids' : club_ids_t) (rows : list row)
        (conn conn' : Conn) (name_ids : name_ids_t)
        (current_id : nat) (match_ : row) (vals : list nat)
        (Hplayers : insertPlayers club_ids rows conn = (Ok name_ids, conn'))
        (Hvals : lineup_values club_ids' name_ids current_id match_ = Ok vals) :
  hd_error vals = Some current_id
  /\ forall v, In v (tl vals) ->
       v = 0
       \/ (1 <= v <= List.length rows
           /\ exists p, In p (Players (committed conn')) /\ playerID p = v).
Proof.
  eapply lineup_values_keys; eassumption.
Qed.

(** ** How many values a side gets *)






(** ** A match in a season without clubs *)

Lemma closer_no_season (entered_club : string)
      (items : list (string * string * nat)) :
  fold_left (closer None entered_club) items None = None.
Proof.
  induction items as [|[[s c] id] items IH]; simpl; [reflexivity | exact IH].
Qed.

Lemma resolve_unknown_season (club_ids : club_ids_t)
      (season : option string) (club : string) :
  (forall s, season = Some s ->
             forall c id, ~ In ((s, c), id) (PyDict.items club_ids)) ->
  resolve_club_id club_ids season club = Ok PType
  /\ findClubLevenshtein false season club club_ids = PType.
Proof.
  intro Hnone. unfold resolve_club_id, club_ids_getitem, findClubLevenshtein.
  destruct season as [s|].
  - assert (Hget : PyDict.get pair_eqb (s, club) club_ids = None).
    { destruct (PyDict.get pair_eqb (s, club) club_ids) as [id|] eqn:G;
        [|reflexivity].
      apply (get_Some_In pair_eqb pair_eqb_eq) in G.
      now elim (Hnone s eq_refl club id). }
    unfold PyDict.getitem. rewrite Hget.
    pose proof (closer_scan s club (PyDict.items club_ids) None) as H.
    destruct (fold_left (closer (Some s) club) (PyDict.items club_ids) None)
      as [[[best id] c]|]; [|split; reflexivity].
    exfalso. destruct H as (_ & _ & [Habs | (i & Hi & _)]); [discriminate|].
    apply nth_error_In in Hi. now elim (Hnone s eq_refl c id).
  - rewrite closer_no_season. split; reflexivity.
Qed.

(** X5. When the date of a match parses but maps to no season (on or
    after 2020-05-30), or to a season for which the club key table has
    no entry, the club resolver returns the type object of the initial
    [greatest_similarity] tuple instead of a key, the INSERT of the
    match row raises on it, and nothing of the match is persisted or
    left pending. *)
Theorem match_in_unknown_season_aborts
        (club_ids : club_ids_t) (name_ids : name_ids_t) (current_id : nat)
        (match_ : row) (conn : Conn) (d : date)
        (Hlen : 4 <= List.length match_)
        (Hdate : strptime (nth 3 match_ EmptyString) = Some d)
        (Hnone : forall s, first_boundary d season_boundaries = Some s ->
                   forall c id, ~ In ((s, c), id) (PyDict.items club_ids)) :
  resolve_club_id club_ids (first_boundary d season_boundaries)
                  (nth 0 match_ EmptyString) = Ok PType
  /\ insertMatches_row club_ids name_ids current_id match_ conn
     = (Raise BindingError, conn).
Proof.
  destruct (@resolve_unknown_season club_ids
              (first_boundary d season_boundaries)
              (nth 0 match_ EmptyString) Hnone) as [Hhome _].
  destruct (@resolve_unknown_season club_ids
              (first_boundary d season_boundaries)
              (nth 1 match_ EmptyString) Hnone) as [Haway _].
  split; [exact Hhome|].
  unfold insertMatches_row, bindM, lift.
  replace (List.length match_ <? 4) with false
    by (symmetry; apply Nat.ltb_ge; lia).
  rewrite !(getitem_nth match_ EmptyString) by lia.
  unfold dateToSeason. rewrite Hdate, Hhome, Haway. reflexivity.
Qed.

(** ** Clubs and players of one run *)

Lemma add_clubs_nil (s : Store) : add_clubs [] s = s.
Proof. unfold add_clubs. rewrite app_nil_r. now destruct s. Qed.

Lemma insertClubs_loop_rows (items : list (string * string * nat)) :
  forall conn : Conn,
    insertClubs_loop items conn
    = (Ok tt,
       mkConn (committed conn)
              (add_clubs
                 (map (fun item : string * string * nat =>
                         mkClubRow (snd item) (snd (fst item)) (fst (fst item)))
                      items)
                 (working conn))).
Proof.
  induction items as [|[club id] items IH]; intro conn; simpl.
  - unfold ret. rewrite add_clubs_nil. now destruct conn.
  - unfold bindM, execute. rewrite IH. simpl. f_equal. f_equal.
    unfold add_clubs, add_club. simpl. now rewrite <- app_assoc.
Qed.

Lemma insertClubs_rows (club_ids : club_ids_t) (conn : Conn) :
  insertClubs club_ids conn
  = (Ok tt,
     mkConn (add_clubs (club_rows club_ids) (working conn))
            (add_clubs (club_rows club_ids) (working conn))).
Proof.
  unfold insertClubs, bindM. rewrite insertClubs_loop_rows. reflexivity.
Qed.

Lemma club_ids_of_items (rows : list row) :
  PyDict.items (club_ids_of rows)
  = combine (season_club_pairs (partition_of rows))
            (seq 1 (List.length (season_club_pairs (partition_of rows)))).
Proof. apply assignClubIDs_consecutive, partition_pairs_NoDup. Qed.

Lemma club_ids_of_keys (rows : list row) :
  PyDict.keys (club_ids_of rows) = season_club_pairs (partition_of rows).
Proof.
  unfold PyDict.keys. change (club_ids_of rows) with (PyDict.items (club_ids_of rows)).
  rewrite club_ids_of_items. apply keys_combine. now rewrite length_seq.
Qed.

Lemma club_ids_of_row (rows : list row) (player : row) :
  In player rows ->
  PyDict.get pair_eqb (season_of player, club_of player) (club_ids_of rows)
  <> None.
Proof.
  intros Hp Hnone. apply (get_None_keys _ pair_eqb_eq) in Hnone.
  apply Hnone. rewrite club_ids_of_keys. now apply partition_pairs_In.
Qed.

Lemma club_ids_of_values (rows : list row) :
  map snd (PyDict.items (club_ids_of rows))
  = seq 1 (List.length (season_club_pairs (partition_of rows))).
Proof.
  rewrite club_ids_of_items. apply values_combine. now rewrite length_seq.
Qed.

Lemma insertPlayers_of_rows (rows : list row) (conn : Conn) :
  Forall well_formed_player rows ->
  exists name_ids,
    insertPlayers (club_ids_of rows) rows conn
    = (Ok name_ids,
       mkConn (add_players (player_rows (club_ids_of rows) 1 rows)
                           (working conn))
              (add_players (player_rows (club_ids_of rows) 1 rows)
                           (working conn)))
    /\ forall key,
        PyDict.get pair_eqb key name_ids = nonempty (roster_from 1 key rows).
Proof.
  intro Hwf.
  destruct (insertPlayers_loop_ok (club_ids_of rows) Hwf
              (club_ids_of_row rows) 1 [] conn) as (n & E & G).
  exists n. unfold insertPlayers, bindM. rewrite E. simpl.
  split; [reflexivity|]. intro key. now rewrite G.
Qed.

Lemma nth_error_numbered (A : Type) (l : list A) :
  forall (start i : nat) (a : A),
    nth_error l i = Some a ->
    nth_error (combine (seq start (List.length l)) l) i = Some (start + i, a).
Proof.
  induction l as [|x l IH]; intros start [|i] a H; simpl in *;
    try discriminate.
  - inversion H. now rewrite Nat.add_0_r.
  - rewrite (IH (S start) i a H). f_equal. f_equal. lia.
Qed.

(** X7. Run [insertPlayers] and then [insertClubs] on the key table of
    well-formed player rows.  Both succeed; the [Clubs] rows have
    pairwise distinct keys; and the [Players] row of the i-th input row
    has key i + 1 and carries the key of a [Clubs] row whose name and
    season are the club and the season of that input row. *)
Theorem players_reference_their_club (rows : list row)
        (Hwf : Forall well_formed_player rows) :
  exists name_ids conn1 conn2,
    insertPlayers (club_ids_of rows) rows fresh_conn = (Ok name_ids, conn1)
    /\ insertClubs (club_ids_of rows) conn1 = (Ok tt, conn2)
    /\ working conn2 = committed conn2
    /\ NoDup (map clubID (Clubs (committed conn2)))
    /\ List.length (Players (committed conn2)) = List.length rows
    /\ forall i player,
        nth_error rows i = Some player ->
        exists p c,
          nth_error (Players (committed conn2)) i = Some p
          /\ playerID p = i + 1
          /\ player_season p = season_of player
          /\ In c (Clubs (committed conn2))
          /\ clubID c = player_clubID p
          /\ club_name c = club_of player
          /\ club_season c = season_of player.
Proof.
  destruct (insertPlayers_of_rows fresh_conn Hwf) as (n & E & _).
  do 3 eexists. split; [exact E|]. split; [apply insertClubs_rows|].
  simpl. split; [reflexivity|]. split.
  { unfold club_rows. rewrite map_map. simpl.
    rewrite <- (map_map snd (fun x => x)), map_id, club_ids_of_values.
    apply seq_NoDup. }
  split.
  { unfold player_rows. rewrite length_map, length_combine, length_seq. lia. }
  intros i player Hi.
  destruct (PyDict.get pair_eqb (season_of player, club_of player)
                       (club_ids_of rows)) as [id|] eqn:G.
  2:{ exfalso. apply (club_ids_of_row rows player); [|exact G].
      eapply nth_error_In. exact Hi. }
  exists (mkPlayerRow (i + 1)
            (nth 0 player EmptyString) (nth 1 player EmptyString)
            (nth 2 player EmptyString) (nth 3 player EmptyString)
            id (season_of player)),
    (mkClubRow id (club_of player) (season_of player)).
  simpl. repeat split.
  - unfold player_rows. rewrite nth_error_map.
    rewrite (nth_error_numbered rows 1 i Hi). simpl.
    rewrite G. now rewrite Nat.add_1_r.
  - unfold club_rows. apply in_map_iff.
    exists ((season_of player, club_of player), id). split; [reflexivity|].
    now apply (get_Some_In pair_eqb pair_eqb_eq).
Qed.

(** ** A match of a known season *)







Lemma unresolved_names_incl (outcomes : list (string * option nat)) (x : string) :
  In x (unresolved_names outcomes) -> In x (map fst outcomes).
Proof.
  induction outcomes as [|[n [k|]] outcomes IH]; simpl; auto.
  intros [H | H]; auto.
Qed.

Lemma unresolved_not_resolved (outcomes : list (string * option nat)) :
  NoDup (map fst outcomes) ->
  forall n, In n (unresolved_names outcomes) ->
            ~ In n (resolved_names outcomes).
Proof.
  induction outcomes as [|[m [k|]] outcomes IH]; simpl; intros Hnd n Hu Hr;
    [contradiction| |]; inversion Hnd as [|? ? Hout Hnd']; subst.
  - destruct Hr as [<- | Hr].
    + apply Hout. now apply unresolved_names_incl.
    + now apply (IH Hnd' n).
  - destruct Hu as [<- | Hu].
    + apply Hout. now apply resolved_names_incl.
    + now apply (IH Hnd' n).
Qed.

Lemma NoDup_no_dropped_slot (names : list string) (team : pool) :
  NoDup names -> dropped_slots names team = [].
Proof.
  intro Hnd. unfold dropped_slots.
  assert (Hall : forall n, In n (unresolved_names (slot_outcomes names team)) ->
                   str_in n (resolved_names (slot_outcomes names team)) = false).
  { intros n Hn. apply str_in_false. apply unresolved_not_resolved; [|exact Hn].
    now rewrite slot_outcomes_names. }
  induction (unresolved_names (slot_outcomes names team)) as [|a l IH];
    [reflexivity|].
  simpl. rewrite (Hall a (or_introl eq_refl)). apply IH.
  intros n Hn. apply Hall. now right.
Qed.


(** ** The loop over the matches *)






(** ** Names without bigrams *)

Lemma common_bigrams_nil (theirs : list string) : common_bigrams theirs [] = 0.
Proof.
  apply common_bigrams_none. intros b [].
Qed.

(** X8. A slot name in which no token has two characters or more (a
    name made of initials, or an empty name) has no bigram: it scores 0
    against every candidate, and [compareBigrams] gives its slot the
    value 0 whatever the pool holds. *)
Theorem name_without_bigrams_gets_null
        (player : string) (rest : list string) (team_ids : pool)
        (Hshort : forall tok,
            In tok (word_tokenize (remove_stops player)) ->
            String.length tok <= 1) :
  generateBigrams player = []
  /\ (forall c, candidate_score (generateBigrams player) c = 0)
  /\ most_similar player team_ids = (0, 0)
  /\ compareBigrams (player :: rest) team_ids
     = 0 :: compareBigrams rest
              (filter (fun p => negb (id_of p =? 0)) team_ids).
Proof.
  assert (Hnil : generateBigrams player = []).
  { unfold generateBigrams.
    replace (filter (fun name => 1 <? String.length name)
                    (word_tokenize (remove_stops player))) with (@nil string);
      [reflexivity|].
    symmetry.
    induction (word_tokenize (remove_stops player)) as [|tok toks IH];
      [reflexivity|].
    simpl. replace (1 <? String.length tok) with false.
    - apply IH. intros t Ht. apply Hshort. now right.
    - symmetry. apply Nat.ltb_ge. apply Hshort. now left. }
  assert (Hscore : forall c, candidate_score (generateBigrams player) c = 0).
  { intro c. rewrite Hnil. unfold candidate_score, short_score, long_score.
    now rewrite !common_bigrams_nil. }
  assert (Hbest : most_similar player team_ids = (0, 0)).
  { pose proof (most_similar_scan (generateBigrams player) team_ids (0, 0))
      as H.
    simpl in H. destruct H as (_ & _ & [Heq | (i & c & _ & _ & Hs & _)]).
    - exact Heq.
    - rewrite Hscore in Hs. lia. }
  split; [exact Hnil|]. split; [exact Hscore|]. split; [exact Hbest|].
  now rewrite compareBigrams_cons, Hbest.
Qed.

(** ** Reading the ingested store *)

Lemma insertPlayers_store (club_ids : club_ids_t) (rows : list row)
      (conn conn' : Conn) (name_ids : name_ids_t) :
  insertPlayers club_ids rows conn = (Ok name_ids, conn') ->
  exists added,
    conn' = mkConn (add_players added (working conn))
                   (add_players added (working conn)).
Proof.
  clear levenshtein_distance strptime word_tokenize.
  unfold insertPlayers, bindM. intro H.
  pose proof (insertPlayers_loop_any club_ids rows 1 [] conn) as L.
  simpl in L.
  destruct (insertPlayers_loop club_ids rows 1 [] conn) as [[n|e] conn1];
    [|discriminate].
  simpl in L, H. inversion H; subst n conn'.
  destruct L as (_ & added & Hw & _). exists added. now rewrite Hw.
Qed.

Lemma insertMatches_row_ok
      (club_ids : club_ids_t) (name_ids : name_ids_t)
      (current_id : nat) (match_ : row) (conn conn' : Conn) :
  insertMatches_row club_ids name_ids current_id match_ conn = (Ok tt, conn') ->
  exists u,
    unit_of current_id u
    /\ lineup_values club_ids name_ids current_id match_ = Ok (snd u)
    /\ conn' = mkConn (add_unit u (working conn)) (add_unit u (working conn))
    /\ score (fst u) = nth 2 match_ EmptyString.
Proof.
  unfold insertMatches_row, bindM, lift.
  destruct (List.length match_ <? 4); [discriminate|].
  destruct (getitem match_ 3) as [m3|e]; [|discriminate].
  destruct (dateToSeason m3) as [season|e]; [|discriminate].
  destruct (strptime m3) as [d|]; [|discriminate].
  destruct (getitem match_ 0) as [m0|e]; [|discriminate].
  destruct (resolve_club_id club_ids season m0) as [home|e]; [|discriminate].
  destruct (getitem match_ 1) as [m1|e]; [|discriminate].
  destruct (resolve_club_id club_ids season m1) as [away|e]; [|discriminate].
  destruct (getitem match_ 2) as [m2|e] eqn:E2; [|discriminate].
  destruct home as [h| |]; try discriminate.
  destruct away as [a| |]; try discriminate.
  unfold execute, commitChanges, insertClubMatch, execute.
  cbn [committed working fst snd].
  set (m := mkMatchRow current_id season h a m2 current_id (strftime_iso d)).
  match goal with
  | |- context [insertLineups _ _ _ _ ?c] =>
      destruct (insertLineups_cases club_ids name_ids current_id match_ c)
        as [(e & E) | (vals & Hv & H23 & E)]; rewrite E
  end; [discriminate|].
  intro H. inversion H. exists (m, vals).
  split; [|split; [exact Hv | split; [reflexivity|]]].
  - unfold unit_of. simpl. repeat split; auto.
    eapply lineup_values_head. exact Hv.
  - simpl. unfold getitem in E2.
    destruct (nth_error match_ 2) as [x|] eqn:N; [|discriminate].
    inversion E2; subst x. symmetry. now apply nth_error_nth.
Qed.

Lemma insertMatches_loop_ok
      (club_ids : club_ids_t) (name_ids : name_ids_t) (rows : list row) :
  forall (current_id : nat) (conn conn' : Conn),
    insertMatches_loop club_ids name_ids rows current_id conn = (Ok tt, conn') ->
    exists units,
      Forall2 (fun id u =>
                 unit_of id u
                 /\ exists match_,
                     lineup_values club_ids name_ids id match_ = Ok (snd u))
              (seq current_id (List.length rows)) units
      /\ (conn' = conn \/ committed conn' = working conn')
      /\ working conn' = add_units units (working conn)
      /\ map (fun u => score (fst u)) units
         = map (fun r => nth 2 r EmptyString) rows.
Proof.
  induction rows as [|r rows IH]; intros current_id conn conn' H.
  - inversion H. exists []. simpl. split; [constructor|]. auto.
  - cbn [insertMatches_loop] in H. unfold bindM in H.
    destruct (insertMatches_row club_ids name_ids current_id r conn)
      as [[[]|e] c1] eqn:E; [|discriminate].
    apply insertMatches_row_ok in E. destruct E as (u & Hu & Hv & -> & Hs).
    apply IH in H. destruct H as (units & Hunits & Hc & Hw & Hsc).
    exists (u :: units). split; [|split; [|split]].
    + simpl. constructor.
      * split; [exact Hu | now exists r].
      * now rewrite Nat.add_1_r in Hunits.
    + right. destruct Hc as [-> | Hc]; [reflexivity | exact Hc].
    + exact Hw.
    + simpl. now rewrite Hs, Hsc.
Qed.

Lemma add_units_tables (us : list (MatchRow * list nat)) :
  forall s : Store,
    Players (add_units us s) = Players s
    /\ Matches (add_units us s) = Matches s ++ map fst us
    /\ Lineups (add_units us s) = Lineups s ++ map snd us.
Proof.
  clear levenshtein_distance strptime word_tokenize.
  unfold add_units.
  induction us as [|u us IH]; intro s; simpl.
  - now rewrite !app_nil_r.
  - destruct (IH (add_unit u s)) as (P & Mt & L).
    rewrite P, Mt, L. simpl. now rewrite <- !app_assoc.
Qed.

Lemma units_in_range (P : nat -> MatchRow * list nat -> Prop)
      (us : list (MatchRow * list nat)) :
  forall first ids,
    ids = seq first (List.length ids) ->
    Forall2 P ids us ->
    forall u, In u us ->
      exists id, first <= id < first + List.length us /\ P id u.
Proof.
  clear levenshtein_distance strptime word_tokenize.
  induction us as [|u0 us IH]; intros first ids Hids F u Hin; [contradiction|].
  inversion F as [|id ? ids' ? Hp F']; subst. simpl in Hids.
  inversion Hids as [[Hid Hrest]].
  destruct Hin as [-> | Hin].
  - exists first. simpl. split; [lia|]. now rewrite Hid in Hp.
  - destruct (IH (S first) ids' Hrest F' u Hin) as (id' & Hr & Hp').
    exists id'. simpl. split; [lia | exact Hp'].
Qed.

Lemma lineups_with_unit (us : list (MatchRow * list nat)) :
  forall first,
    Forall2 (fun id u => unit_of id u) (seq first (List.length us)) us ->
    forall u, In u us ->
      filter (fun l => nth 0 l 0 =? lineupID (fst u)) (map snd us) = [snd u].
Proof.
  clear levenshtein_distance strptime word_tokenize.
  assert (Hhead : forall id (u : MatchRow * list nat),
             unit_of id u -> lineupID (fst u) = id /\ nth 0 (snd u) 0 = id).
  { intros id u (_ & Hl & Hh & _). split; [exact Hl|].
    destruct (snd u); simpl in *; [discriminate | now inversion Hh]. }
  induction us as [|u0 us IH]; intros first F u Hin; [contradiction|].
  simpl in F. inversion F as [|? ? ? ? Hu0 F']; subst.
  destruct (Hhead _ _ Hu0) as (Hl0 & Hn0).
  assert (Hlater : forall u', In u' us ->
             first < lineupID (fst u') /\ first < nth 0 (snd u') 0).
  { intros u' Hu'.
    destruct (@units_in_range (fun id u => unit_of id u) us (S first)
                (seq (S first) (List.length us))) with (u := u')
      as (id & Hr & Hp); auto.
    - now rewrite length_seq.
    - destruct (Hhead _ _ Hp) as (-> & ->). lia. }
  simpl. destruct Hin as [-> | Hin].
  - rewrite Hn0, Hl0, Nat.eqb_refl. f_equal.
    clear IH F F'. induction us as [|u1 us IHus]; [reflexivity|].
    simpl. destruct (Hlater u1 (or_introl eq_refl)) as (_ & H1).
    destruct (nth 0 (snd u1) 0 =? first) eqn:E.
    + apply Nat.eqb_eq in E. lia.
    + apply IHus. intros u' Hu'. apply Hlater. now right.
  - destruct (Hlater u Hin) as (Hl & _).
    destruct (nth 0 (snd u0) 0 =? lineupID (fst u)) eqn:E.
    + apply Nat.eqb_eq in E. lia.
    + exact (IH (S first) F' u Hin).
Qed.

Lemma selectPlayer_found (db : Store) (id : nat) :
  (exists p, In p (Players db) /\ playerID p = id) ->
  exists player, selectPlayer db id = Some player /\ playerID player = id.
Proof.
  clear levenshtein_distance strptime word_tokenize.
  intros (p & Hin & Hp). unfold selectPlayer, fetchFirstSelection.
  destruct (filter (fun q => playerID q =? id) (Players db))
    as [|player rest] eqn:E.
  - assert (Hf : In p (filter (fun q => playerID q =? id) (Players db))).
    { apply filter_In. split; [exact Hin | now apply Nat.eqb_eq]. }
    rewrite E in Hf. contradiction.
  - exists player. split; [reflexivity|].
    assert (Hf : In player (filter (fun q => playerID q =? id) (Players db))).
    { rewrite E. now left. }
    apply filter_In in Hf. now apply Nat.eqb_eq.
Qed.

Lemma compose_teams_found (db : Store) (ids : list (nat * nat)) :
  (forall pr, In pr ids ->
     (fst pr = 0 \/ exists p, In p (Players db) /\ playerID p = fst pr)
     /\ (snd pr = 0 \/ exists p, In p (Players db) /\ playerID p = snd pr)) ->
  forall home_team away_team,
    exists home_added away_added,
      compose_teams db ids home_team away_team
      = Some (home_team ++ home_added, away_team ++ away_added)
      /\ map playerID home_added = known_ids (map fst ids)
      /\ map playerID away_added = known_ids (map snd ids).
Proof.
  clear levenshtein_distance strptime word_tokenize.
  assert (Hstep : forall id team,
             (id = 0 \/ exists p, In p (Players db) /\ playerID p = id) ->
             exists added,
               compose_player db id team = Some (team ++ added)
               /\ map playerID added = known_ids [id]).
  { intros id team H. unfold compose_player, known_ids. simpl.
    destruct (id =? 0) eqn:E; simpl.
    - exists []. now rewrite app_nil_r.
    - destruct H as [-> | H]; [discriminate|].
      destruct (selectPlayer_found db H) as (player & -> & Hp).
      exists [player]. simpl. now rewrite Hp. }
  induction ids as [|[h a] ids IH]; intros Hall home_team away_team.
  - exists [], []. simpl. now rewrite !app_nil_r.
  - destruct (Hall (h, a) (or_introl eq_refl)) as (Hh & Ha). simpl in Hh, Ha.
    destruct (Hstep h home_team Hh) as (ha & Eh & Hha).
    destruct (Hstep a away_team Ha) as (aa & Ea & Haa).
    cbn [compose_teams]. rewrite Eh, Ea.
    destruct (IH (fun pr Hin => Hall pr (or_intror Hin))
                 (home_team ++ ha) (away_team ++ aa))
      as (hr & ar & E & Hhr & Har).
    exists (ha ++ hr), (aa ++ ar). rewrite E, <- !app_assoc.
    split; [reflexivity|]. rewrite !map_app, Hha, Haa, Hhr, Har.
    unfold known_ids. simpl.
    destruct (h =? 0), (a =? 0); simpl; auto.
Qed.

Lemma in_prefix_or_rest (A : Type) (n : nat) (l : list A) (x : A) :
  In x (firstn n l) \/ In x (skipn n l) -> In x l.
Proof.
  clear levenshtein_distance strptime word_tokenize.
  intro H. rewrite <- (firstn_skipn n l). apply in_or_app. exact H.
Qed.

Lemma columns_of_row (l : list nat) :
  List.length l = 23 ->
  List.length (home_columns l) = 11 /\ List.length (away_columns l) = 11
  /\ forall pr, In pr (combine (home_columns l) (away_columns l)) ->
       In (fst pr) (tl l) /\ In (snd pr) (tl l).
Proof.
  clear levenshtein_distance strptime word_tokenize.
  intro H. unfold home_columns, away_columns.
  split; [|split].
  - rewrite length_firstn, length_skipn. lia.
  - rewrite length_firstn, length_skipn. lia.
  - intros [h a] Hin. simpl.
    pose proof (in_combine_l _ _ _ _ Hin) as Hh.
    pose proof (in_combine_r _ _ _ _ Hin) as Ha.
    destruct l as [|k l]; [discriminate|]. simpl in *.
    split.
    + apply (@in_prefix_or_rest _ 11). now left.
    + apply (@in_prefix_or_rest _ 11). right.
      apply (@in_prefix_or_rest _ 11). now left.
Qed.


Lemma zipped_columns (A : Type) (l1 : list A) :
  forall l2 : list A,
    List.length l1 = List.length l2 ->
    map fst (combine l1 l2) = l1 /\ map snd (combine l1 l2) = l2.
Proof.
  clear levenshtein_distance strptime word_tokenize.
  induction l1 as [|x l1 IH]; intros [|y l2] H; try discriminate.
  - now split.
  - simpl in H. injection H as H. destruct (IH l2 H) as (H1 & H2).
    simpl. now rewrite H1, H2.
Qed.

Lemma ingested_store_loads
      (player_values lineup_values_ : list row) (conn' : Conn)
      (Hrun : ingest player_values lineup_values_ fresh_conn
              = (Ok tt, conn')) :
  map score (getMatches (committed conn'))
  = map (fun r => nth 2 r EmptyString) lineup_values_
  /\ forall match_, In match_ (getMatches (committed conn')) ->
       exists home_ids away_ids home_team away_team,
         selectLineup (committed conn') (lineupID match_)
         = Some (home_ids, away_ids)
         /\ List.length home_ids = 11 /\ List.length away_ids = 11
         /\ match_teams (committed conn') match_
            = Some (home_team, away_team)
         /\ map playerID home_team = known_ids home_ids
         /\ map playerID away_team = known_ids away_ids.
Proof.
  unfold ingest, bindM, lift in Hrun.
  destruct (collectClubs player_values []) as [existing|e]; [|discriminate].
  destruct (insertPlayers (assignClubIDs existing) player_values fresh_conn)
    as [[name_ids|e] c1] eqn:Ep; [|discriminate].
  rewrite insertClubs_rows in Hrun. unfold insertMatches in Hrun.
  apply insertMatches_loop_ok in Hrun.
  destruct Hrun as (units & Hunits & Hc & Hw & Hsc).
  pose proof (fun id m vals =>
                @lineup_values_keys _ (assignClubIDs existing) _ _ _ _
                                    id m vals Ep) as Hkeys.
  destruct (@insertPlayers_store _ _ _ _ _ Ep) as (added & ->).
  cbn [working committed] in Hw, Hc, Hkeys.
  assert (Hdb : committed conn' = working conn').
  { destruct Hc as [-> | Hc]; [reflexivity | exact Hc]. }
  rewrite Hdb, Hw. clear Hc Hdb Hw.
  remember (add_clubs (club_rows (assignClubIDs existing))
                      (add_players added (working fresh_conn))) as s2 eqn:Es2.
  destruct (add_units_tables units s2) as (HP & HM & HL).
  assert (HP2 : Players s2 = Players (add_players added (working fresh_conn)))
    by now rewrite Es2.
  assert (HM2 : Matches s2 = []) by now rewrite Es2.
  assert (HL2 : Lineups s2 = []) by now rewrite Es2.
  rewrite HP2 in HP. rewrite HM2 in HM. rewrite HL2 in HL.
  change ([] ++ map fst units) with (map fst units) in HM.
  change ([] ++ map snd units) with (map snd units) in HL.
  clear HP2 HM2 HL2 Es2.
  assert (Hlen : List.length units = List.length lineup_values_).
  { apply Forall2_length in Hunits. now rewrite length_seq in Hunits. }
  assert (Hof : Forall2 (fun id u => unit_of id u)
                        (seq 1 (List.length units)) units).
  { rewrite Hlen. eapply Forall2_impl; [|exact Hunits].
    intros id u H. exact (proj1 H). }
  unfold getMatches, fetchSelection. rewrite HM.
  split; [now rewrite map_map|].
  intros match_ Hin. apply in_map_iff in Hin. destruct Hin as (u & <- & Hu).
  pose proof (@lineups_with_unit units 1 Hof u Hu) as Hrow.
  assert (Hseq : seq 1 (List.length lineup_values_)
                 = seq 1 (List.length (seq 1 (List.length lineup_values_))))
    by now rewrite length_seq.
  destruct (@units_in_range _ units 1 _ Hseq Hunits u Hu)
    as (id & _ & (_ & _ & _ & H23) & m & Hm).
  destruct (columns_of_row _ H23) as (Hh & Ha & Hcols).
  exists (home_columns (snd u)), (away_columns (snd u)).
  assert (Hsel : selectLineup (add_units units s2) (lineupID (fst u))
                 = Some (home_columns (snd u), away_columns (snd u))).
  { unfold selectLineup, lineups_with. rewrite HL, Hrow. reflexivity. }
  destruct (@compose_teams_found
              (add_units units s2)
              (combine (home_columns (snd u)) (away_columns (snd u))))
    with (home_team := @nil PlayerRow) (away_team := @nil PlayerRow)
    as (ht & awt & E & Hht & Hat).
  { intros pr Hpr. rewrite HP.
    destruct (Hcols pr Hpr) as (H1 & H2).
    destruct (Hkeys id m (snd u) Hm) as (_ & Hall).
    split.
    - destruct (Hall _ H1) as [-> | (_ & Hp)]; [now left | right; exact Hp].
    - destruct (Hall _ H2) as [-> | (_ & Hp)]; [now left | right; exact Hp]. }
  exists ht, awt. split; [exact Hsel|]. split; [exact Hh|].
  split; [exact Ha|]. unfold match_teams. rewrite Hsel.
  split; [exact E|].
  destruct (@zipped_columns _ (home_columns (snd u)) (away_columns (snd u)))
    as (Hfst & Hsnd); [now rewrite Hh, Ha|].
  rewrite Hfst in Hht. rewrite Hsnd in Hat. split; assumption.
Qed.

(** X11. After a run of the ingestion that ends without exception on a
    new database, [buildSets] can read back every match it finds: the
    store has one [Matches] row per lineup row of the input; for each,
    [selectLineup] on its lineup key finds a row and returns eleven home
    and eleven away values, and the loop that composes the two teams
    never fails in [selectPlayer]: each team gets, in slot order, the
    players whose keys are the values other than 0. *)
Theorem stored_lineups_load
        (player_values lineup_values_ : list row) (conn' : Conn)
        (Hrun : ingest player_values lineup_values_ fresh_conn
                = (Ok tt, conn')) :
  List.length (getMatches (committed conn')) = List.length lineup_values_
  /\ forall match_, In match_ (getMatches (committed conn')) ->
       exists home_ids away_ids home_team away_team,
         selectLineup (committed conn') (lineupID match_)
         = Some (home_ids, away_ids)
         /\ List.length home_ids = 11 /\ List.length away_ids = 11
         /\ match_teams (committed conn') match_
            = Some (home_team, away_team)
         /\ map playerID home_team = known_ids home_ids
         /\ map playerID away_team = known_ids away_ids.
Proof.
  destruct (ingested_store_loads _ _ Hrun) as (Hs & Hall).
  split; [|exact Hall].
  rewrite <- (length_map score), Hs. apply length_map.
Qed.

(** ** The club entry on the ingested store *)

Lemma first_club_key_get (d : club_ids_t) (season name : string) :
  first_club_key
    (map (fun c => (club_name c, clubID c))
         (filter (fun c => String.eqb (club_season c) season) (club_rows d)))
    name
  = match PyDict.get pair_eqb (season, name) d with
    | Some id => Ok id
    | None => Raise IndexError
    end.
Proof.
  clear levenshtein_distance strptime word_tokenize.
  unfold first_club_key, club_rows, PyDict.items, getitem.
  induction d as [|[[s c] id] d IH]; [reflexivity|].
  simpl in *. unfold pair_eqb. simpl.
  rewrite (String.eqb_sym season s), (String.eqb_sym name c).
  destruct (String.eqb s season); simpl; [|exact IH].
  destruct (String.eqb c name); simpl; [reflexivity | exact IH].
Qed.

Lemma menu_of_keys (d : club_ids_t) (season : string) :
  map club_name (filter (fun c => String.eqb (club_season c) season)
                        (club_rows d))
  = map snd (filter (fun k => String.eqb (fst k) season) (PyDict.keys d)).
Proof.
  clear levenshtein_distance strptime word_tokenize.
  unfold club_rows, PyDict.items, PyDict.keys.
  induction d as [|[[s c] id] d IH]; [reflexivity|].
  cbn [map filter club_season fst snd].
  destruct (String.eqb s season); cbn [map club_name snd]; now rewrite IH.
Qed.

Lemma season_block (g : string -> list string) (season : string)
      (seasons : list string) :
  NoDup seasons ->
  map snd (filter (fun k : string * string => String.eqb (fst k) season)
                  (flat_map (fun s => map (pair s) (g s)) seasons))
  = if str_in season seasons then g season else [].
Proof.
  clear levenshtein_distance strptime word_tokenize.
  assert (Hblock : forall s l,
             map snd (filter (fun k : string * string =>
                                String.eqb (fst k) season)
                             (map (pair s) l))
             = if String.eqb s season then l else []).
  { intros s l. induction l as [|x l IH]; simpl.
    - now destruct (String.eqb s season).
    - destruct (String.eqb s season); simpl; [now rewrite IH | exact IH]. }
  induction seasons as [|s seasons IH]; intro Hnd; [reflexivity|].
  inversion Hnd as [|? ? Hnotin Hnd']; subst.
  cbn [flat_map]. rewrite filter_app, map_app, Hblock, (IH Hnd').
  unfold str_in. cbn [existsb]. rewrite (String.eqb_sym season s).
  destruct (String.eqb_spec s season) as [-> | Hne]; simpl; [|reflexivity].
  fold (str_in season seasons).
  destruct (str_in season seasons) eqn:E; [|apply app_nil_r].
  exfalso. apply Hnotin. unfold str_in in E. apply existsb_exists in E.
  destruct E as (x & Hx & Ex). apply String.eqb_eq in Ex. now subst.
Qed.

Lemma menu_of_rows (rows : list row) (season : string) :
  map club_name (filter (fun c => String.eqb (club_season c) season)
                        (club_rows (club_ids_of rows)))
  = first_seen (clubs_of_season season rows).
Proof.
  clear levenshtein_distance strptime word_tokenize.
  rewrite menu_of_keys, club_ids_of_keys.
  unfold partition_of, season_club_pairs. rewrite flat_map_concat_map, map_map.
  rewrite <- flat_map_concat_map. cbn [fst snd].
  rewrite (@season_block (fun s => first_seen (clubs_of_season s rows)));
    [|apply first_seen_NoDup].
  destruct (str_in season (first_seen (map season_of rows))) eqn:E;
    [reflexivity|].
  assert (Hnone : clubs_of_season season rows = []).
  { unfold clubs_of_season.
    destruct (filter (fun r => String.eqb (season_of r) season) rows)
      as [|r rest] eqn:F; [reflexivity|].
    assert (Hr : In r (filter (fun r => String.eqb (season_of r) season) rows))
      by (rewrite F; now left).
    apply filter_In in Hr. destruct Hr as (Hr & Hs).
    apply String.eqb_eq in Hs.
    assert (Hin : In season (first_seen (map season_of rows))).
    { apply first_seen_In. rewrite <- Hs. now apply in_map. }
    assert (Ht : str_in season (first_seen (map season_of rows)) = true).
    { unfold str_in. apply existsb_exists. exists season.
      split; [exact Hin | apply String.eqb_refl]. }
    congruence. }
  now rewrite Hnone.
Qed.

Lemma club_key_of_rows (rows : list row) (season club : string) :
  In club (clubs_of_season season rows) ->
  exists id,
    PyDict.get pair_eqb (season, club) (club_ids_of rows) = Some id.
Proof.
  clear levenshtein_distance strptime word_tokenize.
  unfold clubs_of_season. intro H. apply in_map_iff in H.
  destruct H as (player & <- & Hin). apply filter_In in Hin.
  destruct Hin as (Hin & Hs). apply String.eqb_eq in Hs. subst season.
  pose proof (club_ids_of_row rows player Hin) as Hne.
  destruct (PyDict.get pair_eqb (season_of player, club_of player)
                       (club_ids_of rows)) as [id|]; [|contradiction].
  now exists id.
Qed.

Lemma club_keys_differ (rows : list row) (k1 k2 : string * string)
      (id1 id2 : nat) :
  PyDict.get pair_eqb k1 (club_ids_of rows) = Some id1 ->
  PyDict.get pair_eqb k2 (club_ids_of rows) = Some id2 ->
  (id1 = id2 <-> k1 = k2).
Proof.
  clear levenshtein_distance strptime word_tokenize.
  intros G1 G2. split; [|intros ->; congruence].
  intros ->.
  apply (get_Some_In pair_eqb pair_eqb_eq) in G1.
  apply (get_Some_In pair_eqb pair_eqb_eq) in G2.
  pose proof (club_ids_of_values rows) as Hv.
  assert (Hnd : NoDup (map snd (PyDict.items (club_ids_of rows)))).
  { rewrite Hv. apply seq_NoDup. }
  unfold PyDict.items in Hnd. revert G1 G2 Hnd.
  generalize (club_ids_of rows). intro d.
  induction d as [|[k v] d IH]; simpl; [contradiction|].
  intros G1 G2 Hnd. inversion Hnd as [|? ? Hnotin Hnd']; subst.
  destruct G1 as [G1 | G1], G2 as [G2 | G2].
  - congruence.
  - inversion G1; subst. exfalso. apply Hnotin.
    change id2 with (snd (k2, id2)). now apply in_map.
  - inversion G2; subst. exfalso. apply Hnotin.
    change id2 with (snd (k1, id2)). now apply in_map.
  - now apply IH.
Qed.

Lemma club_players_of_rows (club_ids : club_ids_t) (key : string * string)
      (id : nat) (rows : list row) :
  (forall player, In player rows ->
     (match PyDict.get pair_eqb (season_of player, club_of player)
                       club_ids with
      | Some id' => id'
      | None => 0
      end =? id)
     = pair_eqb (season_of player, club_of player) key) ->
  forall start,
    map player_name
        (filter (fun p => player_clubID p =? id)
                (player_rows club_ids start rows))
    = map (fun player => nth 0 player EmptyString)
          (filter (fun player =>
                     pair_eqb (season_of player, club_of player) key)
                  rows).
Proof.
  clear levenshtein_distance strptime word_tokenize.
  unfold player_rows.
  induction rows as [|r rows IH]; intros Hall start; [reflexivity|].
  cbn [List.length seq combine map filter fst snd player_clubID].
  rewrite (Hall r (or_introl eq_refl)).
  destruct (pair_eqb (season_of r, club_of r) key);
    cbn [map player_name]; rewrite (IH (fun p H => Hall p (or_intror H)));
    reflexivity.
Qed.

(** X12. Ingest well-formed player rows into a new database and open
    the club entry of the GUI for a season.  The clubs offered are the
    distinct clubs of that season's rows, in order of first appearance.
    For two different clubs among them [clubButton] raises nothing and
    shows no warning: it finds two different club keys, and the players
    it offers for either club are the short names of the rows of that
    club and season, in row order. *)
Theorem club_entry_offers_the_roster
        (rows : list row) (season home away : string)
        (Hwf : Forall well_formed_player rows)
        (Hhome : In home (clubs_of_season season rows))
        (Haway : In away (clubs_of_season season rows))
        (Hdiff : home <> away) :
  exists name_ids conn1 conn2 homeID awayID,
    insertPlayers (club_ids_of rows) rows fresh_conn = (Ok name_ids, conn1)
    /\ insertClubs (club_ids_of rows) conn1 = (Ok tt, conn2)
    /\ map fst (selectClubNames (committed conn2) season)
       = first_seen (clubs_of_season season rows)
    /\ clubButton (committed conn2)
                  (selectClubNames (committed conn2) season)
                  (Some home) (Some away)
       = Ok (ClubsChosen homeID awayID
                         (short_names_of home season rows)
                         (short_names_of away season rows))
    /\ homeID <> awayID.
Proof.
  clear levenshtein_distance strptime word_tokenize.
  destruct (insertPlayers_of_rows fresh_conn Hwf) as (name_ids & Ep & _).
  destruct (club_key_of_rows rows season home Hhome) as (hid & Gh).
  destruct (club_key_of_rows rows season away Haway) as (aid & Ga).
  exists name_ids. eexists. eexists. exists hid, aid.
  split; [exact Ep|]. split; [apply insertClubs_rows|].
  cbn [committed working fresh_conn].
  assert (Hclubs : forall s,
             selectClubNames
               (add_clubs (club_rows (club_ids_of rows))
                  (add_players (player_rows (club_ids_of rows) 1 rows)
                               empty_store)) s
             = map (fun c => (club_name c, clubID c))
                   (filter (fun c => String.eqb (club_season c) s)
                           (club_rows (club_ids_of rows)))).
  { reflexivity. }
  assert (Hplayers : forall id,
             selectPlayersFromClub
               (add_clubs (club_rows (club_ids_of rows))
                  (add_players (player_rows (club_ids_of rows) 1 rows)
                               empty_store)) id
             = map player_name
                   (filter (fun p => player_clubID p =? id)
                           (player_rows (club_ids_of rows) 1 rows))).
  { reflexivity. }
  assert (Hroster : forall club id,
             PyDict.get pair_eqb (season, club) (club_ids_of rows) = Some id ->
             map player_name
                 (filter (fun p => player_clubID p =? id)
                         (player_rows (club_ids_of rows) 1 rows))
             = short_names_of club season rows).
  { intros club id G. unfold short_names_of.
    apply club_players_of_rows. intros player Hin.
    pose proof (club_ids_of_row rows player Hin) as Hne.
    destruct (PyDict.get pair_eqb (season_of player, club_of player)
                         (club_ids_of rows)) as [id'|] eqn:G';
      [|contradiction].
    pose proof (club_keys_differ rows _ _ G' G) as Hiff.
    destruct (Nat.eqb_spec id' id) as [E | E].
    - symmetry. apply pair_eqb_eq. now apply Hiff.
    - destruct (pair_eqb (season_of player, club_of player) (season, club))
        eqn:P; [|reflexivity].
      apply pair_eqb_eq in P. apply Hiff in P. contradiction. }
  split; [|split].
  - rewrite Hclubs, map_map. cbn [fst]. apply menu_of_rows.
  - unfold clubButton.
    destruct (String.eqb_spec home away) as [E | _]; [contradiction|].
    rewrite Hclubs, !first_club_key_get, Gh, Ga. cbn [bind].
    rewrite !Hplayers, (Hroster home hid Gh), (Hroster away aid Ga).
    reflexivity.
  - intro E. apply (club_keys_differ rows _ _ Gh Ga) in E.
    inversion E. contradiction.
Qed.


(** ** The player entry *)

Lemma len_set_le (l : list (option string)) : len_set l <= List.length l.
Proof.
  clear levenshtein_distance strptime word_tokenize.
  unfold len_set. induction l as [|a l IH]; simpl; [lia|].
  destruct (in_dec entry_eq_dec a l); simpl; lia.
Qed.

Lemma len_set_NoDup (l : list (option string)) :
  (len_set l <? List.length l) = false <-> NoDup l.
Proof.
  clear levenshtein_distance strptime word_tokenize.
  rewrite Nat.ltb_ge. unfold len_set.
  induction l as [|a l IH]; simpl.
  - split; [constructor | lia].
  - pose proof (len_set_le l) as Hle. unfold len_set in Hle.
    destruct (in_dec entry_eq_dec a l) as [Hin | Hnotin]; simpl.
    + split; [lia|]. intro H. inversion H. contradiction.
    + split.
      * intro H. constructor; [exact Hnotin|]. apply IH. lia.
      * intro H. inversion H. apply le_n_S. now apply IH.
Qed.

(** X13. [playerButton] reads eleven boxes per side, so its
    [not_enough_flag] is never set, whatever the boxes hold.  The warning
    is shown exactly when, on one side, two entries other than
    "unlisted player" are equal.  A box left unselected counts as an
    entry: two of them on a side give the warning, a single one does
    not. *)
Theorem playerButton_warns_iff_repeated
        (home_box away_box : nat -> option string) :
  not_enough_flag (player_boxes home_box) (player_boxes away_box) = false
  /\ (playerButton_warns home_box away_box = false
      <-> NoDup (listed (player_boxes home_box))
          /\ NoDup (listed (player_boxes away_box))).
Proof.
  clear levenshtein_distance strptime word_tokenize.
  assert (Hnot : not_enough_flag (player_boxes home_box)
                                 (player_boxes away_box) = false).
  { unfold not_enough_flag, player_boxes.
    now rewrite !length_map, !length_seq. }
  split; [exact Hnot|].
  unfold playerButton_warns. cbv zeta. rewrite Hnot, orb_false_r.
  unfold duplication_flag. rewrite orb_false_iff, !len_set_NoDup. tauto.
Qed.


(** ** Feature vectors *)

Lemma points_of_bound (teamID_ : nat) (r_match : nat * string * nat)
      (points : nat) :
  points_of teamID_ r_match = Some points -> points <= 3.
Proof.
  clear levenshtein_distance strptime word_tokenize.
  unfold points_of.
  destruct (home_score_of (snd (fst r_match))) as [h|]; [|discriminate].
  destruct (away_score_of (snd (fst r_match))) as [a|]; [|discriminate].
  destruct (h =? a); [intro H; inversion H; lia|].
  destruct ((a <? h) && (fst (fst r_match) =? teamID_));
    [intro H; inversion H; lia|].
  destruct ((h <? a) && (snd r_match =? teamID_));
    intro H; inversion H; lia.
Qed.


Lemma total_points_bound (teamID_ : nat)
      (recent_matches : list (nat * string * nat)) :
  forall total total',
    total_points_loop teamID_ recent_matches total = Some total' ->
    total <= total' <= total + 3 * List.length recent_matches.
Proof.
  clear levenshtein_distance strptime word_tokenize.
  induction recent_matches as [|r rest IH]; intros total total' H.
  - simpl in H. inversion H. simpl. lia.
  - simpl in H. destruct (points_of teamID_ r) as [p|] eqn:E; [|discriminate].
    apply points_of_bound in E. apply IH in H. simpl. lia.
Qed.
















(** ** Splitting the dataset *)

(** X15. Whatever integer [round(len(dataset) * partition_ratio)] is,
    negative or beyond the length included, [splitTrainingTesting] loses,
    repeats and reorders nothing: the training set followed by the
    testing set is the dataset.  For a size between 0 and the length the
    training set has that many vectors; a negative size [-k] leaves the
    last [k] vectors (all of them, if there are fewer) for testing; a
    size beyond the length leaves none. *)
Theorem splitTrainingTesting_partitions
        (A ratio : Type) (round_product : nat -> ratio -> option Z)
        (dataset : list A) (partition_ratio : ratio) (training_size : Z)
        (Hround : round_product (List.length dataset) partition_ratio
                  = Some training_size) :
  exists training_set testing_set,
    splitTrainingTesting round_product dataset partition_ratio
    = Some [training_set; testing_set]
    /\ training_set ++ testing_set = dataset
    /\ ((0 <= training_size <= Z.of_nat (List.length dataset))%Z ->
        Z.of_nat (List.length training_set) = training_size)
    /\ ((training_size < 0)%Z ->
        Z.of_nat (List.length testing_set)
        = Z.min (- training_size) (Z.of_nat (List.length dataset)))
    /\ ((Z.of_nat (List.length dataset) < training_size)%Z ->
        testing_set = []).
Proof.
  clear levenshtein_distance strptime word_tokenize.
  unfold splitTrainingTesting. rewrite Hround. cbv zeta.
  do 2 eexists. split; [reflexivity|].
  split; [apply firstn_skipn|].
  unfold slice_bound.
  split; [|split].
  - intros [H0 Hn]. destruct (Z.ltb_spec training_size 0); [lia|].
    rewrite length_firstn. lia.
  - intro Hneg. destruct (Z.ltb_spec training_size 0); [|lia].
    rewrite length_skipn. lia.
  - intro Hbig. destruct (Z.ltb_spec training_size 0); [lia|].
    apply skipn_all2. lia.
Qed.


End Engine.

(* ------------------------------------------------------------------ *)
(** * The theorems on sample rows *)

Lemma sample_players_well_formed : Forall well_formed_player sample_players.
Proof. repeat constructor. Qed.

Lemma collectClubs_first_seen_witness :
  Forall well_formed_player sample_players
  /\ exists existing,
      collectClubs sample_players [] = Ok existing
      /\ PyDict.keys existing = ["2017/2018"; "2018/2019"]
      /\ PyDict.get String.eqb "2017/2018" existing
         = Some ["Barcelona"; "Real Madrid"].
Proof.
  split; [exact sample_players_well_formed|].
  destruct (collectClubs_first_seen sample_players_well_formed)
    as (existing & E & K & G & _).
  exists existing. split; [exact E|]. split; [exact K|].
  apply (G "2017/2018"). simpl. auto.
Defined.

Lemma key_assignment_in_first_seen_order_witness :
  Forall well_formed_player sample_players
  /\ exists existing,
      collectClubs sample_players [] = Ok existing
      /\ PyDict.items (assignClubIDs existing) = sample_club_ids.
Proof.
  split; [exact sample_players_well_formed|].
  destruct (key_assignment_in_first_seen_order sample_players_well_formed)
    as (E & I & _).
  eexists. split; [exact E | exact I].
Defined.

Lemma dateToSeason_first_boundary_after_witness :
  Lib.strptime "12 May 2018" = Some (mkDate 2018 5 12)
  /\ dateToSeason Lib.strptime "12 May 2018" = Ok (Some "2017/2018").
Proof.
  split; [reflexivity|].
  apply (proj1 (proj2 (proj2 (proj2 (proj2
           (@dateToSeason_first_boundary_after Lib.strptime "12 May 2018"
              (mkDate 2018 5 12) eq_refl))))) 2018);
    [lia | reflexivity | reflexivity].
Defined.

Lemma club_resolver_exact_then_nearest_witness :
  (exists c id, In (("2017/2018", c), id) (PyDict.items sample_club_ids))
  /\ resolve_club_id Lib.levenshtein_distance sample_club_ids
                     (Some "2017/2018") "Real Madrid" = Ok (PInt 2).
Proof.
  assert (H : exists c id,
             In (("2017/2018", c), id) (PyDict.items sample_club_ids)).
  { exists "Barcelona", 1. simpl. auto. }
  split; [exact H|].
  apply (proj1 (club_resolver_exact_then_nearest
                  Lib.levenshtein_distance sample_club_ids
                  "2017/2018" "Real Madrid" H)).
  reflexivity.
Defined.

(** The containment test is equality with a roster name: "Messi" is a
    substring of both names of the candidate and is not resolved. *)
Lemma containment_by_substring_fails : ~ containment_by_substring.
Proof.
  intro H.
  specialize (H "Messi"
                (mkSide [] [(9, "L. Messi", "Lionel Messi")] ["Messi"])
                (9, "L. Messi", "Lionel Messi")).
  simpl in H. discriminate H; auto.
Qed.

(** Equality alone is not enough for all slots to resolve: the first
    candidate that carries a name takes it, here the one "B" needed. *)
Example first_match_takes_shared_candidate :
  side_pass ["A"; "B"] (mkSide [] [(1, "A", "B"); (2, "x", "A")] ["A"; "B"])
  = mkSide [1] [(2, "x", "A")] ["B"].
Proof. reflexivity. Qed.

Lemma containment_resolves_equal_names_witness :
  List.length sample_exact_home = 11
  /\ List.length sample_exact_away = 11
  /\ NoDup sample_exact_home /\ NoDup sample_exact_away
  /\ exactly_spelled sample_exact_home sample_home_pool
  /\ exactly_spelled sample_exact_away sample_away_pool
  /\ lineup (fst (containment_pass
                    (combine sample_exact_home sample_exact_away)
                    (mkSide [] sample_home_pool sample_exact_home)
                    (mkSide [] sample_away_pool sample_exact_away))) = [].
Proof.
  assert (Hdh : NoDup sample_exact_home) by (apply distinctb_NoDup; reflexivity).
  assert (Hda : NoDup sample_exact_away) by (apply distinctb_NoDup; reflexivity).
  assert (Hsh : exactly_spelled sample_exact_home sample_home_pool)
    by (apply exactly_spelledb_sound; reflexivity).
  assert (Hsa : exactly_spelled sample_exact_away sample_away_pool)
    by (apply exactly_spelledb_sound; reflexivity).
  repeat (split; [first [reflexivity | assumption]|]).
  exact (proj1 (proj2 (proj2
           (containment_resolves_equal_names Lib.word_tokenize
              (eq_refl : List.length sample_exact_home = 11)
              (eq_refl : List.length sample_exact_away = 11)
              Hdh Hda Hsh Hsa)))).
Defined.


Lemma compareBigrams_first_greatest_witness :
  snd (most_similar Lib.word_tokenize "Messi"
                    [(3, "G. Pique", "Gerard Pique");
                     (9, "L. Messi", "Lionel Messi")]) = 9.
Proof.
  apply (proj2 (proj2 (proj2 (proj2 (proj2
           (compareBigrams_first_greatest Lib.word_tokenize "Messi" []
              [(3, "G. Pique", "Gerard Pique");
               (9, "L. Messi", "Lionel Messi")])))))
           (9, "L. Messi", "Lionel Messi")).
  - simpl. auto.
  - vm_compute. lia.
  - intros c' [<- | [<- | []]] Hne.
    + vm_compute. lia.
    + now elim Hne.
Defined.

(** A misspelt name: "Messy" shares the bigrams Me, es, ss with
    "L. Messi" and none with the other candidate. *)
Example misspelt_name_resolves :
  generateBigrams Lib.word_tokenize "Messy" = ["Me"; "es"; "ss"; "sy"]
  /\ generateBigrams Lib.word_tokenize "L. Messi" = ["Me"; "es"; "ss"; "si"]
  /\ compareBigrams Lib.word_tokenize ["Messy"]
                    [(3, "G. Pique", "Gerard Pique");
                     (9, "L. Messi", "Lionel Messi")] = [9].
Proof. repeat split; vm_compute; reflexivity. Qed.

Lemma candidate_key_used_once_witness :
  NoDup (map id_of sample_home_pool) /\ ~ In 0 (map id_of sample_home_pool)
  /\ NoDup (map id_of sample_away_pool) /\ ~ In 0 (map id_of sample_away_pool)
  /\ count_occ Nat.eq_dec
       (similarity_pass Lib.word_tokenize
          (fst (containment_pass
                  (combine (firstn 11 (skipn 4 sample_match))
                           (skipn 15 sample_match))
                  (mkSide [] sample_home_pool (firstn 11 (skipn 4 sample_match)))
                  (mkSide [] sample_away_pool (skipn 15 sample_match)))))
       3 <= 1.
Proof.
  assert (Hh : NoDup (map id_of sample_home_pool)) by apply (seq_NoDup 11 1).
  assert (Ha : NoDup (map id_of sample_away_pool)) by apply (seq_NoDup 11 12).
  assert (Hh0 : ~ In 0 (map id_of sample_home_pool)).
  { change (map id_of sample_home_pool) with (seq 1 11).
    rewrite in_seq. lia. }
  assert (Ha0 : ~ In 0 (map id_of sample_away_pool)).
  { change (map id_of sample_away_pool) with (seq 12 11).
    rewrite in_seq. lia. }
  repeat (split; [assumption|]).
  apply (proj1 (candidate_key_used_once Lib.word_tokenize
                  (combine (firstn 11 (skipn 4 sample_match))
                           (skipn 15 sample_match))
                  (firstn 11 (skipn 4 sample_match)) (skipn 15 sample_match)
                  sample_home_pool sample_away_pool
                  Hh Hh0 Ha Ha0) (3, "G. Pique", "Gerard Pique")).
  simpl. auto.
Defined.


(** A row with the last away name missing: the match row is already
    committed when the length assertion of [insertLineups] fails. *)
Example short_row_leaves_match_alone :
  insertMatches_row Lib.levenshtein_distance Lib.word_tokenize Lib.strptime
                    sample_club_ids sample_name_ids 1 sample_short_match
                    fresh_conn
  = (Raise AssertionError,
     mkConn
       (add_match (mkMatchRow 1 (Some "2017/2018") 1 2 "3-1" 1 "2018-05-12")
                  empty_store)
       (add_clubmatch (2, 1)
          (add_clubmatch (1, 1)
             (add_match (mkMatchRow 1 (Some "2017/2018") 1 2 "3-1" 1 "2018-05-12")
                        empty_store)))).
Proof. vm_compute. reflexivity. Qed.



(* ------------------------------------------------------------------ *)
(** * The stand-ins and the whole run on small inputs *)

Example levenshtein_kitten_sitting :
  Lib.levenshtein_distance "kitten" "sitting" = 3.
Proof. reflexivity. Qed.

Example bigrams_drop_initial :
  generateBigrams Lib.word_tokenize "L. Messi" = ["Me"; "es"; "ss"; "si"].
Proof. reflexivity. Qed.

Example near_miss_club_name :
  resolve_club_id Lib.levenshtein_distance sample_club_ids
                  (Some "2017/2018") "FC Barcelona" = Ok (PInt 1).
Proof. reflexivity. Qed.

Example date_after_last_boundary :
  dateToSeason Lib.strptime "30 May 2020" = Ok None.
Proof. reflexivity. Qed.

(** The scenario of one player row and one lineup row: the club gets a
    key, the player row carries it, the match row has that home key and
    the season "2017/2018", and the first home column of the lineup is
    the player's key. *)
Example one_player_one_match :
  ingest Lib.levenshtein_distance Lib.word_tokenize Lib.strptime
         scenario_players scenario_lineups fresh_conn
  = let persisted :=
      mkStore
        [mkPlayerRow 1 "L.Messi" "Lionel Messi" "ST" "93" 1 "2017/2018"]
        [mkClubRow 1 "Barcelona" "2017/2018"]
        [mkMatchRow 1 (Some "2017/2018") 1 1 "3-1" 1 "2018-05-12"]
        [(1, 1); (1, 1)]
        [[1; 1; 0; 0; 0; 0; 0; 0; 0; 0; 0; 0;
          0; 0; 0; 0; 0; 0; 0; 0; 0; 0; 0]] in
    (Ok tt, mkConn persisted persisted).
Proof. vm_compute. reflexivity. Qed.

(* ------------------------------------------------------------------ *)
(** * Further properties on sample rows *)

Lemma readCSV_reads_back_joined_fields_witness :
  ["L. Messi"; "Lionel Messi"; "ST"; "93"; "Barcelona"; "2017/2018"] <> []
  /\ Forall (fun f => plain_field f = true)
            ["L. Messi"; "Lionel Messi"; "ST"; "93"; "Barcelona"; "2017/2018"]
  /\ readCSV ["L. Messi,Lionel Messi,ST,93,Barcelona,2017/2018"]
     = [["L. Messi"; "Lionel Messi"; "ST"; "93"; "Barcelona"; "2017/2018"]].
Proof.
  assert (Hsome : ["L. Messi"; "Lionel Messi"; "ST"; "93"; "Barcelona";
                   "2017/2018"] <> []) by discriminate.
  assert (Hplain : Forall (fun f => plain_field f = true)
                     ["L. Messi"; "Lionel Messi"; "ST"; "93"; "Barcelona";
                      "2017/2018"]) by (repeat constructor).
  split; [exact Hsome|]. split; [exact Hplain|].
  exact (proj2 (readCSV_reads_back_joined_fields Hsome Hplain)).
Defined.

Lemma lineup_values_are_player_keys_witness :
  exists name_ids conn',
    insertPlayers sample_club_ids sample_players fresh_conn
    = (Ok name_ids, conn')
    /\ lineup_values Lib.levenshtein_distance Lib.word_tokenize Lib.strptime
                     sample_club_ids name_ids 7 scenario_lineups_row
       = Ok [7; 1; 0; 0; 0; 0; 0; 0; 0; 0; 0; 0;
             3; 0; 0; 0; 0; 0; 0; 0; 0; 0; 0]
    /\ forall v,
        In v [1; 0; 0; 0; 0; 0; 0; 0; 0; 0; 0;
              3; 0; 0; 0; 0; 0; 0; 0; 0; 0; 0] ->
        v = 0
        \/ (1 <= v <= 4
            /\ exists p, In p (Players (committed conn')) /\ playerID p = v).
Proof.
  exists (match fst (insertPlayers sample_club_ids sample_players fresh_conn)
          with Ok n => n | Raise _ => [] end).
  exists (snd (insertPlayers sample_club_ids sample_players fresh_conn)).
  assert (Hp : insertPlayers sample_club_ids sample_players fresh_conn
               = (Ok (match fst (insertPlayers sample_club_ids sample_players
                                               fresh_conn)
                      with Ok n => n | Raise _ => [] end),
                  snd (insertPlayers sample_club_ids sample_players
                                     fresh_conn)))
    by (vm_compute; reflexivity).
  split; [exact Hp|].
  assert (Hv : lineup_values Lib.levenshtein_distance Lib.word_tokenize
                 Lib.strptime sample_club_ids
                 (match fst (insertPlayers sample_club_ids sample_players
                                           fresh_conn)
                  with Ok n => n | Raise _ => [] end)
                 7 scenario_lineups_row
               = Ok [7; 1; 0; 0; 0; 0; 0; 0; 0; 0; 0; 0;
                     3; 0; 0; 0; 0; 0; 0; 0; 0; 0; 0])
    by (vm_compute; reflexivity).
  split; [exact Hv|].
  exact (proj2 (@lineup_values_are_player_keys
                  Lib.levenshtein_distance Lib.word_tokenize Lib.strptime
                  _ _ _ _ _ _ _ _ _ Hp Hv)).
Defined.


Lemma match_in_unknown_season_aborts_witness :
  4 <= List.length ["Barcelona"; "Real Madrid"; "3-1"; "30 May 2020"]
  /\ Lib.strptime "30 May 2020" = Some (mkDate 2020 5 30)
  /\ first_boundary (mkDate 2020 5 30) season_boundaries = None
  /\ insertMatches_row Lib.levenshtein_distance Lib.word_tokenize Lib.strptime
                       sample_club_ids sample_name_ids 1
                       ["Barcelona"; "Real Madrid"; "3-1"; "30 May 2020"]
                       fresh_conn
     = (Raise BindingError, fresh_conn).
Proof.
  assert (Hlen : 4 <= List.length ["Barcelona"; "Real Madrid"; "3-1";
                                   "30 May 2020"]) by (simpl; lia).
  split; [exact Hlen|]. split; [reflexivity|]. split; [reflexivity|].
  apply (@match_in_unknown_season_aborts
           Lib.levenshtein_distance Lib.word_tokenize Lib.strptime
           sample_club_ids sample_name_ids 1
           ["Barcelona"; "Real Madrid"; "3-1"; "30 May 2020"] fresh_conn
           (mkDate 2020 5 30) Hlen eq_refl).
  intros s Hs. vm_compute in Hs. discriminate Hs.
Defined.

Lemma players_reference_their_club_witness :
  Forall well_formed_player sample_players
  /\ exists name_ids conn1 conn2,
      insertPlayers (club_ids_of sample_players) sample_players fresh_conn
      = (Ok name_ids, conn1)
      /\ insertClubs (club_ids_of sample_players) conn1 = (Ok tt, conn2)
      /\ NoDup (map clubID (Clubs (committed conn2))).
Proof.
  split; [exact sample_players_well_formed|].
  destruct (players_reference_their_club sample_players_well_formed)
    as (n & c1 & c2 & E1 & E2 & _ & Hnd & _).
  exists n, c1, c2. auto.
Defined.



Lemma name_without_bigrams_gets_null_witness :
  (forall tok, In tok (Lib.word_tokenize (remove_stops "L. M.")) ->
               String.length tok <= 1)
  /\ compareBigrams Lib.word_tokenize ["L. M."] sample_home_pool = [0].
Proof.
  assert (H : forall tok, In tok (Lib.word_tokenize (remove_stops "L. M.")) ->
                          String.length tok <= 1).
  { intros tok [<- | [<- | []]]; simpl; lia. }
  split; [exact H|].
  exact (proj2 (proj2 (proj2
           (@name_without_bigrams_gets_null Lib.word_tokenize "L. M." []
              sample_home_pool H)))).
Defined.

Lemma stored_lineups_load_witness :
  ingest Lib.levenshtein_distance Lib.word_tokenize Lib.strptime
         scenario_players scenario_lineups fresh_conn
  = (Ok tt,
     snd (ingest Lib.levenshtein_distance Lib.word_tokenize Lib.strptime
                 scenario_players scenario_lineups fresh_conn))
  /\ List.length
       (getMatches
          (committed
             (snd (ingest Lib.levenshtein_distance Lib.word_tokenize
                          Lib.strptime scenario_players scenario_lineups
                          fresh_conn))))
     = List.length scenario_lineups.
Proof.
  assert (Hrun : ingest Lib.levenshtein_distance Lib.word_tokenize
                        Lib.strptime scenario_players scenario_lineups
                        fresh_conn
                 = (Ok tt,
                    snd (ingest Lib.levenshtein_distance Lib.word_tokenize
                                Lib.strptime scenario_players scenario_lineups
                                fresh_conn)))
    by (vm_compute; reflexivity).
  split; [exact Hrun|].
  exact (proj1 (@stored_lineups_load
                  Lib.levenshtein_distance Lib.word_tokenize Lib.strptime
                  _ _ _ Hrun)).
Defined.

Lemma club_entry_offers_the_roster_witness :
  Forall well_formed_player sample_players
  /\ In "Barcelona" (clubs_of_season "2017/2018" sample_players)
  /\ In "Real Madrid" (clubs_of_season "2017/2018" sample_players)
  /\ "Barcelona" <> "Real Madrid"
  /\ exists conn2 homeID awayID,
      clubButton (committed conn2)
                 (selectClubNames (committed conn2) "2017/2018")
                 (Some "Barcelona") (Some "Real Madrid")
      = Ok (ClubsChosen homeID awayID ["L. Messi"; "G. Pique"] ["S. Ramos"]).
Proof.
  assert (Hh : In "Barcelona" (clubs_of_season "2017/2018" sample_players))
    by (simpl; auto).
  assert (Ha : In "Real Madrid" (clubs_of_season "2017/2018" sample_players))
    by (simpl; auto).
  assert (Hd : "Barcelona" <> "Real Madrid") by discriminate.
  split; [exact sample_players_well_formed|].
  split; [exact Hh|]. split; [exact Ha|]. split; [exact Hd|].
  destruct (@club_entry_offers_the_roster
              sample_players "2017/2018" "Barcelona" "Real Madrid"
              sample_players_well_formed Hh Ha Hd)
    as (n & c1 & c2 & hid & aid & _ & _ & _ & Hbutton & _).
  exists c2, hid, aid. exact Hbutton.
Defined.

(** One unselected box on the home side, every other entry different:
    no warning. *)
Example one_unselected_box_passes :
  playerButton_warns
    (fun i => if i =? 3 then None
              else Some (DecimalString.NilZero.string_of_uint (Nat.to_uint i)))
    (fun i => Some (DecimalString.NilZero.string_of_uint (Nat.to_uint i)))
  = false.
Proof. vm_compute. reflexivity. Qed.

(** Two boxes set to "unlisted player" do not count as a repetition;
    two unselected boxes do. *)
Example unlisted_may_repeat :
  playerButton_warns
    (fun i => if i <? 3 then Some "unlisted player"
              else Some (DecimalString.NilZero.string_of_uint (Nat.to_uint i)))
    (fun i => Some (DecimalString.NilZero.string_of_uint (Nat.to_uint i)))
  = false
  /\ playerButton_warns
       (fun i => if i <? 3 then None
                 else Some (DecimalString.NilZero.string_of_uint
                              (Nat.to_uint i)))
       (fun i => Some (DecimalString.NilZero.string_of_uint (Nat.to_uint i)))
     = true.
Proof. split; vm_compute; reflexivity. Qed.






Lemma splitTrainingTesting_partitions_witness :
  exists training_set testing_set,
    splitTrainingTesting (fun len (ratio : Z) => Some (- ratio)%Z)
                         [1; 2; 3; 4; 5] 2%Z
    = Some [training_set; testing_set]
    /\ training_set ++ testing_set = [1; 2; 3; 4; 5]
    /\ List.length testing_set = 2.
Proof.
  destruct (@splitTrainingTesting_partitions
              nat Z (fun len (ratio : Z) => Some (- ratio)%Z)
              [1; 2; 3; 4; 5] 2%Z (-2)%Z eq_refl)
    as (training_set & testing_set & E & Happ & _ & Hneg & _).
  exists training_set, testing_set. split; [exact E|]. split; [exact Happ|].
  assert (H : (-2 < 0)%Z) by lia. apply Hneg in H.
  simpl in H. lia.
Defined.
